(** * DeviceFeatures: the feature-demo page and its service worker

    A shallow embedding of [devices-demo/js/scripts.js] (the feature
    dispatcher and its capability handlers) and of the pass-through
    service worker, together with the properties the specification
    states about them.

    How the JavaScript is modelled:
    - numbers are IEEE binary64 floats, with [toFixed] computed exactly
      on mantissa and exponent; [Number::toString] is a parameter;
    - the page is a [world]: the children of the output element, a heap
      of the elements made by [document.createElement], a heap of the
      capability handles, the log of the platform calls, and the errors
      that reached the global handler;
    - the browser is a [host]: the property names of [navigator],
      [window], [document] and [screen], how a permission query settles,
      whether a constructor throws;
    - handler code runs in a state-and-exception monad over the world;
      an [await] takes the value its promise settles with in the same
      run, so a handler is followed from its call to its return without
      other events in between;
    - a listener is a function of the variables it closes over, which
      the handler that registers it returns; events are applied to the
      world one by one, a promise that settles being an event of its
      own; an error a listener does not catch is recorded in [uncaught];
    - a listener on [document] outlives the selection that added it:
      the [visibilitychange] listeners are a list, one for each
      invocation of the page visibility handler with the variable of
      that invocation, and an event runs them all, oldest first;
    - the listeners of geolocation, the permissions probe, badging and
      the orientation lock are followed event by event like the others;
      a request such a listener makes of the platform is the value it
      returns, kept in a list beside the world;
    - the listeners of fullscreen and vibration and the one of the
      network change are registered in the log and their bodies are
      left out. *)

From Stdlib Require Import Ascii ZArith Floats DecimalString.
From stdpp Require Import base strings list gmap.

#[local] Open Scope string_scope.
#[local] Set Warnings "-inexact-float".

(** ** Strings *)

(** [needle] occurs somewhere in [haystack] (JavaScript's
    [haystack.includes(needle)]). *)
Fixpoint includes (haystack needle : string) : bool :=
  String.prefix needle haystack ||
  match haystack with
  | EmptyString => false
  | String _ rest => includes rest needle
  end.

(** The text a markup fragment shows once parsed: everything outside
    the tags.  [in_tag] is true while scanning between [<] and [>]. *)
Fixpoint strip_tags (in_tag : bool) (markup : string) : string :=
  match markup with
  | EmptyString => EmptyString
  | String c rest =>
      if in_tag then
        if Ascii.eqb c ">"%char then strip_tags false rest else strip_tags true rest
      else
        if Ascii.eqb c "<"%char then strip_tags true rest
        else String c (strip_tags false rest)
  end.

Definition fragment_text (markup : string) : string := strip_tags false markup.

(** ** Numbers *)

Module JsNumber.
Section Number.

(** [Number::toString] of the engine, used where the code converts a
    number to a string in a template or by [+]; its digits are the
    engine's business and no property below depends on them. *)
Variable number_to_string : float → string.

(** The integer [n] for which [n / 10^f - m * 2^e] is as close to zero
    as possible; of two such [n] the larger one. *)
Definition scaled_round (m : positive) (e : Z) (f : N) : N :=
  let num := (Npos m * 10 ^ f)%N in
  if (0 <=? e)%Z then (num * 2 ^ Z.to_N e)%N
  else
    let den := (2 ^ Z.to_N (- e))%N in
    let q := (num / den)%N in
    let r := (num mod den)%N in
    if (den <=? 2 * r)%N then N.succ q else q.

Definition decimal (n : N) : string := NilZero.string_of_uint (N.to_uint n).

Fixpoint zeros (k : nat) : string :=
  match k with O => "" | S k' => "0" +:+ zeros k' end.

(** Steps 8-10 of [Number.prototype.toFixed]: the digits of [n] with a
    decimal point before the last [f] of them. *)
Definition fixed_digits (n : N) (f : nat) : string :=
  let m := decimal n in
  match f with
  | O => m
  | S _ =>
      let k := String.length m in
      let m' := if (k <=? f)%nat then zeros (f + 1 - k) +:+ m else m in
      let k' := String.length m' in
      String.substring 0 (k' - f) m' +:+ "." +:+ String.substring (k' - f) f m'
  end.

(** [x.toFixed(fractionDigits)]. *)
Definition toFixed (x : float) (fractionDigits : nat) : string :=
  match Prim2SF x with
  | S754_zero _ => fixed_digits 0 fractionDigits
  | S754_finite negative m e =>
      let s := if negative then "-" else "" in
      if PrimFloat.leb 1e21 (PrimFloat.abs x)
      then s +:+ number_to_string (PrimFloat.abs x)
      else s +:+ fixed_digits (scaled_round m e (N.of_nat fractionDigits)) fractionDigits
  | S754_infinity _ | S754_nan => number_to_string x
  end.

End Number.
End JsNumber.

(** ** The page: DOM, capability handles, platform calls *)

Inductive tagName := BUTTON | DIV | SELECT | OPTION.

(** What an element holds.  [Markup s] stands for the nodes the parser
    builds from the fragment [s]; [Child i] is the element with index
    [i] of the heap, put there by [appendChild]. *)
Inductive node :=
| TextNode (data : string)
| Markup (fragment : string)
| Child (element : nat).

#[global] Instance node_eq_dec : EqDecision node.
Proof. solve_decision. Defined.

Record element := {
  tag : tagName;
  children : list node;
  disabled : bool;
  value : string;
}.

(** A capability handle: a sensor, an idle detector or a wake-lock
    sentinel.  [activated] is the platform's side of it: set by a
    [start()] that returned, cleared by [stop()] and by the platform
    when it reports an error. *)
Record handle := {
  interface : string;
  activated : bool;
}.

Inductive eventTarget :=
| OnElement (i : nat)
| OnHandle (i : nat)
| OnDocument
| OnConnection
| OnBattery.

#[global] Instance eventTarget_eq_dec : EqDecision eventTarget.
Proof. solve_decision. Defined.

(** The calls the script makes on the platform, as they are logged. *)
Inductive call :=
| console_log (label : string)
| permissions_query (name : string)
| new (interface : string)
| addEventListener (target : eventTarget) (type : string)
| start (sensor : nat)
| stop (sensor : nat)
| getBattery
| wakeLock_request (type : string)
| release (sentinel : nat)
| IdleDetector_requestPermission
| Notification_requestPermission
| showNotification (title : string)
| setInterval (ms : nat).

#[global] Instance call_eq_dec : EqDecision call.
Proof. solve_decision. Defined.

Record world := {
  output : list node;        (* the children of the [#output] element *)
  elements : list element;   (* what [document.createElement] has made *)
  handles : list handle;     (* the capability handles constructed *)
  calls : list call;         (* the platform calls, oldest first *)
  uncaught : list string;    (* errors that reached the global handler *)
}.

Definition page_loaded : world :=
  {| output := []; elements := []; handles := []; calls := []; uncaught := [] |}.

(** How a promise settles, and how a call completes. *)
Inductive settled (A : Type) :=
| Fulfilled (result : A)
| Rejected (reason : string).
Arguments Fulfilled {A} result.
Arguments Rejected {A} reason.

Inductive completion (A : Type) :=
| Normal (result : A)
| Throw (error : string).
Arguments Normal {A} result.
Arguments Throw {A} error.

Record BatteryManager := {
  charging : bool;
  level : float;
  chargingTime : float;
  dischargingTime : float;
}.

Record NetworkInformation := {
  type : option string;
  effectiveType : option string;
  downlink : option float;
  downlinkMax : option float;
}.

(** The host: which names its objects carry, and what its calls answer. *)
Record host := {
  navigator : gset string;
  window : gset string;
  document : gset string;
  screen : gset string;
  fullscreenEnabled : bool;
  connection : NetworkInformation;        (* [navigator.connection] *)
  permission : string → settled string;   (* [navigator.permissions.query({name})] *)
  constructor : string → option string;   (* [new C(..)]: [Some e] when it throws [e] *)
  global : string → string → completion string;
    (* [window[name][property]] as a string, or what reading it throws *)
}.

(** JavaScript's [name in object]. *)
Definition has (object : gset string) (name : string) : bool :=
  bool_decide (name ∈ object).

(** ** The monad of handler code *)

Definition js (A : Type) : Type := world → completion A * world.

#[global] Instance js_ret : MRet js := λ A a w, (Normal a, w).
#[global] Instance js_bind : MBind js := λ A B f m w,
  match m w with
  | (Normal a, w') => f a w'
  | (Throw e, w') => (Throw e, w')
  end.

Definition throw {A} (e : string) : js A := λ w, (Throw e, w).

(** [try { body } catch (error) { handler }]. *)
Definition try_catch {A} (body : js A) (handler : string → js A) : js A := λ w,
  match body w with
  | (Normal a, w') => (Normal a, w')
  | (Throw e, w') => handler e w'
  end.

(** [await p]: the value [p] is fulfilled with, or its reason thrown. *)
Definition await {A} (p : settled A) : js A :=
  match p with
  | Fulfilled a => mret a
  | Rejected e => throw e
  end.

(** A listener, or an async function nobody awaits: what it throws goes
    to the global handler and the event loop goes on. *)
Definition report (e : string) (w : world) : world :=
  {| output := output w; elements := elements w; handles := handles w;
     calls := calls w; uncaught := uncaught w ++ [e] |}.

Definition run_to_completion {A} (m : js A) (w : world) : world :=
  match m w with
  | (Normal _, w') => w'
  | (Throw e, w') => report e w'
  end.

Definition modify (f : world → world) : js unit := λ w, (Normal tt, f w).
Definition gets {A} (f : world → A) : js A := λ w, (Normal (f w), w).

Definition log (c : call) : js unit := modify (λ w,
  {| output := output w; elements := elements w; handles := handles w;
     calls := calls w ++ [c]; uncaught := uncaught w |}).

Definition set_output (ns : list node) : js unit := modify (λ w,
  {| output := ns; elements := elements w; handles := handles w;
     calls := calls w; uncaught := uncaught w |}).

Definition set_elements (es : list element) : js unit := modify (λ w,
  {| output := output w; elements := es; handles := handles w;
     calls := calls w; uncaught := uncaught w |}).

Definition set_handles (hs : list handle) : js unit := modify (λ w,
  {| output := output w; elements := elements w; handles := hs;
     calls := calls w; uncaught := uncaught w |}).

(** [x.innerText = s] replaces the children by one text node, or by
    none when [s] is empty. *)
Definition text_nodes (s : string) : list node :=
  if String.eqb s "" then [] else [TextNode s].

Definition output_innerText (s : string) : js unit := set_output (text_nodes s).
Definition output_innerHTML (s : string) : js unit := set_output [Markup s].

(** [output.appendChild(e)], [output.append(e)]. *)
Definition output_appendChild (e : nat) : js unit :=
  ns ← gets output; set_output (ns ++ [Child e]).

(** [document.createElement(t)]: a fresh element, enabled and empty. *)
Definition createElement (t : tagName) : js nat :=
  es ← gets elements;
  set_elements (es ++ [{| tag := t; children := []; disabled := false; value := "" |}]);;
  mret (length es).

Definition update_element (i : nat) (f : element → element) : js unit :=
  es ← gets elements;
  match es !! i with
  | Some e => set_elements (<[i := f e]> es)
  | None => mret tt
  end.

Definition set_children (i : nat) (ns : list node) : js unit :=
  update_element i (λ e, {| tag := tag e; children := ns; disabled := disabled e; value := value e |}).

Definition innerText (i : nat) (s : string) : js unit := set_children i (text_nodes s).
Definition innerHTML (i : nat) (s : string) : js unit := set_children i [Markup s].

(** [x.innerHTML += s]: the children are serialised and parsed again
    with [s] behind them, which leaves them as they were, followed by
    the nodes of [s]. *)
Definition innerHTML_append (i : nat) (s : string) : js unit :=
  update_element i (λ e,
    {| tag := tag e; children := children e ++ [Markup s]; disabled := disabled e; value := value e |}).

Definition set_disabled (i : nat) (b : bool) : js unit :=
  update_element i (λ e, {| tag := tag e; children := children e; disabled := b; value := value e |}).

Definition set_value (i : nat) (v : string) : js unit :=
  update_element i (λ e, {| tag := tag e; children := children e; disabled := disabled e; value := v |}).

Definition appendChild (parent child : nat) : js unit :=
  update_element parent (λ e,
    {| tag := tag e; children := children e ++ [Child child]; disabled := disabled e; value := value e |}).

Definition is_disabled (w : world) (i : nat) : bool :=
  match elements w !! i with
  | Some e => disabled e
  | None => false
  end.

Definition children_of (w : world) (i : nat) : list node :=
  match elements w !! i with
  | Some e => children e
  | None => []
  end.

Definition is_activated (w : world) (i : nat) : bool :=
  match handles w !! i with
  | Some h => activated h
  | None => false
  end.

(** The platform makes a handle. *)
Definition allocate (C : string) (active : bool) : js nat :=
  hs ← gets handles;
  set_handles (hs ++ [{| interface := C; activated := active |}]);;
  mret (length hs).

(** [new C(..)]: the call is logged; the host says whether it throws. *)
Definition construct (h : host) (C : string) : js nat :=
  log (new C);;
  match constructor h C with
  | Some e => throw e
  | None => allocate C false
  end.

Definition set_activated (i : nat) (b : bool) : js unit :=
  hs ← gets handles;
  match hs !! i with
  | Some h => set_handles (<[i := {| interface := interface h; activated := b |}]> hs)
  | None => mret tt
  end.

(** [navigator.permissions.query({ name })], awaited: the state it
    resolves to. *)
Definition query (h : host) (name : string) : js string :=
  log (permissions_query name);;
  await (permission h name).

(** [for (const x of xs) { body }]. *)
Fixpoint for_of {A} (xs : list A) (body : A → js unit) : js unit :=
  match xs with
  | [] => mret tt
  | x :: rest => body x;; for_of rest body
  end.

(** A promise with a [then] reaction and no [catch]: the reaction runs
    on the value; a rejection is thrown to whoever runs the job. *)
Definition then_ {A B} (p : settled A) (onFulfilled : A → js B) : js B :=
  match p with
  | Fulfilled a => onFulfilled a
  | Rejected e => throw e
  end.

(** A click reaches the listener of a button only while the button is
    enabled. *)
Definition click {A} (button : nat) (listener : js A) (w : world) : world :=
  if is_disabled w button then w else run_to_completion listener w.

(** The platform calls a handler made between two worlds. *)
Definition calls_since (w w' : world) : list call :=
  drop (length (calls w)) (calls w').

(** ** Values the platform hands to the script *)

(** The attributes of a sensor when an event is delivered; each is
    [null] (here [None]) when the sensor does not have it. *)
Module Sensor.
Record attributes := {
  x : option float;
  y : option float;
  z : option float;
  quaternion : option (list float);
  illuminance : option float;
}.
End Sensor.

(** What the idle-detection handler's listeners close over. *)
Module Idle.
Record controls := {
  buttonPermission : nat;
  buttonDetection : nat;
  message : nat;
  buttonClock : nat;
}.
End Idle.

(** What the wake-lock handler's listeners close over. *)
Module WakeLock.
Record controls := {
  sentinel : nat;
  button : nat;
}.
End WakeLock.

(** What a sensor handler's listeners close over. *)
Record controls := {
  buttonStart : nat;
  buttonStop : nat;
  message : nat;
  sensor : option nat;   (* the handler's sensor variable, [None] while undefined *)
}.

(** The names bound by the script itself, outside any handler. *)
Definition script_scope : list string :=
  [ "featureSelector"; "output";
    "handleBatteryStatusAPI"; "handleNetworkInformation"; "handleFullscreenAPI";
    "handleScreenOrientationAPI"; "handleVibrationAPI"; "handleBadgingAPI";
    "handlePageVisibility"; "handleIdleDetectionAPI"; "handleScreenWakeLockAPI";
    "handleGeolocationAPI"; "handlePermissionsAPI"; "handleAccelerometer";
    "handleLinearAccelerationSensor"; "handleGyroscope"; "handleGravitySensor";
    "handleMagnetometer"; "handleAmbientLightSensor";
    "handleAbsoluteOrientationSensor"; "handleRelativeOrientationSensor" ].

(** Reading a property of [null] or [undefined]; the wording is V8's. *)
Definition TypeError (nothing property : string) : string :=
  "TypeError: Cannot read properties of " +:+ nothing +:+ " (reading '" +:+ property +:+ "')".

(** [object.property] where [object] may be [nothing] ([null] or
    [undefined]). *)
Definition member {A B} (object : option A) (nothing property : string)
    (read : A → js B) : js B :=
  match object with
  | Some o => read o
  | None => throw (TypeError nothing property)
  end.

Definition of_completion {A} (c : completion A) : js A := λ w, (c, w).

(** An identifier that no enclosing function and no declaration of the
    script binds: it is a property of the global object, or a
    [ReferenceError].  [name.property] is then the host's. *)
Definition free_identifier (h : host) (name property : string) : js string :=
  if has (window h) name then of_completion (global h name property)
  else throw ("ReferenceError: " +:+ name +:+ " is not defined").

(** The sensor interfaces the script has a handler for. *)
Inductive sensor_interface :=
| Accelerometer
| LinearAccelerationSensor
| Gyroscope
| GravitySensor
| Magnetometer
| AmbientLightSensor
| AbsoluteOrientationSensor
| RelativeOrientationSensor.

(** The features of the selector, one per handler. *)
Inductive feature :=
| Battery
| NetworkInfo
| Fullscreen
| ScreenOrientation
| Vibration
| Badging
| PageVisibility
| IdleDetection
| ScreenWakeLock
| Geolocation
| Permissions
| SensorFeature (k : sensor_interface).

#[global] Instance sensor_interface_eq_dec : EqDecision sensor_interface.
Proof. solve_decision. Defined.

#[global] Instance feature_eq_dec : EqDecision feature.
Proof. solve_decision. Defined.

(** The statements a case clause of the dispatcher's [switch] holds. *)
Inductive statement :=
| Call (f : feature)
| Break.

(** What can happen to the idle-detection handler once it has set up.
    A promise settles in a turn of the event loop of its own. *)
Inductive idle_event :=
| click_Request_Permission
| requestPermission_settled (p : settled string)
| click_Start_Listening
| start_settled (idleDetector : nat) (p : settled unit)
| change_event (userState screenState : string)
| click_Clock.

(** What can happen to a sensor handler once it has set up: a click on
    Start or Stop (with what the platform's [start()] or [stop()]
    throws, if anything), a reading, an error reported by the platform. *)
Inductive sensor_event :=
| click_Start (outcome : option string)
| click_Stop (outcome : option string)
| reading_event (a : Sensor.attributes)
| error_event (error : string).

(** ** The [switch] statement *)

(** The calls of a clause body up to its [break]; [true] when it broke. *)
Fixpoint until_break (body : list statement) : list feature * bool :=
  match body with
  | [] => ([], false)
  | Break :: _ => ([], true)
  | Call f :: rest => let '(fs, broke) := until_break rest in (f :: fs, broke)
  end.

(** Execution from a clause on: bodies run one after the other until a
    [break]. *)
Fixpoint fall_through (cs : list (string * list statement)) : list feature :=
  match cs with
  | [] => []
  | (_, body) :: rest =>
      let '(fs, broke) := until_break body in
      if broke then fs else fs ++ fall_through rest
  end.

(** [switch (v) { case l1: .. case l2: .. }]: the first clause whose
    label is strictly equal to [v] is where execution starts; the calls
    made, in order. *)
Fixpoint switch (v : string) (cs : list (string * list statement)) : list feature :=
  match cs with
  | [] => []
  | (label, body) :: rest =>
      if String.eqb v label then fall_through ((label, body) :: rest)
      else switch v rest
  end.

(** ** The script *)

Section Script.

Variable number_to_string : float → string.
Variable browser : host.

Abbreviation toFixed := (JsNumber.toFixed number_to_string).

(** *** Battery status *)

Definition writeBatteryInfo (battery : BatteryManager) : js unit :=
  let batteryCharging := if charging battery then "Yes" else "No" in
  let batteryLevel := toFixed (level battery * 100)%float 0 +:+ "%" in
  let chargingTime := number_to_string (chargingTime battery) +:+ " seconds" in
  let dischargingTime := number_to_string (dischargingTime battery) +:+ " seconds" in
  output_innerHTML ("
            <div>Bettery charging: <strong>" +:+ batteryCharging +:+ "</strong></div>
            <div>Bettery level: <strong>" +:+ batteryLevel +:+ "</strong></div>
            <div>Charging time: <strong>" +:+ chargingTime +:+ "</strong></div>
            <div>Discharging time: <strong>" +:+ dischargingTime +:+ "</strong></div>
          ").

(** The reaction to [navigator.getBattery()]. *)
Definition getBattery_then (battery : BatteryManager) : js unit :=
  log (console_log "Battery:");;
  writeBatteryInfo battery;;
  log (addEventListener OnBattery "chargingchange");;
  log (addEventListener OnBattery "levelchange");;
  log (addEventListener OnBattery "chargingtimechange");;
  log (addEventListener OnBattery "dischargingtimechange").

(** The four change listeners: a console line, then the snapshot. *)
Definition battery_onchange (label : string) (battery : BatteryManager) : js unit :=
  log (console_log label);;
  writeBatteryInfo battery.

(** [handleBatteryStatusAPI], scripts.js lines 58-114. *)
Definition handleBatteryStatusAPI : js unit :=
  log (console_log "navigator:");;
  if has (navigator browser) "getBattery" then
    log getBattery
  else
    output_innerText "Battery API not supported on this device.".

(** *** Network information *)

(** [s || 'unknown'] on a string, and on a number put in a template. *)
Definition string_or_unknown (s : option string) : string :=
  match s with
  | Some v => if String.eqb v "" then "unknown" else v
  | None => "unknown"
  end.

Definition number_or_unknown (n : option float) : string :=
  match n with
  | Some v =>
      if (PrimFloat.eqb v 0 || negb (PrimFloat.eqb v v))%bool then "unknown"
      else number_to_string v
  | None => "unknown"
  end.

Definition writeNetworkInfo (c : NetworkInformation) : js unit :=
  let networkType := string_or_unknown (type c) in
  let networkEffectiveType := string_or_unknown (effectiveType c) in
  let networkDownlink := number_or_unknown (downlink c) in
  let networkDownlinkMax := number_or_unknown (downlinkMax c) in
  output_innerHTML ("
        <div>Current network type: <strong>" +:+ networkType +:+ "</strong></div>
        <div>Cellular connection type: <strong>" +:+ networkEffectiveType +:+ "</strong></div>
        <div>Estimated bandwidth: <strong>" +:+ networkDownlink +:+ "</strong> Mbps</div>
        <div>Maximum downlink: <strong>" +:+ networkDownlinkMax +:+ "</strong> Mbps</div>
      ").

(** [handleNetworkInformation], scripts.js lines 121-153. *)
Definition handleNetworkInformation : js unit :=
  log (console_log "navigator:");;
  if has (navigator browser) "connection" then
    log (console_log "Connection:");;
    writeNetworkInfo (connection browser);;
    log (addEventListener OnConnection "change")
  else
    output_innerText "Network information not available on this device.".

(** *** Fullscreen, screen orientation, vibration, badging *)

(** [handleFullscreenAPI], scripts.js lines 161-207. *)
Definition handleFullscreenAPI : js unit :=
  log (console_log "Document:");;
  if has (document browser) "fullscreenElement"
     && has (document browser) "exitFullscreen"
     && fullscreenEnabled browser
  then
    button ← createElement BUTTON;
    innerText button "Toggle Fullscreen";;
    output_appendChild button;;
    message ← createElement DIV;
    innerText message "Click on the button above";;
    output_appendChild message;;
    log (addEventListener (OnElement button) "click")
  else
    output_innerText "Fullscreen not available or enabled on this device.".

(** [handleScreenOrientationAPI], scripts.js lines 215-280. *)
Definition handleScreenOrientationAPI : js unit :=
  log (console_log "Screen:");;
  if has (screen browser) "orientation" then
    log (console_log "Screen Orientation:");;
    handleFullscreenAPI;;
    buttonLockPortrait ← createElement BUTTON;
    innerText buttonLockPortrait "Lock Portrait";;
    output_appendChild buttonLockPortrait;;
    buttonLockLandscape ← createElement BUTTON;
    innerText buttonLockLandscape "Lock Landscape";;
    output_appendChild buttonLockLandscape;;
    buttonUnlock ← createElement BUTTON;
    innerText buttonUnlock "Unlock";;
    output_appendChild buttonUnlock;;
    message ← createElement DIV;
    innerText message "";;
    output_appendChild message;;
    log (addEventListener (OnElement buttonLockPortrait) "click");;
    log (addEventListener (OnElement buttonLockLandscape) "click");;
    log (addEventListener (OnElement buttonUnlock) "click")
  else
    output_innerText "Screen orientation is not available on this device.".

(** [handleVibrationAPI], scripts.js lines 288-324. *)
Definition handleVibrationAPI : js unit :=
  log (console_log "Navigator:");;
  if has (navigator browser) "vibrate" then
    buttonSingle ← createElement BUTTON;
    output_appendChild buttonSingle;;
    innerText buttonSingle "Single Vibration";;
    buttonMultiple ← createElement BUTTON;
    output_appendChild buttonMultiple;;
    innerText buttonMultiple "Multiple Vibration";;
    log (addEventListener (OnElement buttonSingle) "click");;
    log (addEventListener (OnElement buttonMultiple) "click")
  else
    output_innerText "Vibration is not supported on this device.".

(** [handleBadgingAPI], scripts.js lines 332-380. *)
Definition handleBadgingAPI : js unit :=
  log (console_log "Navigator:");;
  if has (navigator browser) "setAppBadge" || has (navigator browser) "setClientBadge" then
    buttonSetAppBadge ← createElement BUTTON;
    output_appendChild buttonSetAppBadge;;
    innerText buttonSetAppBadge "Set App Badge";;
    buttonClearAppBadge ← createElement BUTTON;
    output_appendChild buttonClearAppBadge;;
    innerText buttonClearAppBadge "Clear App Badge";;
    message ← createElement DIV;
    innerText message "";;
    output_appendChild message;;
    log (addEventListener (OnElement buttonSetAppBadge) "click");;
    log (addEventListener (OnElement buttonClearAppBadge) "click")
  else
    output_innerText "Badge API not available on this device.".

(** *** Page visibility *)

(* scripts.js, lines 387-435 *)
(** The handler returns its variable [leftTime], declared and not
    assigned ([None]), for its listener to close over. *)
Definition handlePageVisibility : js (option float) :=
  let leftTime := None in
  output_innerHTML "
    Page visibility set.<br>
    Please, don't leave me!
  ";;
  log (console_log "State:");;
  log (addEventListener OnDocument "visibilitychange");;
  mret leftTime.

(** The [visibilitychange] listener of one invocation of the handler.
    [leftTime] is that invocation's variable (a [Date], here its time
    value; [None] while undefined), [now] what [new Date()] gives when
    the listener runs.  Its run is what it leaves in the variable and
    what it does to the page: the one assignment to the variable comes
    before everything in the listener that can throw.  [Notification]
    is a free identifier, a property of the global object or a
    ReferenceError. *)
Definition onvisibilitychange (leftTime : option float)
    (visibilityState : string) (now : float) : option float * js unit :=
  if String.eqb visibilityState "hidden" then
    (Some now,
     log (console_log "State:");;
     if has (window browser) "Notification" then log Notification_requestPermission
     else throw ("ReferenceError: " +:+ "Notification" +:+ " is not defined"))
  else
    (leftTime,
     log (console_log "State:");;
     timeAway ← member leftTime "undefined" "getTime" (λ left, mret ((now - left) / 1000)%float);
     output_innerHTML ("
        Welcome back!!!<br>
        You were away for " +:+ toFixed timeAway 0 +:+ " seconds.
      ")).

(** The callback of [Notification.requestPermission]; it reads
    [navigator.serviceWorker.ready]. *)
Definition requestPermission_callback (permission : string) : js unit :=
  if String.eqb permission "granted" then
    if has (navigator browser) "serviceWorker"
    then log (showNotification "Come back, please!!!")
    else throw (TypeError "undefined" "ready")
  else mret tt.

(** One [visibilitychange] event at the document.  [listeners] are the
    listeners on the document, oldest first: every invocation of
    [handlePageVisibility] has added one and none is ever removed; each
    is known by the [leftTime] of its invocation.  The event runs them
    all in that order; what one throws is reported and the next one
    runs. *)
Fixpoint visibilitychange (listeners : list (option float)) (w : world)
    (visibilityState : string) (now : float) : list (option float) * world :=
  match listeners with
  | [] => ([], w)
  | leftTime :: rest =>
      let '(leftTime', body) := onvisibilitychange leftTime visibilityState now in
      let '(rest', w') := visibilitychange rest (run_to_completion body w) visibilityState now in
      (leftTime' :: rest', w')
  end.

(** *** Idle detection *)

(** [handleIdleDetectionAPI], scripts.js lines 443-545. *)
Definition handleIdleDetectionAPI : js (option Idle.controls) :=
  if has (window browser) "IdleDetector" then
    log (console_log "IdleDetector:");;
    buttonPermission ← createElement BUTTON;
    output_appendChild buttonPermission;;
    innerText buttonPermission "Request Permission";;
    buttonDetection ← createElement BUTTON;
    output_appendChild buttonDetection;;
    innerText buttonDetection "Start Listening";;
    message ← createElement DIV;
    innerText message "";;
    output_appendChild message;;
    buttonClock ← createElement BUTTON;
    output_appendChild buttonClock;;
    innerText buttonClock "Clock";;
    log (addEventListener (OnElement buttonPermission) "click");;
    log (addEventListener (OnElement buttonDetection) "click");;
    log (addEventListener (OnElement buttonClock) "click");;
    mret (Some {| Idle.buttonPermission := buttonPermission;
                  Idle.buttonDetection := buttonDetection;
                  Idle.message := message;
                  Idle.buttonClock := buttonClock |})
  else
    output_innerText "IdleDetector not supported on this device.";;
    mret None.

(** The listener of [Request Permission], and the reaction to its promise. *)
Definition buttonPermission_onclick : js unit :=
  log IdleDetector_requestPermission.

Definition requestPermission_then (c : Idle.controls) (permission : string) : js unit :=
  innerText (Idle.message c) ("Permission: " +:+ permission).

(** The listener of [Start Listening]: a new detector, its [change]
    listener, and [start({ threshold: 60000 })], whose promise is left
    pending.  It returns the detector. *)
Definition buttonDetection_onclick : js nat :=
  idleDetector ← construct browser "IdleDetector";
  log (console_log "idleDetector");;
  log (addEventListener (OnHandle idleDetector) "change");;
  log (start idleDetector);;
  mret idleDetector.

(** The reaction to the promise of [start]. *)
Definition start_then (c : Idle.controls) : js unit :=
  log (console_log "Idle detection started.");;
  set_disabled (Idle.buttonDetection c) true.

Definition idleDetector_onchange (c : Idle.controls) (userState screenState : string)
  : js unit :=
  log (console_log "Idle changed:");;
  innerHTML_append (Idle.message c) ("
          <div>Idle change: user <b>" +:+ userState +:+ "</b>, screen <b>" +:+ screenState +:+ "</b>.</div>
        ").

Definition buttonClock_onclick (c : Idle.controls) : js unit :=
  innerText (Idle.buttonClock c) "Counting";;
  log (setInterval 1000).

(** *** Screen wake lock *)

(** [handleScreenWakeLockAPI], scripts.js lines 552-597. *)
Definition handleScreenWakeLockAPI : js unit :=
  log (console_log "Navigator:");;
  if has (navigator browser) "wakeLock" then
    log (console_log "Navigator wakeLock:");;
    log (wakeLock_request "screen")
  else
    output_innerText "Screen Wake Lock API not supported on this device.".

(** The reaction to [navigator.wakeLock.request('screen')]. *)
Definition request_then (sentinel : nat) : js WakeLock.controls :=
  log (console_log "WakeLockSentinel:");;
  output_innerHTML "
          <div>Wake Lock is active!</div>
        ";;
  button ← createElement BUTTON;
  innerText button "Release screen";;
  output_appendChild button;;
  log (addEventListener (OnElement button) "click");;
  mret {| WakeLock.sentinel := sentinel; WakeLock.button := button |}.

(** The listener of [Release screen], and the reaction to its promise. *)
Definition button_onclick (c : WakeLock.controls) : js unit :=
  log (release (WakeLock.sentinel c)).

Definition release_then : js unit :=
  output_innerHTML "
                Wake Lock deactivated.<br>
                The screen was released!
              ".

(** *** Geolocation and the permissions probe *)

(** [handleGeolocationAPI], scripts.js lines 604-689. *)
Definition handleGeolocationAPI : js unit :=
  log (console_log "Navigator:");;
  if has (navigator browser) "geolocation" then
    log (console_log "Geolocation:");;
    buttonCurrentPosition ← createElement BUTTON;
    output_appendChild buttonCurrentPosition;;
    innerText buttonCurrentPosition "Current Position";;
    buttonWatchPosition ← createElement BUTTON;
    output_appendChild buttonWatchPosition;;
    innerText buttonWatchPosition "Watch Position";;
    message ← createElement DIV;
    innerText message "";;
    output_appendChild message;;
    log (addEventListener (OnElement buttonCurrentPosition) "click");;
    log (addEventListener (OnElement buttonWatchPosition) "click")
  else
    output_innerText "Geolocation API not available on this device.".

Definition values : list string :=
  [ "geolocation"; "notifications"; "push"; "midi"; "camera"; "microphone";
    "background-fetch"; "background-sync"; "persistent-storage";
    "ambient-light-sensor"; "accelerometer"; "gyroscope"; "magnetometer";
    "screen-wake-lock"; "nfc"; "display-capture"; "accessibility-events";
    "clipboard-read"; "clipboard-write"; "payment-handler"; "idle-detection";
    "periodic-background-sync"; "system-wake-lock"; "storage-access";
    "window-placement"; "local-fonts" ].

(** [handlePermissionsAPI], scripts.js lines 696-761. *)
Definition handlePermissionsAPI : js unit :=
  log (console_log "Navigator:");;
  if has (navigator browser) "permissions" then
    log (console_log "Permissions:");;
    select ← createElement SELECT;
    output_appendChild select;;
    option ← createElement OPTION;
    set_value option "";;
    innerText option "- Select -";;
    appendChild select option;;
    for_of values (λ val,
      option ← createElement OPTION;
      set_value option val;;
      innerText option val;;
      appendChild select option);;
    message ← createElement DIV;
    innerText message "Select a permission above.";;
    output_appendChild message;;
    log (addEventListener (OnElement select) "change")
  else
    output_innerText "Permission API not available on this device.".

(** *** The sensor handlers: what the eight of them share *)

(** "Create the helper elements": Start and Stop, both disabled, and
    the message, appended to the output in that order. *)
Definition helper_elements : js (nat * nat * nat) :=
  buttonStart ← createElement BUTTON;
  innerText buttonStart "Start";;
  set_disabled buttonStart true;;
  output_appendChild buttonStart;;
  buttonStop ← createElement BUTTON;
  innerText buttonStop "Stop";;
  set_disabled buttonStop true;;
  output_appendChild buttonStop;;
  message ← createElement DIV;
  innerText message "";;
  output_appendChild message;;
  mret (buttonStart, buttonStop, message).

(** The platform's [start()] and [stop()] on a sensor: the call is
    logged; it throws what [outcome] says, or else the sensor is
    activated (deactivated). *)
Definition Sensor_start (s : nat) (outcome : option string) : js unit :=
  log (start s);;
  match outcome with
  | Some e => throw e
  | None => set_activated s true
  end.

Definition Sensor_stop (s : nat) (outcome : option string) : js unit :=
  log (stop s);;
  match outcome with
  | Some e => throw e
  | None => set_activated s false
  end.

(** The click listener of Start. *)
Definition buttonStart_onclick (c : controls) (outcome : option string) : js unit :=
  try_catch
    (member (sensor c) "undefined" "start" (λ s, Sensor_start s outcome);;
     set_disabled (buttonStart c) true;;
     set_disabled (buttonStop c) false)
    (λ error,
     innerText (message c) ("It was not possible to start the sensor: " +:+ error)).

(** The click listener of Stop. *)
Definition buttonStop_onclick (c : controls) (outcome : option string) : js unit :=
  try_catch
    (member (sensor c) "undefined" "stop" (λ s, Sensor_stop s outcome);;
     set_disabled (buttonStart c) false;;
     set_disabled (buttonStop c) true;;
     innerHTML_append (message c) "<div>Sensor stopped!</div>")
    (λ error,
     innerText (message c) ("It was not possible to stop the sensor: " +:+ error)).

(** *** Accelerometer *)

Definition accelerometer_onerror (c : controls) (error : string) : js unit :=
  innerText (message c) ("Accelerometer failed: " +:+ error);;
  set_disabled (buttonStart c) false;;
  set_disabled (buttonStop c) true.

Definition accelerometer_onreading (c : controls) (accelerometer : Sensor.attributes) : js unit :=
  axisX ← member (Sensor.x accelerometer) "null" "toFixed" (λ x, mret (toFixed x 2));
  axisY ← member (Sensor.y accelerometer) "null" "toFixed" (λ y, mret (toFixed y 2));
  axisZ ← member (Sensor.z accelerometer) "null" "toFixed" (λ z, mret (toFixed z 2));
  innerHTML (message c) ("
        <div>Acceleration along the:</div>
        <ul>
          <li>X-axis is <b>" +:+ axisX +:+ "</b> m/s<sup>2</sup></li>
          <li>Y-axis is <b>" +:+ axisY +:+ "</b> m/s<sup>2</sup></li>
          <li>Z-axis is <b>" +:+ axisZ +:+ "</b> m/s<sup>2</sup></li>
        </ul>
      ").

(** [handleAccelerometer], scripts.js lines 768-896. *)
Definition handleAccelerometer : js (option controls) :=
  log (console_log "Window:");;
  if negb (has (window browser) "Accelerometer") then
    output_innerText "Accelerometer not available on this device.";;
    mret None
  else
  log (console_log "Accelerometer:");;
  if negb (has (navigator browser) "permissions") then
    output_innerText "Permission API not available on this device.";;
    mret None
  else
  accelerometerPermission ← query browser "accelerometer";
  if negb (String.eqb accelerometerPermission "granted") then
    output_innerText "You are not autorized to use the accelerometer sensor.";;
    mret None
  else
  '(buttonStart, buttonStop, message) ← helper_elements;
  accelerometer ← try_catch
    (accelerometer ← construct browser "Accelerometer";
     log (console_log "accelerometer:");;
     log (addEventListener (OnHandle accelerometer) "error");;
     log (addEventListener (OnHandle accelerometer) "reading");;
     set_disabled buttonStart false;;
     mret (Some accelerometer))
    (λ error,
     innerText message ("Accelerometer error: " +:+ error);;
     mret None);
  log (addEventListener (OnElement buttonStart) "click");;
  log (addEventListener (OnElement buttonStop) "click");;
  mret (Some {| buttonStart := buttonStart; buttonStop := buttonStop;
                message := message; sensor := accelerometer |}).

(** *** LinearAccelerationSensor *)

Definition linearAcceleration_onerror (c : controls) (error : string) : js unit :=
  innerText (message c) ("LinearAccelerationSensor failed: " +:+ error);;
  set_disabled (buttonStart c) false;;
  set_disabled (buttonStop c) true.

Definition linearAcceleration_onreading (c : controls) (linearAcceleration : Sensor.attributes) : js unit :=
  axisX ← member (Sensor.x linearAcceleration) "null" "toFixed" (λ x, mret (toFixed x 2));
  axisY ← member (Sensor.y linearAcceleration) "null" "toFixed" (λ y, mret (toFixed y 2));
  axisZ ← member (Sensor.z linearAcceleration) "null" "toFixed" (λ z, mret (toFixed z 2));
  innerHTML (message c) ("
        <div>Linear acceleration along the:</div>
        <ul>
          <li>X-axis is <b>" +:+ axisX +:+ "</b> m/s<sup>2</sup></li>
          <li>Y-axis is <b>" +:+ axisY +:+ "</b> m/s<sup>2</sup></li>
          <li>Z-axis is <b>" +:+ axisZ +:+ "</b> m/s<sup>2</sup></li>
        </ul>
      ").

(** [handleLinearAccelerationSensor], scripts.js lines 904-1032. *)
Definition handleLinearAccelerationSensor : js (option controls) :=
  log (console_log "Window:");;
  if negb (has (window browser) "LinearAccelerationSensor") then
    output_innerText "LinearAccelerationSensor not available on this device.";;
    mret None
  else
  log (console_log "LinearAccelerationSensor:");;
  if negb (has (navigator browser) "permissions") then
    output_innerText "Permission API not available on this device.";;
    mret None
  else
  accelerometerPermission ← query browser "accelerometer";
  if negb (String.eqb accelerometerPermission "granted") then
    output_innerText "You are not autorized to use the accelerometer sensor.";;
    mret None
  else
  '(buttonStart, buttonStop, message) ← helper_elements;
  linearAcceleration ← try_catch
    (linearAcceleration ← construct browser "LinearAccelerationSensor";
     log (console_log "linearAcceleration:");;
     log (addEventListener (OnHandle linearAcceleration) "error");;
     log (addEventListener (OnHandle linearAcceleration) "reading");;
     set_disabled buttonStart false;;
     mret (Some linearAcceleration))
    (λ error,
     innerText message ("LinearAccelerationSensor error: " +:+ error);;
     mret None);
  log (addEventListener (OnElement buttonStart) "click");;
  log (addEventListener (OnElement buttonStop) "click");;
  mret (Some {| buttonStart := buttonStart; buttonStop := buttonStop;
                message := message; sensor := linearAcceleration |}).

(** *** Gyroscope *)

Definition gyroscope_onerror (c : controls) (error : string) : js unit :=
  innerText (message c) ("Gyroscope failed: " +:+ error);;
  set_disabled (buttonStart c) false;;
  set_disabled (buttonStop c) true.

Definition gyroscope_onreading (c : controls) (gyroscope : Sensor.attributes) : js unit :=
  axisX ← member (Sensor.x gyroscope) "null" "toFixed" (λ x, mret (toFixed x 2));
  axisY ← member (Sensor.y gyroscope) "null" "toFixed" (λ y, mret (toFixed y 2));
  axisZ ← member (Sensor.z gyroscope) "null" "toFixed" (λ z, mret (toFixed z 2));
  innerHTML (message c) ("
        <div>Angular velocity along the:</div>
        <ul>
          <li>X-axis is <b>" +:+ axisX +:+ "</b> rad/s</li>
          <li>Y-axis is <b>" +:+ axisY +:+ "</b> rad/s</li>
          <li>Z-axis is <b>" +:+ axisZ +:+ "</b> rad/s</li>
        </ul>
      ").

(** [handleGyroscope], scripts.js lines 1039-1167. *)
Definition handleGyroscope : js (option controls) :=
  log (console_log "Window:");;
  if negb (has (window browser) "Gyroscope") then
    output_innerText "Gyroscope not available on this device.";;
    mret None
  else
  log (console_log "Gyroscope:");;
  if negb (has (navigator browser) "permissions") then
    output_innerText "Permission API not available on this device.";;
    mret None
  else
  gyroscopePermission ← query browser "gyroscope";
  if negb (String.eqb gyroscopePermission "granted") then
    output_innerText "You are not autorized to use the gyroscope sensor.";;
    mret None
  else
  '(buttonStart, buttonStop, message) ← helper_elements;
  gyroscope ← try_catch
    (gyroscope ← construct browser "Gyroscope";
     log (console_log "gyroscope:");;
     log (addEventListener (OnHandle gyroscope) "error");;
     log (addEventListener (OnHandle gyroscope) "reading");;
     set_disabled buttonStart false;;
     mret (Some gyroscope))
    (λ error,
     innerText message ("Gyroscope error: " +:+ error);;
     mret None);
  log (addEventListener (OnElement buttonStart) "click");;
  log (addEventListener (OnElement buttonStop) "click");;
  mret (Some {| buttonStart := buttonStart; buttonStop := buttonStop;
                message := message; sensor := gyroscope |}).

(** *** GravitySensor *)

Definition gravity_onerror (c : controls) (error : string) : js unit :=
  innerText (message c) ("GravitySensor failed: " +:+ error);;
  set_disabled (buttonStart c) false;;
  set_disabled (buttonStop c) true.

Definition gravity_onreading (c : controls) (gravity : Sensor.attributes) : js unit :=
  axisX ← member (Sensor.x gravity) "null" "toFixed" (λ x, mret (toFixed x 2));
  axisY ← member (Sensor.y gravity) "null" "toFixed" (λ y, mret (toFixed y 2));
  axisZ ← member (Sensor.z gravity) "null" "toFixed" (λ z, mret (toFixed z 2));
  innerHTML (message c) ("
        <div>Gravity along the:</div>
        <ul>
          <li>X-axis is <b>" +:+ axisX +:+ "</b> m/s<sup>2</sup></li>
          <li>Y-axis is <b>" +:+ axisY +:+ "</b> m/s<sup>2</sup></li>
          <li>Z-axis is <b>" +:+ axisZ +:+ "</b> m/s<sup>2</sup></li>
        </ul>
      ").

(** [handleGravitySensor], scripts.js lines 1174-1300. *)
Definition handleGravitySensor : js (option controls) :=
  log (console_log "Window:");;
  if negb (has (window browser) "GravitySensor") then
    output_innerText "GravitySensor not available on this device.";;
    mret None
  else
  log (console_log "GravitySensor:");;
  if negb (has (navigator browser) "permissions") then
    output_innerText "Permission API not available on this device.";;
    mret None
  else
  accelerometerPermission ← query browser "accelerometer";
  if negb (String.eqb accelerometerPermission "granted") then
    output_innerText "You are not autorized to use the accelerometer sensor.";;
    mret None
  else
  '(buttonStart, buttonStop, message) ← helper_elements;
  gravity ← try_catch
    (gravity ← construct browser "GravitySensor";
     log (console_log "gravity:");;
     log (addEventListener (OnHandle gravity) "error");;
     log (addEventListener (OnHandle gravity) "reading");;
     set_disabled buttonStart false;;
     mret (Some gravity))
    (λ error,
     innerText message ("GravitySensor error: " +:+ error);;
     mret None);
  log (addEventListener (OnElement buttonStart) "click");;
  log (addEventListener (OnElement buttonStop) "click");;
  mret (Some {| buttonStart := buttonStart; buttonStop := buttonStop;
                message := message; sensor := gravity |}).

(** *** Magnetometer *)

Definition magnetometer_onerror (c : controls) (error : string) : js unit :=
  innerText (message c) ("Magnetometer failed: " +:+ error);;
  set_disabled (buttonStart c) false;;
  set_disabled (buttonStop c) true.

Definition magnetometer_onreading (c : controls) (magnetometer : Sensor.attributes) : js unit :=
  axisX ← member (Sensor.x magnetometer) "null" "toFixed" (λ x, mret (toFixed x 2));
  axisY ← member (Sensor.y magnetometer) "null" "toFixed" (λ y, mret (toFixed y 2));
  axisZ ← member (Sensor.z magnetometer) "null" "toFixed" (λ z, mret (toFixed z 2));
  innerHTML (message c) ("
        <div>Magnetic field along the:</div>
        <ul>
          <li>X-axis is <b>" +:+ axisX +:+ "</b></li>
          <li>Y-axis is <b>" +:+ axisY +:+ "</b></li>
          <li>Z-axis is <b>" +:+ axisZ +:+ "</b></li>
        </ul>
      ").

(** [handleMagnetometer], scripts.js lines 1308-1436. *)
Definition handleMagnetometer : js (option controls) :=
  log (console_log "Window:");;
  if negb (has (window browser) "Magnetometer") then
    output_innerText "Magnetometer not available on this device.";;
    mret None
  else
  log (console_log "Magnetometer:");;
  if negb (has (navigator browser) "permissions") then
    output_innerText "Permission API not available on this device.";;
    mret None
  else
  magnetometerPermission ← query browser "magnetometer";
  if negb (String.eqb magnetometerPermission "granted") then
    output_innerText "You are not autorized to use the magnetometer sensor.";;
    mret None
  else
  '(buttonStart, buttonStop, message) ← helper_elements;
  magnetometer ← try_catch
    (magnetometer ← construct browser "Magnetometer";
     log (console_log "magnetometer:");;
     log (addEventListener (OnHandle magnetometer) "error");;
     log (addEventListener (OnHandle magnetometer) "reading");;
     set_disabled buttonStart false;;
     mret (Some magnetometer))
    (λ error,
     innerText message ("Magnetometer error: " +:+ error);;
     mret None);
  log (addEventListener (OnElement buttonStart) "click");;
  log (addEventListener (OnElement buttonStop) "click");;
  mret (Some {| buttonStart := buttonStart; buttonStop := buttonStop;
                message := message; sensor := magnetometer |}).

(** *** AmbientLightSensor *)

Definition ambientLight_onerror (c : controls) (error : string) : js unit :=
  innerText (message c) ("AmbientLightSensor failed: " +:+ error);;
  set_disabled (buttonStart c) false;;
  set_disabled (buttonStop c) true.

(** The listener names [sensor], which nothing binds: the handler's
    variable is [ambientLight]. *)
Definition ambientLight_onreading (c : controls) (ambientLight : Sensor.attributes) : js unit :=
  illuminance ← free_identifier browser "sensor" "illuminance";
  innerHTML (message c) ("
        <div>Current light level: " +:+ illuminance +:+ "</div>
      ").

(** [handleAmbientLightSensor], scripts.js lines 1444-1561. *)
Definition handleAmbientLightSensor : js (option controls) :=
  log (console_log "Window:");;
  if negb (has (window browser) "AmbientLightSensor") then
    output_innerText "AmbientLightSensor not available on this device.";;
    mret None
  else
  log (console_log "AmbientLightSensor:");;
  if negb (has (navigator browser) "permissions") then
    output_innerText "Permission API not available on this device.";;
    mret None
  else
  ambientLightPermission ← query browser "ambient-light-sensor";
  if negb (String.eqb ambientLightPermission "granted") then
    output_innerText "You are not autorized to use the ambient light sensor.";;
    mret None
  else
  '(buttonStart, buttonStop, message) ← helper_elements;
  ambientLight ← try_catch
    (ambientLight ← construct browser "AmbientLightSensor";
     log (console_log "ambientLight:");;
     log (addEventListener (OnHandle ambientLight) "error");;
     log (addEventListener (OnHandle ambientLight) "reading");;
     set_disabled buttonStart false;;
     mret (Some ambientLight))
    (λ error,
     innerText message ("AmbientLightSensor error: " +:+ error);;
     mret None);
  log (addEventListener (OnElement buttonStart) "click");;
  log (addEventListener (OnElement buttonStop) "click");;
  mret (Some {| buttonStart := buttonStart; buttonStop := buttonStop;
                message := message; sensor := ambientLight |}).

(** *** AbsoluteOrientationSensor *)

Definition absoluteOrientation_onerror (c : controls) (error : string) : js unit :=
  innerText (message c) ("AbsoluteOrientationSensor failed: " +:+ error);;
  set_disabled (buttonStart c) false;;
  set_disabled (buttonStop c) true.

Definition absoluteOrientation_onreading (c : controls) (absoluteOrientation : Sensor.attributes) : js unit :=
  orientation ← member (Sensor.quaternion absoluteOrientation) "null" "forEach" (λ quaternion,
    mret (foldl (λ orientation value,
                   orientation +:+ "<li>" +:+ toFixed value 15 +:+ "</li>")
                "" quaternion));
  innerHTML (message c) ("
        <div>Absolute orientation: </div>
        <ul>
          " +:+ orientation +:+ "
        </ul>
      ").

(** [handleAbsoluteOrientationSensor], scripts.js lines 1567-1712. *)
Definition handleAbsoluteOrientationSensor : js (option controls) :=
  log (console_log "Window:");;
  if negb (has (window browser) "AbsoluteOrientationSensor") then
    output_innerText "AbsoluteOrientationSensor not available on this device.";;
    mret None
  else
  log (console_log "AbsoluteOrientationSensor:");;
  if negb (has (navigator browser) "permissions") then
    output_innerText "Permission API not available on this device.";;
    mret None
  else
  accelerometerPermission ← query browser "accelerometer";
  if negb (String.eqb accelerometerPermission "granted") then
    output_innerText "You are not autorized to use the accelerometer sensor.";;
    mret None
  else
  gyroscopePermission ← query browser "gyroscope";
  if negb (String.eqb gyroscopePermission "granted") then
    output_innerText "You are not autorized to use the gyroscope sensor.";;
    mret None
  else
  magnetometerPermission ← query browser "magnetometer";
  if negb (String.eqb magnetometerPermission "granted") then
    output_innerText "You are not autorized to use the magnetometer sensor.";;
    mret None
  else
  '(buttonStart, buttonStop, message) ← helper_elements;
  absoluteOrientation ← try_catch
    (absoluteOrientation ← construct browser "AbsoluteOrientationSensor";
     log (console_log "absoluteOrientation:");;
     log (addEventListener (OnHandle absoluteOrientation) "error");;
     log (addEventListener (OnHandle absoluteOrientation) "reading");;
     set_disabled buttonStart false;;
     mret (Some absoluteOrientation))
    (λ error,
     innerText message ("AbsoluteOrientationSensor error: " +:+ error);;
     mret None);
  log (addEventListener (OnElement buttonStart) "click");;
  log (addEventListener (OnElement buttonStop) "click");;
  mret (Some {| buttonStart := buttonStart; buttonStop := buttonStop;
                message := message; sensor := absoluteOrientation |}).

(** *** RelativeOrientationSensor *)

Definition relativeOrientation_onerror (c : controls) (error : string) : js unit :=
  innerText (message c) ("RelativeOrientationSensor failed: " +:+ error);;
  set_disabled (buttonStart c) false;;
  set_disabled (buttonStop c) true.

Definition relativeOrientation_onreading (c : controls) (relativeOrientation : Sensor.attributes) : js unit :=
  orientation ← member (Sensor.quaternion relativeOrientation) "null" "forEach" (λ quaternion,
    mret (foldl (λ orientation value,
                   orientation +:+ "<li>" +:+ toFixed value 15 +:+ "</li>")
                "" quaternion));
  innerHTML (message c) ("
        <div>Relative orientation: </div>
        <ul>
          " +:+ orientation +:+ "
        </ul>
      ").

(** [handleRelativeOrientationSensor], scripts.js lines 1718-1854. *)
Definition handleRelativeOrientationSensor : js (option controls) :=
  log (console_log "Window:");;
  if negb (has (window browser) "RelativeOrientationSensor") then
    output_innerText "RelativeOrientationSensor not available on this device.";;
    mret None
  else
  log (console_log "RelativeOrientationSensor:");;
  if negb (has (navigator browser) "permissions") then
    output_innerText "Permission API not available on this device.";;
    mret None
  else
  accelerometerPermission ← query browser "accelerometer";
  if negb (String.eqb accelerometerPermission "granted") then
    output_innerText "You are not autorized to use the accelerometer sensor.";;
    mret None
  else
  gyroscopePermission ← query browser "gyroscope";
  if negb (String.eqb gyroscopePermission "granted") then
    output_innerText "You are not autorized to use the gyroscope sensor.";;
    mret None
  else
  '(buttonStart, buttonStop, message) ← helper_elements;
  relativeOrientation ← try_catch
    (relativeOrientation ← construct browser "RelativeOrientationSensor";
     log (console_log "relativeOrientation:");;
     log (addEventListener (OnHandle relativeOrientation) "error");;
     log (addEventListener (OnHandle relativeOrientation) "reading");;
     set_disabled buttonStart false;;
     mret (Some relativeOrientation))
    (λ error,
     innerText message ("RelativeOrientationSensor error: " +:+ error);;
     mret None);
  log (addEventListener (OnElement buttonStart) "click");;
  log (addEventListener (OnElement buttonStop) "click");;
  mret (Some {| buttonStart := buttonStart; buttonStop := buttonStop;
                message := message; sensor := relativeOrientation |}).

(** *** The sensor handlers, by interface *)

Definition sensor_handler (k : sensor_interface) : js (option controls) :=
  match k with
  | Accelerometer => handleAccelerometer
  | LinearAccelerationSensor => handleLinearAccelerationSensor
  | Gyroscope => handleGyroscope
  | GravitySensor => handleGravitySensor
  | Magnetometer => handleMagnetometer
  | AmbientLightSensor => handleAmbientLightSensor
  | AbsoluteOrientationSensor => handleAbsoluteOrientationSensor
  | RelativeOrientationSensor => handleRelativeOrientationSensor
  end.

Definition onerror (k : sensor_interface) : controls → string → js unit :=
  match k with
  | Accelerometer => accelerometer_onerror
  | LinearAccelerationSensor => linearAcceleration_onerror
  | Gyroscope => gyroscope_onerror
  | GravitySensor => gravity_onerror
  | Magnetometer => magnetometer_onerror
  | AmbientLightSensor => ambientLight_onerror
  | AbsoluteOrientationSensor => absoluteOrientation_onerror
  | RelativeOrientationSensor => relativeOrientation_onerror
  end.

Definition onreading (k : sensor_interface) : controls → Sensor.attributes → js unit :=
  match k with
  | Accelerometer => accelerometer_onreading
  | LinearAccelerationSensor => linearAcceleration_onreading
  | Gyroscope => gyroscope_onreading
  | GravitySensor => gravity_onreading
  | Magnetometer => magnetometer_onreading
  | AmbientLightSensor => ambientLight_onreading
  | AbsoluteOrientationSensor => absoluteOrientation_onreading
  | RelativeOrientationSensor => relativeOrientation_onreading
  end.

(** One event of a sensor handler that has set up.  The sensor's own
    listeners exist only when it was constructed; the platform
    deactivates a sensor before it reports an error on it. *)
Definition sensor_step (k : sensor_interface) (c : controls) (w : world)
    (ev : sensor_event) : world :=
  match ev with
  | click_Start outcome => click (buttonStart c) (buttonStart_onclick c outcome) w
  | click_Stop outcome => click (buttonStop c) (buttonStop_onclick c outcome) w
  | reading_event a =>
      match sensor c with
      | Some _ => run_to_completion (onreading k c a) w
      | None => w
      end
  | error_event e =>
      match sensor c with
      | Some s => run_to_completion (set_activated s false;; onerror k c e) w
      | None => w
      end
  end.

(** *** Idle detection and wake lock, event by event *)

Definition idle_step (c : Idle.controls) (w : world) (ev : idle_event) : world :=
  match ev with
  | click_Request_Permission =>
      click (Idle.buttonPermission c) buttonPermission_onclick w
  | requestPermission_settled p =>
      run_to_completion (then_ p (requestPermission_then c)) w
  | click_Start_Listening =>
      click (Idle.buttonDetection c) buttonDetection_onclick w
  | start_settled idleDetector p =>
      run_to_completion
        (then_ p (λ _, set_activated idleDetector true;; start_then c)) w
  | change_event userState screenState =>
      run_to_completion (idleDetector_onchange c userState screenState) w
  | click_Clock =>
      click (Idle.buttonClock c) (buttonClock_onclick c) w
  end.

(** The promise of [navigator.wakeLock.request('screen')] settles: the
    platform hands over a sentinel, or the reason of the rejection. *)
Definition request_settled (p : settled unit) (w : world)
  : option WakeLock.controls * world :=
  match then_ p (λ _, sentinel ← allocate "WakeLockSentinel" true;
                      request_then sentinel) w with
  | (Normal c, w') => (Some c, w')
  | (Throw e, w') => (None, report e w')
  end.

Definition release_settled (c : WakeLock.controls) (p : settled unit) (w : world)
  : world :=
  run_to_completion
    (then_ p (λ _, set_activated (WakeLock.sentinel c) false;; release_then)) w.

(** *** The dispatcher *)

(** An async function called and not awaited: the call itself returns
    a promise; what the body throws is that promise's rejection, which
    nobody handles. *)
Definition async {A} (body : js A) : js unit := λ w,
  (Normal tt, run_to_completion body w).

Definition invoke (f : feature) : js unit :=
  match f with
  | Battery => handleBatteryStatusAPI
  | NetworkInfo => handleNetworkInformation
  | Fullscreen => handleFullscreenAPI
  | ScreenOrientation => handleScreenOrientationAPI
  | Vibration => handleVibrationAPI
  | Badging => handleBadgingAPI
  | PageVisibility => handlePageVisibility;; mret tt
  | IdleDetection => handleIdleDetectionAPI;; mret tt
  | ScreenWakeLock => handleScreenWakeLockAPI
  | Geolocation => handleGeolocationAPI
  | Permissions => handlePermissionsAPI
  | SensorFeature k => async (sensor_handler k)
  end.

(** The case clauses of the [switch], in the order of the script. *)
Definition clauses : list (string * list statement) :=
  [ ("battery", [Call Battery; Break]);
    ("network-info", [Call NetworkInfo; Break]);
    ("fullscreen", [Call Fullscreen; Break]);
    ("screen-orientation", [Call ScreenOrientation; Break]);
    ("vibration", [Call Vibration; Break]);
    ("badging", [Call Badging; Break]);
    ("page-visibility", [Call PageVisibility; Break]);
    ("idle-detection", [Call IdleDetection; Break]);
    ("screen-wake-lock", [Call ScreenWakeLock; Break]);
    ("geolocation", [Call Geolocation; Break]);
    ("permissions", [Call Permissions; Break]);
    ("accelerometer", [Call (SensorFeature Accelerometer); Break]);
    ("linear-acceleration", [Call (SensorFeature LinearAccelerationSensor); Break]);
    ("gyroscope", [Call (SensorFeature Gyroscope); Break]);
    ("gravity", [Call (SensorFeature GravitySensor); Break]);
    ("magnetometer", [Call (SensorFeature Magnetometer); Break]);
    ("ambient-light", [Call (SensorFeature AmbientLightSensor); Break]);
    ("absolute-orientation", [Call (SensorFeature AbsoluteOrientationSensor); Break]);
    ("relative-orientation", [Call (SensorFeature RelativeOrientationSensor); Break]) ].

(** The listener of the selector's [change] event. *)
Definition featureSelector_onchange (selectedOption : string) : js unit :=
  output_innerText "";;
  for_of (switch selectedOption clauses) invoke.

Definition change (selectedOption : string) (w : world) : world :=
  run_to_completion (featureSelector_onchange selectedOption) w.

End Script.

(** ** The service worker *)

Module ServiceWorker.

(** The phases of a worker's life. *)
Inductive phase := parsed | installing | waiting | activating | activated.

Section Worker.

Variables Request Response Client : Type.

(** The network: how [fetch(request)] settles. *)
Variable network : Request → settled Response.

(** What a worker script can ask of the platform. *)
Inductive call :=
| console_log (label : string)
| skipWaiting
| clients_claim
| waitUntil
| fetch (request : Request)
| respondWith
| caches_open (name : string)
| cache_match (request : Request)
| cache_put (request : Request).

Definition cache_call (c : call) : bool :=
  match c with
  | caches_open _ | cache_match _ | cache_put _ => true
  | _ => false
  end.

Record scope := {
  state : phase;
  skip_waiting_flag : bool;     (* set by [self.skipWaiting()] *)
  controlled : list Client;     (* the clients this worker controls *)
  calls : list call;            (* the platform calls, oldest first *)
}.

Definition registered : scope :=
  {| state := parsed; skip_waiting_flag := false; controlled := []; calls := [] |}.

Definition log (c : call) (s : scope) : scope :=
  {| state := state s; skip_waiting_flag := skip_waiting_flag s;
     controlled := controlled s; calls := calls s ++ [c] |}.

(** The listener of [install]. *)
Definition oninstall (s : scope) : scope :=
  let s := log (console_log "[Service Worker] Install:") s in
  let s := log skipWaiting s in
  {| state := state s; skip_waiting_flag := true;
     controlled := controlled s; calls := calls s |}.

(** The listener of [activate]; [open] are the open clients of the
    origin, which [clients.claim()] puts under this worker. *)
Definition onactivate (open : list Client) (s : scope) : scope :=
  let s := log (console_log "[Service Worker] Activate:") s in
  let s := log clients_claim s in
  let s := log waitUntil s in
  {| state := state s; skip_waiting_flag := skip_waiting_flag s;
     controlled := open; calls := calls s |}.

(** The listener of [fetch]: what the page gets for its request. *)
Definition onfetch (request : Request) (s : scope) : settled Response * scope :=
  let s := log (fetch request) s in
  let s := log respondWith s in
  (network request, s).

Definition set_state (p : phase) (s : scope) : scope :=
  {| state := p; skip_waiting_flag := skip_waiting_flag s;
     controlled := controlled s; calls := calls s |}.

(** The platform installs the worker: the [install] event, then the
    waiting phase unless the flag is set or no older worker is in
    use, in which case activation starts at once. *)
Definition install (older_worker_in_use : bool) (s : scope) : scope :=
  let s := oninstall (set_state installing s) in
  if skip_waiting_flag s || negb older_worker_in_use
  then set_state activating s
  else set_state waiting s.

(** The platform activates the worker: the [activate] event, whose
    [waitUntil] promise holds activation until the claim is done. *)
Definition activate (open : list Client) (s : scope) : scope :=
  match state s with
  | activating => set_state activated (onactivate open s)
  | _ => s
  end.

(** The events a worker gets once registered. *)
Inductive event :=
| install_event (older_worker_in_use : bool)
| activate_event (open : list Client)
| fetch_event (request : Request).

Definition step (s : scope) (ev : event) : scope :=
  match ev with
  | install_event older => install older s
  | activate_event open => activate open s
  | fetch_event request => snd (onfetch request s)
  end.

End Worker.

Arguments console_log {Request} label.
Arguments skipWaiting {Request}.
Arguments clients_claim {Request}.
Arguments waitUntil {Request}.
Arguments respondWith {Request}.
Arguments caches_open {Request} name.
Arguments registered {Request Client}.

End ServiceWorker.

(** ** What the specification names *)

(** The option value of the selector for each feature. *)
Definition tag_of (f : feature) : string :=
  match f with
  | Battery => "battery"
  | NetworkInfo => "network-info"
  | Fullscreen => "fullscreen"
  | ScreenOrientation => "screen-orientation"
  | Vibration => "vibration"
  | Badging => "badging"
  | PageVisibility => "page-visibility"
  | IdleDetection => "idle-detection"
  | ScreenWakeLock => "screen-wake-lock"
  | Geolocation => "geolocation"
  | Permissions => "permissions"
  | SensorFeature Accelerometer => "accelerometer"
  | SensorFeature LinearAccelerationSensor => "linear-acceleration"
  | SensorFeature Gyroscope => "gyroscope"
  | SensorFeature GravitySensor => "gravity"
  | SensorFeature Magnetometer => "magnetometer"
  | SensorFeature AmbientLightSensor => "ambient-light"
  | SensorFeature AbsoluteOrientationSensor => "absolute-orientation"
  | SensorFeature RelativeOrientationSensor => "relative-orientation"
  end.

(** The name of a sensor interface on the global object. *)
Definition interface_name (k : sensor_interface) : string :=
  match k with
  | Accelerometer => "Accelerometer"
  | LinearAccelerationSensor => "LinearAccelerationSensor"
  | Gyroscope => "Gyroscope"
  | GravitySensor => "GravitySensor"
  | Magnetometer => "Magnetometer"
  | AmbientLightSensor => "AmbientLightSensor"
  | AbsoluteOrientationSensor => "AbsoluteOrientationSensor"
  | RelativeOrientationSensor => "RelativeOrientationSensor"
  end.

(** The permissions a sensor is gated on, in the order they are
    declared for it. *)
Definition required_permissions (k : sensor_interface) : list string :=
  match k with
  | Accelerometer => ["accelerometer"]
  | LinearAccelerationSensor => ["accelerometer"]
  | Gyroscope => ["gyroscope"]
  | GravitySensor => ["accelerometer"]
  | Magnetometer => ["magnetometer"]
  | AmbientLightSensor => ["ambient-light-sensor"]
  | AbsoluteOrientationSensor => ["accelerometer"; "gyroscope"; "magnetometer"]
  | RelativeOrientationSensor => ["accelerometer"; "gyroscope"]
  end.


(** The denial message of a permission. *)
Definition denial_message (permission : string) : string :=
  if String.eqb permission "ambient-light-sensor"
  then "You are not autorized to use the ambient light sensor."
  else "You are not autorized to use the " +:+ permission +:+ " sensor.".

(** The query for [p] resolved to ['granted']. *)
Definition granted (h : host) (p : string) : bool :=
  match permission h p with
  | Fulfilled st => String.eqb st "granted"
  | Rejected _ => false
  end.

(** Asking permissions strictly in turn: each is asked only once the
    one before it has resolved to ['granted']. *)
Fixpoint asked_in_turn (h : host) (ps : list string) : list string :=
  match ps with
  | [] => []
  | p :: rest => p :: (if granted h p then asked_in_turn h rest else [])
  end.

(** The first permission, in the declared order, that is not granted. *)
Fixpoint first_ungranted (h : host) (ps : list string) : option string :=
  match ps with
  | [] => None
  | p :: rest => if granted h p then first_ungranted h rest else Some p
  end.

(** The permission queries among some calls, in order. *)
Definition queries (cs : list call) : list string :=
  omap (λ c, match c with permissions_query name => Some name | _ => None end) cs.

(** The [start()] and [stop()] calls among some calls, in order. *)
Definition starts_and_stops (cs : list call) : list call :=
  List.filter (λ c, match c with start _ | stop _ => true | _ => false end) cs.

(** The fixed message a handler renders when its presence check fails
    on a host; [None] when the check passes or the handler has none. *)
Definition unsupported_message (h : host) (f : feature) : option string :=
  match f with
  | Battery =>
      if has (navigator h) "getBattery" then None
      else Some "Battery API not supported on this device."
  | NetworkInfo =>
      if has (navigator h) "connection" then None
      else Some "Network information not available on this device."
  | Fullscreen =>
      if has (document h) "fullscreenElement" && has (document h) "exitFullscreen"
         && fullscreenEnabled h
      then None
      else Some "Fullscreen not available or enabled on this device."
  | ScreenOrientation =>
      if has (screen h) "orientation" then None
      else Some "Screen orientation is not available on this device."
  | Vibration =>
      if has (navigator h) "vibrate" then None
      else Some "Vibration is not supported on this device."
  | Badging =>
      if has (navigator h) "setAppBadge" || has (navigator h) "setClientBadge" then None
      else Some "Badge API not available on this device."
  | PageVisibility => None
  | IdleDetection =>
      if has (window h) "IdleDetector" then None
      else Some "IdleDetector not supported on this device."
  | ScreenWakeLock =>
      if has (navigator h) "wakeLock" then None
      else Some "Screen Wake Lock API not supported on this device."
  | Geolocation =>
      if has (navigator h) "geolocation" then None
      else Some "Geolocation API not available on this device."
  | Permissions =>
      if has (navigator h) "permissions" then None
      else Some "Permission API not available on this device."
  | SensorFeature k =>
      if negb (has (window h) (interface_name k))
      then Some (interface_name k +:+ " not available on this device.")
      else if negb (has (navigator h) "permissions")
      then Some "Permission API not available on this device."
      else None
  end.

(** The output region emptied, everything else as it was. *)
Definition cleared (w : world) : world :=
  {| output := []; elements := elements w; handles := handles w;
     calls := calls w; uncaught := uncaught w |}.

(** The names in scope in the reading listener of the ambient light
    handler: the handler's declarations and the script's. *)
Definition ambientLight_scope : list string :=
  ["ambientLightPermission"; "buttonStart"; "buttonStop"; "message"; "ambientLight"]
  ++ script_scope.

(** The controls a sensor handler makes, as they stand after set-up. *)
Definition startButton (enabled : bool) : element :=
  {| tag := BUTTON; children := [TextNode "Start"]; disabled := negb enabled; value := "" |}.
Definition stopButton (enabled : bool) : element :=
  {| tag := BUTTON; children := [TextNode "Stop"]; disabled := negb enabled; value := "" |}.
Definition messageDiv (ns : list node) : element :=
  {| tag := DIV; children := ns; disabled := false; value := "" |}.

(** What a sensor handler leaves when it got past its checks. *)
Record set_up (h : host) (k : sensor_interface) (w : world) (c : controls) (w1 : world)
  : Prop := {
  su_present : has (window h) (interface_name k) = true;
  su_permissions : has (navigator h) "permissions" = true;
  su_granted : Forall (λ p, permission h p = Fulfilled "granted") (required_permissions k);
  su_start : buttonStart c = (length (elements w) + 0)%nat;
  su_stop : buttonStop c = (length (elements w) + 1)%nat;
  su_message : message c = (length (elements w) + 2)%nat;
  su_output : output w1 = (output w ++ [Child (buttonStart c); Child (buttonStop c);
                                       Child (message c)])%list;
  su_uncaught : uncaught w1 = uncaught w;
  su_constructed :
    match constructor h (interface_name k) with
    | None =>
        sensor c = Some (length (handles w))
        ∧ handles w1 = (handles w ++ [{| interface := interface_name k; activated := false |}])%list
        ∧ elements w1 = (elements w ++ [startButton true; stopButton false; messageDiv []])%list
    | Some e =>
        sensor c = None
        ∧ handles w1 = handles w
        ∧ elements w1 = (elements w ++
            [startButton false; stopButton false;
             messageDiv [TextNode (interface_name k +:+ " error: " +:+ e)]])%list
    end;
}.

(** The world with one element changed, one handle switched, one call
    logged: what the primitives of the monad do to it. *)
Definition upd (i : nat) (f : element → element) (w : world) : world :=
  match elements w !! i with
  | Some e =>
      {| output := output w; elements := <[i := f e]> (elements w); handles := handles w;
         calls := calls w; uncaught := uncaught w |}
  | None => w
  end.

Definition act (s : nat) (b : bool) (w : world) : world :=
  match handles w !! s with
  | Some x =>
      {| output := output w; elements := elements w;
         handles := <[s := {| interface := interface x; activated := b |}]> (handles w);
         calls := calls w; uncaught := uncaught w |}
  | None => w
  end.

Definition logged (c : call) (w : world) : world :=
  {| output := output w; elements := elements w; handles := handles w;
     calls := (calls w ++ [c])%list; uncaught := uncaught w |}.

(** The controls of a sensor handler are in place in a world: three
    distinct elements of the heap, the sensor (when there is one) in the
    heap of handles, Start disabled whenever the sensor runs, and both
    buttons disabled for good when there is no sensor. *)
Record wired (c : controls) (w : world) : Prop := {
  wired_start_stop : buttonStart c ≠ buttonStop c;
  wired_start_message : buttonStart c ≠ message c;
  wired_stop_message : buttonStop c ≠ message c;
  wired_start : is_Some (elements w !! buttonStart c);
  wired_stop : is_Some (elements w !! buttonStop c);
  wired_message : is_Some (elements w !! message c);
  wired_sensor : ∀ s, sensor c = Some s → is_Some (handles w !! s);
  wired_running :
    ∀ s, sensor c = Some s → is_activated w s = true → is_disabled w (buttonStart c) = true;
  wired_no_sensor :
    sensor c = None →
    is_disabled w (buttonStart c) = true ∧ is_disabled w (buttonStop c) = true;
}.

(** The world with one more handle. *)
Definition allocated (C : string) (b : bool) (w : world) : world :=
  {| output := output w; elements := elements w;
     handles := (handles w ++ [{| interface := C; activated := b |}])%list;
     calls := calls w; uncaught := uncaught w |}.

(** The Start Listening button of the idle-detection handler is in
    place in a world: an element of the heap, distinct from the two
    elements its listeners write to. *)
Record idle_wired (c : Idle.controls) (w : world) : Prop := {
  idle_detection_message : Idle.buttonDetection c ≠ Idle.message c;
  idle_detection_clock : Idle.buttonDetection c ≠ Idle.buttonClock c;
  idle_detection : is_Some (elements w !! Idle.buttonDetection c);
}.

(** ** Hosts and values to run the script on *)

(** An engine whose [Number::toString] prints nothing: enough where no
    number is printed. *)
Definition no_digits : float → string := λ _, "".

Definition no_connection : NetworkInformation :=
  {| type := None; effectiveType := None; downlink := None; downlinkMax := None |}.

(** A host with none of the capabilities. *)
Definition bare_host : host :=
  {| navigator := ∅; window := ∅; document := ∅; screen := ∅;
     fullscreenEnabled := false; connection := no_connection;
     permission := λ _, Fulfilled "prompt";
     constructor := λ _, None;
     global := λ _ _, Throw "TypeError" |}.

(** A host with the sensor interfaces, the idle detector, the
    permissions API and the wake lock, where every permission is granted
    but [denied]. *)
Definition sensor_host (denied : string) : host :=
  {| navigator := {[ "permissions"; "wakeLock" ]};
     window := {[ "Accelerometer"; "LinearAccelerationSensor"; "Gyroscope"; "GravitySensor";
                  "Magnetometer"; "AmbientLightSensor"; "AbsoluteOrientationSensor";
                  "RelativeOrientationSensor"; "IdleDetector" ]};
     document := ∅; screen := ∅;
     fullscreenEnabled := false; connection := no_connection;
     permission := λ name, if String.eqb name denied then Fulfilled "denied"
                           else Fulfilled "granted";
     constructor := λ _, None;
     global := λ _ _, Throw "TypeError" |}.

(** The same host with everything granted, where every constructor
    throws. *)
Definition throwing_host : host :=
  {| navigator := navigator (sensor_host ""); window := window (sensor_host "");
     document := ∅; screen := ∅;
     fullscreenEnabled := false; connection := no_connection;
     permission := permission (sensor_host "");
     constructor := λ _, Some "SecurityError";
     global := λ _ _, Throw "TypeError" |}.

(** A host with [screen.orientation] and no fullscreen. *)
Definition orientation_host : host :=
  {| navigator := ∅; window := ∅; document := ∅; screen := {[ "orientation" ]};
     fullscreenEnabled := false; connection := no_connection;
     permission := λ _, Fulfilled "prompt";
     constructor := λ _, None;
     global := λ _ _, Throw "TypeError" |}.

(** A host with notifications and a service worker, and nothing else. *)
Definition notification_host : host :=
  {| navigator := {[ "serviceWorker" ]}; window := {[ "Notification" ]}; document := ∅;
     screen := ∅;
     fullscreenEnabled := false; connection := no_connection;
     permission := λ _, Fulfilled "prompt";
     constructor := λ _, None;
     global := λ _ _, Throw "TypeError" |}.

(** The controls a sensor handler makes on a page that has none yet. *)
Definition first_controls : controls :=
  {| buttonStart := 0; buttonStop := 1; message := 2; sensor := Some 0 |}.

(** The controls the idle-detection handler makes on such a page. *)
Definition first_idle_controls : Idle.controls :=
  {| Idle.buttonPermission := 0; Idle.buttonDetection := 1; Idle.message := 2;
     Idle.buttonClock := 3 |}.

(** ** More of the script, event by event *)

(** A sensor's attributes hold what the reading listener of its handler
    reads: the three axes, or the quaternion.  (The ambient light
    listener reads no attribute of the sensor.) *)
Definition reading_complete (k : sensor_interface) (a : Sensor.attributes) : bool :=
  match k with
  | AbsoluteOrientationSensor | RelativeOrientationSensor =>
      bool_decide (is_Some (Sensor.quaternion a))
  | AmbientLightSensor => false
  | _ =>
      bool_decide (is_Some (Sensor.x a)) && bool_decide (is_Some (Sensor.y a))
      && bool_decide (is_Some (Sensor.z a))
  end.

(** The text before the error in the message of the [error] listener. *)
Definition failed_prefix (k : sensor_interface) : string :=
  interface_name k +:+ " failed: ".

(** An element is among the children of the output. *)
Definition attached (w : world) (i : nat) : bool :=
  bool_decide (Child i ∈ output w).

(** A click by the user: the button is in the output and enabled. *)
Definition user_click {A} (button : nat) (listener : js A) (w : world) : world :=
  if attached w button then click button listener w else w.

(** *** Screen wake lock (scripts.js, lines 563-592) *)

Inductive wakeLock_event :=
| click_Release
| release_promise (p : settled unit).

Definition wakeLock_step (c : WakeLock.controls) (w : world) (ev : wakeLock_event)
  : world :=
  match ev with
  | click_Release => user_click (WakeLock.button c) (button_onclick c) w
  | release_promise p => release_settled c p w
  end.

(** *** Page visibility (scripts.js, lines 405-434) *)

(** A run of [visibilitychange] events, each with the state of the
    document and the time, over the listeners on the document. *)
Definition visibility_events (number_to_string : float → string) (h : host)
    (listeners : list (option float)) (w : world) (evs : list (string * float))
  : list (option float) * world :=
  foldl (λ st ev, visibilitychange number_to_string h st.1 st.2 ev.1 ev.2) (listeners, w) evs.

(** The time of the last event that hid the page, after [before]. *)
Definition last_hidden (before : option float) (evs : list (string * float))
  : option float :=
  foldl (λ t ev, if String.eqb ev.1 "hidden" then Some ev.2 else t) before evs.

(** *** Geolocation (scripts.js, lines 622-683) *)

Module Geolocation.

Record controls := {
  buttonCurrentPosition : nat;
  buttonWatchPosition : nat;
  message : nat;
}.

Record coords := {
  latitude : float;
  longitude : float;
  accuracy : float;
}.

(** The requests made to [navigator.geolocation]. *)
Inductive request := getCurrentPosition | watchPosition.

(** The controls [handleGeolocationAPI] makes in a world: the next
    three elements of the heap. *)
Definition made (w : world) : controls :=
  {| buttonCurrentPosition := length (elements w) + 0;
     buttonWatchPosition := length (elements w) + 1;
     message := length (elements w) + 2 |}.

(** The success and error callbacks of [getCurrentPosition]. *)
Definition getCurrentPosition_success (number_to_string : float → string)
    (c : controls) (position : coords) : js unit :=
  log (console_log "Current Position:");;
  innerHTML (message c) ("
            <strong>Current Position:</strong>
            <br>Latitude: " +:+ number_to_string (latitude position) +:+ "
            <br>Longitude: " +:+ number_to_string (longitude position) +:+ "
            <br>More or less " +:+ number_to_string (accuracy position) +:+ " meters.
          ").

Definition getCurrentPosition_error (c : controls) : js unit :=
  log (console_log "Current Position Error:");;
  innerText (message c) "Geolocation failed to get the current position.".

(** The success and error callbacks of [watchPosition]. *)
Definition watchPosition_success (number_to_string : float → string)
    (c : controls) (position : coords) : js unit :=
  log (console_log "Watching Position:");;
  innerHTML (message c) ("
            <strong>Watching Position:</strong>
            <br>Latitude: " +:+ number_to_string (latitude position) +:+ "
            <br>Longitude: " +:+ number_to_string (longitude position) +:+ "
            <br>More or less " +:+ number_to_string (accuracy position) +:+ " meters.
          ").

Definition watchPosition_error (c : controls) : js unit :=
  log (console_log "Watch Position Error:");;
  innerText (message c) "Geolocation failed to watch position.".

(** The click listeners; each returns the request it makes. *)
Definition buttonCurrentPosition_onclick : js request :=
  mret getCurrentPosition.

Definition buttonWatchPosition_onclick (c : controls) : js request :=
  set_disabled (buttonCurrentPosition c) true;;
  set_disabled (buttonWatchPosition c) true;;
  mret watchPosition.

Inductive event :=
| click_Current_Position
| click_Watch_Position
| current_position (position : coords)
| current_position_error
| watched_position (position : coords)
| watched_position_error.

(** A click that makes a request: the world after the listener and the
    request, when the button is enabled. *)
Definition requesting (button : nat) (listener : js request)
    (st : world * list request) : world * list request :=
  if is_disabled st.1 button then st
  else
    match listener st.1 with
    | (Normal r, w') => (w', (st.2 ++ [r])%list)
    | (Throw e, w') => (report e w', st.2)
    end.

(** One event of the handler: the world and the requests made so far. *)
Definition step (number_to_string : float → string) (c : controls)
    (st : world * list request) (ev : event) : world * list request :=
  match ev with
  | click_Current_Position =>
      requesting (buttonCurrentPosition c) buttonCurrentPosition_onclick st
  | click_Watch_Position =>
      requesting (buttonWatchPosition c) (buttonWatchPosition_onclick c) st
  | current_position position =>
      (run_to_completion (getCurrentPosition_success number_to_string c position) st.1, st.2)
  | current_position_error =>
      (run_to_completion (getCurrentPosition_error c) st.1, st.2)
  | watched_position position =>
      (run_to_completion (watchPosition_success number_to_string c position) st.1, st.2)
  | watched_position_error =>
      (run_to_completion (watchPosition_error c) st.1, st.2)
  end.

End Geolocation.

(** *** The permissions probe (scripts.js, lines 722-755) *)

Module Permission.

(** A [PermissionStatus] as the listeners read it. *)
Record status := {
  name : option string;
  state : string;
}.

(** [name || selectedOption]. *)
Definition name_or (name : option string) (selectedOption : string) : string :=
  match name with
  | Some v => if String.eqb v "" then selectedOption else v
  | None => selectedOption
  end.

(** The message [handlePermissionsAPI] makes in a world: after the
    select and its 27 options. *)
Definition message_made (w : world) : nat := length (elements w) + 28.

(** The listener of the select: the query for the selected value. *)
Definition select_onchange (selectedOption : string) : js unit :=
  log (permissions_query selectedOption).

(** The reaction to the query's promise; [permissionStatus] is the
    handle of the status the platform hands over. *)
Definition query_then (message : nat) (selectedOption : string)
    (permissionStatus : nat) (s : status) : js unit :=
  log (console_log "Status:");;
  innerHTML message ("
            State for <b>" +:+ name_or (name s) selectedOption +:+ "</b>: " +:+ state s +:+ "
          ");;
  log (addEventListener (OnHandle permissionStatus) "change").

(** The [change] listener of the status. *)
Definition permissionStatus_onchange (message : nat) (selectedOption : string)
    (this : status) : js unit :=
  innerHTML_append message ("
              <div>Changed state for <b>" +:+ name_or (name this) selectedOption +:+ "</b>: " +:+ state this +:+ "</div>
            ").

Inductive event :=
| select_change (selectedOption : string)
| query_settled (selectedOption : string) (p : settled status)
| status_change (selectedOption : string) (this : status).

Definition step (message : nat) (w : world) (ev : event) : world :=
  match ev with
  | select_change selectedOption =>
      run_to_completion (select_onchange selectedOption) w
  | query_settled selectedOption p =>
      run_to_completion
        (then_ p (λ s, permissionStatus ← allocate "PermissionStatus" false;
                       query_then message selectedOption permissionStatus s)) w
  | status_change selectedOption this =>
      run_to_completion (permissionStatus_onchange message selectedOption this) w
  end.

End Permission.

(** *** The service worker's requests *)

(** The requests a worker passed to [fetch], in order. *)
Definition fetched {Request : Type} (cs : list (ServiceWorker.call Request))
  : list Request :=
  omap (λ c, match c with ServiceWorker.fetch _ request => Some request | _ => None end) cs.

(** The calls of [respondWith] among some calls. *)
Definition responses {Request : Type} (cs : list (ServiceWorker.call Request)) : nat :=
  length (List.filter (λ c, match c with ServiceWorker.respondWith => true | _ => false end) cs).

(** The requests of the fetch events among some events, in order. *)
Definition requests {Request Client : Type}
    (evs : list (ServiceWorker.event Request Client)) : list Request :=
  omap (λ ev, match ev with ServiceWorker.fetch_event _ _ request => Some request | _ => None end)
       evs.

(** *** Idle detection *)

(** The elements of the idle-detection handler are in place in a world:
    four distinct elements of the heap. *)
Record idle_panel (c : Idle.controls) (w : world) : Prop := {
  idle_panel_permission : is_Some (elements w !! Idle.buttonPermission c);
  idle_panel_detection : is_Some (elements w !! Idle.buttonDetection c);
  idle_panel_message : is_Some (elements w !! Idle.message c);
  idle_panel_clock : is_Some (elements w !! Idle.buttonClock c);
  idle_panel_message_permission : Idle.message c ≠ Idle.buttonPermission c;
  idle_panel_message_detection : Idle.message c ≠ Idle.buttonDetection c;
  idle_panel_message_clock : Idle.message c ≠ Idle.buttonClock c;
}.

(** The buttons of a sensor handler show the state of its sensor: Start
    is disabled exactly while the sensor runs, Stop exactly while it
    does not. *)
Record mirrors (c : controls) (s : nat) (w : world) : Prop := {
  mirrors_start : is_disabled w (buttonStart c) = is_activated w s;
  mirrors_stop : is_disabled w (buttonStop c) = negb (is_activated w s);
}.

(** *** What a handler adds *)

(** A node that is no element made before [w]. *)
Definition fresh (w : world) (n : node) : Prop :=
  match n with
  | Child i => (length (elements w) ≤ i)%nat
  | _ => True
  end.

(** [w'] is [w] with more in it: the elements, the platform objects,
    the calls and the uncaught errors of [w] are still there, unchanged
    and in place, no sensor or detector was started or stopped, and the
    output has only been appended to, or replaced, with nodes that are
    no elements of [w]. *)
Record extends (w w' : world) : Prop := {
  extends_elements : elements w `prefix_of` elements w';
  extends_handles : handles w `prefix_of` handles w';
  extends_calls : calls w `prefix_of` calls w';
  extends_uncaught : uncaught w `prefix_of` uncaught w';
  extends_quiet : starts_and_stops (calls_since w w') = [];
  extends_output :
    ∃ ns, (output w' = (output w ++ ns)%list ∨ output w' = ns) ∧ Forall (fresh w) ns;
}.

(** The elements [handlePermissionsAPI] makes. *)
Definition option_element (val : string) : element :=
  {| tag := OPTION; children := text_nodes val; disabled := false; value := val |}.
Definition selectElement (first : nat) : element :=
  {| tag := SELECT; children := map Child (seq first 27); disabled := false; value := "" |}.
Definition placeholder : element :=
  {| tag := OPTION; children := [TextNode "- Select -"]; disabled := false; value := "" |}.

(** A host like [sensor_host] where the permission names are not known
    to the browser: every query is rejected. *)
Definition rejecting_host : host :=
  {| navigator := navigator (sensor_host ""); window := window (sensor_host "");
     document := ∅; screen := ∅;
     fullscreenEnabled := false; connection := no_connection;
     permission := λ _, Rejected "TypeError";
     constructor := λ _, None;
     global := λ _ _, Throw "TypeError" |}.

(** *** The idle-detection panel *)

(** What no idle event changes: the panel stays in place, and the two
    buttons no listener disables stay enabled. *)
Record idle_kept (c : Idle.controls) (w : world) : Prop := {
  idle_kept_wired : idle_wired c w;
  idle_kept_panel : idle_panel c w;
  idle_kept_distinct : Idle.buttonPermission c ≠ Idle.buttonDetection c;
  idle_kept_permission : is_disabled w (Idle.buttonPermission c) = false;
  idle_kept_clock : is_disabled w (Idle.buttonClock c) = false;
}.

(** *** The geolocation panel *)

(** The [watchPosition] requests among some requests. *)
Definition watch_requests (rs : list Geolocation.request) : list Geolocation.request :=
  List.filter (λ r, match r with Geolocation.watchPosition => true | _ => false end) rs.

(** What no geolocation event changes: the three elements stay in
    place, the two buttons are enabled or disabled together, and they
    are disabled exactly when the one [watchPosition] request has been
    made. *)
Record geolocation_kept (c : Geolocation.controls) (st : world * list Geolocation.request)
  : Prop := {
  geolocation_current : is_Some (elements st.1 !! Geolocation.buttonCurrentPosition c);
  geolocation_watch : is_Some (elements st.1 !! Geolocation.buttonWatchPosition c);
  geolocation_message : is_Some (elements st.1 !! Geolocation.message c);
  geolocation_current_watch :
    Geolocation.buttonCurrentPosition c ≠ Geolocation.buttonWatchPosition c;
  geolocation_current_message :
    Geolocation.buttonCurrentPosition c ≠ Geolocation.message c;
  geolocation_watch_message :
    Geolocation.buttonWatchPosition c ≠ Geolocation.message c;
  geolocation_together :
    is_disabled st.1 (Geolocation.buttonCurrentPosition c)
    = is_disabled st.1 (Geolocation.buttonWatchPosition c);
  geolocation_watching :
    watch_requests st.2
    = if is_disabled st.1 (Geolocation.buttonWatchPosition c)
      then [Geolocation.watchPosition] else [];
}.

(** A host with geolocation and the permissions API, and nothing else. *)
Definition navigator_host : host :=
  {| navigator := {[ "geolocation"; "permissions" ]}; window := ∅; document := ∅; screen := ∅;
     fullscreenEnabled := false; connection := no_connection;
     permission := λ _, Fulfilled "prompt";
     constructor := λ _, None;
     global := λ _ _, Throw "TypeError" |}.

(** *** What a reading shows *)

(** The sensors whose reading listener reads the three axes. *)
Definition axes (k : sensor_interface) : bool :=
  match k with
  | Accelerometer | LinearAccelerationSensor | Gyroscope | GravitySensor | Magnetometer => true
  | _ => false
  end.

(** The sensors whose reading listener reads the quaternion. *)
Definition orientation (k : sensor_interface) : bool :=
  match k with
  | AbsoluteOrientationSensor | RelativeOrientationSensor => true
  | _ => false
  end.

(** *** Listeners that ask the platform for something *)

(** A click whose listener returns the request it makes: the world
    after the listener and the requests made so far, when the button is
    enabled. *)
Definition asking {R : Type} (button : nat) (listener : js R) (st : world * list R)
  : world * list R :=
  if is_disabled st.1 button then st
  else
    match listener st.1 with
    | (Normal r, w') => (w', (st.2 ++ [r])%list)
    | (Throw e, w') => (report e w', st.2)
    end.

(** Calling what is not there; the wording is V8's. *)
Definition not_a_function (callee : string) : string :=
  "TypeError: " +:+ callee +:+ " is not a function".

(** *** Badging (scripts.js, lines 350-374) *)

Module Badging.

Record controls := {
  buttonSetAppBadge : nat;
  buttonClearAppBadge : nat;
  message : nat;
}.

Inductive request := setAppBadge (contents : nat) | clearAppBadge.

(** The controls [handleBadgingAPI] makes in a world. *)
Definition made (w : world) : controls :=
  {| buttonSetAppBadge := length (elements w) + 0;
     buttonClearAppBadge := length (elements w) + 1;
     message := length (elements w) + 2 |}.

(** [navigator.name(..)]: the request, where the navigator has the
    method. *)
Definition navigator_method (h : host) (name : string) (r : request) : js request :=
  if has (navigator h) name then mret r
  else throw (not_a_function ("navigator." +:+ name)).

Definition buttonSetAppBadge_onclick (h : host) : js request :=
  navigator_method h "setAppBadge" (setAppBadge 12).

Definition buttonClearAppBadge_onclick (h : host) : js request :=
  navigator_method h "clearAppBadge" clearAppBadge.

(** The reactions to the two promises. *)
Definition setAppBadge_then (c : controls) : js unit :=
  innerText (message c) "Badge set to the app.".

Definition clearAppBadge_then (c : controls) : js unit :=
  innerText (message c) "Badge cleared from the app.".

Inductive event :=
| click_Set_App_Badge
| click_Clear_App_Badge
| setAppBadge_settled (p : settled unit)
| clearAppBadge_settled (p : settled unit).

Definition step (h : host) (c : controls) (st : world * list request) (ev : event)
  : world * list request :=
  match ev with
  | click_Set_App_Badge => asking (buttonSetAppBadge c) (buttonSetAppBadge_onclick h) st
  | click_Clear_App_Badge => asking (buttonClearAppBadge c) (buttonClearAppBadge_onclick h) st
  | setAppBadge_settled p =>
      (run_to_completion (then_ p (λ _, setAppBadge_then c)) st.1, st.2)
  | clearAppBadge_settled p =>
      (run_to_completion (then_ p (λ _, clearAppBadge_then c)) st.1, st.2)
  end.

(** What no event of the handler changes: the message stays in place,
    apart from the two buttons, which stay enabled. *)
Record kept (c : controls) (w : world) : Prop := {
  kept_message : is_Some (elements w !! message c);
  kept_set_message : buttonSetAppBadge c ≠ message c;
  kept_clear_message : buttonClearAppBadge c ≠ message c;
  kept_set : is_disabled w (buttonSetAppBadge c) = false;
  kept_clear : is_disabled w (buttonClearAppBadge c) = false;
}.

End Badging.

(** *** Locking the screen orientation (scripts.js, lines 241-274) *)

Module Orientation.

Record controls := {
  buttonLockPortrait : nat;
  buttonLockLandscape : nat;
  buttonUnlock : nat;
  message : nat;
}.

Inductive request := lock (orientation : string) | unlock.

(** The check of [handleFullscreenAPI], which makes two elements when
    it passes. *)
Definition fullscreen_available (h : host) : bool :=
  has (document h) "fullscreenElement" && has (document h) "exitFullscreen"
  && fullscreenEnabled h.

(** The controls [handleScreenOrientationAPI] makes in a world, after
    those of [handleFullscreenAPI]. *)
Definition made (h : host) (w : world) : controls :=
  let n := (length (elements w) + (if fullscreen_available h then 2 else 0))%nat in
  {| buttonLockPortrait := n + 0; buttonLockLandscape := n + 1; buttonUnlock := n + 2;
     message := n + 3 |}.

(** [lockOrientation(orientation)], and the two reactions to its
    promise; [type] is [screen.orientation.type] once locked. *)
Definition lockOrientation (orientation : string) : js request :=
  mret (lock orientation).

Definition lock_then (c : controls) (type : string) : js unit :=
  innerText (message c) ("Locked to " +:+ type).

Definition lock_catch (c : controls) (error : string) : js unit :=
  innerText (message c) ("Lock error: " +:+ error).

Definition buttonUnlock_onclick (c : controls) : js request :=
  innerHTML (message c) "Orientation unlocked";;
  mret unlock.

Inductive event :=
| click_Lock_Portrait
| click_Lock_Landscape
| click_Unlock
| lock_settled (p : settled string).

Definition step (c : controls) (st : world * list request) (ev : event)
  : world * list request :=
  match ev with
  | click_Lock_Portrait => asking (buttonLockPortrait c) (lockOrientation "portrait") st
  | click_Lock_Landscape => asking (buttonLockLandscape c) (lockOrientation "landscape") st
  | click_Unlock => asking (buttonUnlock c) (buttonUnlock_onclick c) st
  | lock_settled p =>
      (run_to_completion (try_catch (then_ p (lock_then c)) (lock_catch c)) st.1, st.2)
  end.

(** What no event of the handler changes: the message stays in place,
    apart from the Unlock button, which stays enabled. *)
Record kept (c : controls) (w : world) : Prop := {
  kept_message : is_Some (elements w !! message c);
  kept_unlock_message : buttonUnlock c ≠ message c;
  kept_unlock : is_disabled w (buttonUnlock c) = false;
}.

End Orientation.

(** A host whose navigator has [setClientBadge] and no [setAppBadge]. *)
Definition client_badge_host : host :=
  {| navigator := {[ "setClientBadge" ]}; window := ∅; document := ∅; screen := ∅;
     fullscreenEnabled := false; connection := no_connection;
     permission := λ _, Fulfilled "prompt";
     constructor := λ _, None;
     global := λ _ _, Throw "TypeError" |}.

(** * Properties *)

Arguments has : simpl never.
Arguments String.eqb !s1 !s2 : simpl nomatch.
Arguments update_element : simpl never.
Arguments createElement : simpl never.
Arguments set_activated : simpl never.

(** ** Running handler code *)

Ltac js_run := cbv [mbind mret js_bind js_ret]; cbn.

Lemma createElement_framed t o es l hs cs u :
  createElement t {| output := o; elements := es ++ l; handles := hs; calls := cs; uncaught := u |}
  = (Normal (length es + length l)%nat,
     {| output := o;
        elements := es ++ (l ++ [{| tag := t; children := []; disabled := false; value := "" |}]);
        handles := hs; calls := cs; uncaught := u |}).
Proof.
  unfold createElement, set_elements, modify, gets. js_run.
  rewrite length_app, <- app_assoc. reflexivity.
Qed.

Lemma update_element_framed k f e o es l hs cs u :
  l !! k = Some e →
  update_element (length es + k) f
    {| output := o; elements := es ++ l; handles := hs; calls := cs; uncaught := u |}
  = (Normal tt,
     {| output := o; elements := es ++ <[k := f e]> l; handles := hs; calls := cs; uncaught := u |}).
Proof.
  intros H. unfold update_element, set_elements, modify, gets. js_run.
  rewrite lookup_app_r by lia.
  replace (length es + k - length es)%nat with k by lia. rewrite H.
  js_run. rewrite insert_app_r. reflexivity.
Qed.

Ltac js_unfold :=
  cbv [mbind mret js_bind js_ret output_appendChild output_innerText output_innerHTML
       set_output gets modify log throw try_catch await then_ member of_completion
       innerText innerHTML innerHTML_append set_children set_disabled set_value appendChild
       query construct allocate set_handles].

Ltac js_step :=
  repeat first
    [ rewrite createElement_framed
    | erewrite update_element_framed by reflexivity
    | progress js_unfold
    | progress cbn ].

Lemma helper_elements_run o es hs cs u :
  let n := length es in
  helper_elements {| output := o; elements := es; handles := hs; calls := cs; uncaught := u |}
  = (Normal (n + 0, n + 1, n + 2)%nat,
     {| output := o ++ [Child (n + 0); Child (n + 1); Child (n + 2)];
        elements := es ++ [startButton false; stopButton false; messageDiv []];
        handles := hs; calls := cs; uncaught := u |}).
Proof.
  intros n. subst n. rewrite <- (app_nil_r es) at 1.
  unfold helper_elements, innerText, set_children, set_disabled.
  cbv [mbind mret js_bind js_ret].
  js_step. rewrite <- !app_assoc. reflexivity.
Qed.

Ltac check_presence :=
  match goal with
  | |- context [has ?o ?n] =>
      let E := fresh "Hhas" in destruct (has o n) eqn:E; cbn; [|discriminate]
  end.

Ltac check_permission h :=
  match goal with
  | |- context [permission h ?p] =>
      let E := fresh "Hperm" in
      let st := fresh "st" in
      destruct (permission h p) as [st|?] eqn:E; cbn; [|discriminate];
      destruct (String.eqb_spec st "granted"); cbn; [subst st|discriminate]
  end.

Lemma sensor_handler_set_up h k w c w1 :
  sensor_handler h k w = (Normal (Some c), w1) → set_up h k w c w1.
Proof.
  destruct w as [o es hs cs u].
  destruct k; cbn [sensor_handler];
    unfold handleAccelerometer, handleLinearAccelerationSensor, handleGyroscope,
      handleGravitySensor, handleMagnetometer, handleAmbientLightSensor,
      handleAbsoluteOrientationSensor, handleRelativeOrientationSensor;
    js_unfold; cbn;
    do 2 check_presence;
    repeat check_permission h;
    rewrite helper_elements_run;
    cbn [interface_name];
    (destruct (constructor h _) as [e|] eqn:Hc);
    js_step;
    intros [= <- <-];
    (split; cbn; rewrite ?Hc; cbn; rewrite <- ?app_assoc; auto;
     repeat constructor; assumption).
Qed.

Ltac unfold_handlers :=
  unfold handleAccelerometer, handleLinearAccelerationSensor, handleGyroscope,
    handleGravitySensor, handleMagnetometer, handleAmbientLightSensor,
    handleAbsoluteOrientationSensor, handleRelativeOrientationSensor.

(* decide the next permission in goal, keeping hypotheses in step *)
Ltac next_permission h :=
  match goal with
  | |- context [permission h ?p] =>
      let E := fresh "Hperm" in
      let st := fresh "st" in
      destruct (permission h p) as [st|?] eqn:E; cbn;
      [ let Q := fresh "Hst" in
        destruct (String.eqb st "granted") eqn:Q; cbn;
        [ apply String.eqb_eq in Q; subst st | apply String.eqb_neq in Q ]
      | ]
  end.

Ltac not_in_list := apply (proj1 (bool_decide_eq_false _)); vm_compute; reflexivity.
Ltac in_list := apply bool_decide_unpack; vm_compute; exact I.

Lemma switch_tag f : switch (tag_of f) clauses = [f].
Proof. destruct f as [| | | | | | | | | | |k]; try reflexivity. destruct k; reflexivity. Qed.

Lemma change_invokes nts h f w :
  change nts h (tag_of f) w = run_to_completion (invoke nts h f) (cleared w).
Proof.
  unfold change, featureSelector_onchange. rewrite switch_tag.
  unfold run_to_completion, cleared. cbn [for_of]. js_unfold. cbn.
  destruct (invoke nts h f _) as [[[]|e] w']; reflexivity.
Qed.


Lemma switch_at_most_one v : (length (switch v clauses) ≤ 1)%nat.
Proof.
  unfold clauses. cbn [switch].
  repeat match goal with
  | |- context [String.eqb v ?l] => destruct (String.eqb v l); [cbn; lia|]
  end.
  cbn; lia.
Qed.



Lemma invoke_unsupported nts h f msg w :
  unsupported_message h f = Some msg →
  ∃ w', invoke nts h f w = (Normal tt, w')
    ∧ output w' = [TextNode msg]
    ∧ elements w' = elements w
    ∧ handles w' = handles w
    ∧ uncaught w' = uncaught w.
Proof.
  intros H. destruct w as [o es hs cs u].
  destruct f as [| | | | | | | | | | |k]; [..|destruct k];
    cbn [unsupported_message interface_name invoke sensor_handler] in *;
    unfold handleBatteryStatusAPI, handleNetworkInformation, handleFullscreenAPI,
      handleScreenOrientationAPI, handleFullscreenAPI, handleVibrationAPI, handleBadgingAPI,
      handlePageVisibility, handleIdleDetectionAPI, handleScreenWakeLockAPI,
      handleGeolocationAPI, handlePermissionsAPI, async, run_to_completion;
    unfold_handlers; js_unfold;
    repeat match type of H with
    | context [has ?o ?n] =>
        let E := fresh "E" in destruct (has o n) eqn:E; rewrite ?E in *; cbn in H
    | context [fullscreenEnabled h] =>
        let E := fresh "E" in destruct (fullscreenEnabled h) eqn:E; rewrite ?E in *; cbn in H
    end;
    try discriminate H;
    injection H as <-;
    cbn; eexists; repeat split.
Qed.

(** ** The world under the primitives *)

Lemma update_element_run i f w : update_element i f w = (Normal tt, upd i f w).
Proof.
  unfold update_element, upd, set_elements, modify, gets. js_run.
  destruct (elements w !! i); [reflexivity|]. by destruct w.
Qed.

Lemma set_activated_run s b w : set_activated s b w = (Normal tt, act s b w).
Proof.
  unfold set_activated, act, set_handles, modify, gets. js_run.
  destruct (handles w !! s); [reflexivity|]. by destruct w.
Qed.

Lemma log_run c w : log c w = (Normal tt, logged c w).
Proof. reflexivity. Qed.

Lemma lookup_upd i f j w :
  elements (upd i f w) !! j
  = if decide (i = j) then f <$> (elements w !! i) else elements w !! j.
Proof.
  unfold upd. destruct (elements w !! i) as [e|] eqn:E; cbn.
  - destruct (decide (i = j)) as [<-|Hne].
    + apply list_lookup_insert_eq. by eapply lookup_lt_Some.
    + by apply list_lookup_insert_ne.
  - destruct (decide (i = j)) as [<-|Hne]; [by rewrite E|reflexivity].
Qed.

Lemma is_disabled_upd i f j w :
  is_disabled (upd i f w) j
  = if decide (i = j)
    then match elements w !! i with Some e => disabled (f e) | None => false end
    else is_disabled w j.
Proof.
  unfold is_disabled. rewrite lookup_upd.
  destruct (decide (i = j)); [|reflexivity]. by destruct (elements w !! i).
Qed.

Lemma children_of_upd i f j w :
  children_of (upd i f w) j
  = if decide (i = j)
    then match elements w !! i with Some e => children (f e) | None => [] end
    else children_of w j.
Proof.
  unfold children_of. rewrite lookup_upd.
  destruct (decide (i = j)); [|reflexivity]. by destruct (elements w !! i).
Qed.

Lemma is_activated_upd i f s w : is_activated (upd i f w) s = is_activated w s.
Proof. unfold upd. by destruct (elements w !! i). Qed.

Lemma uncaught_upd i f w : uncaught (upd i f w) = uncaught w.
Proof. unfold upd. by destruct (elements w !! i). Qed.

Lemma calls_upd i f w : calls (upd i f w) = calls w.
Proof. unfold upd. by destruct (elements w !! i). Qed.

Lemma lookup_act s b j w : elements (act s b w) !! j = elements w !! j.
Proof. unfold act. by destruct (handles w !! s). Qed.

Lemma is_disabled_act s b j w : is_disabled (act s b w) j = is_disabled w j.
Proof. unfold is_disabled. by rewrite lookup_act. Qed.

Lemma children_of_act s b j w : children_of (act s b w) j = children_of w j.
Proof. unfold children_of. by rewrite lookup_act. Qed.

Lemma uncaught_act s b w : uncaught (act s b w) = uncaught w.
Proof. unfold act. by destruct (handles w !! s). Qed.

Lemma calls_act s b w : calls (act s b w) = calls w.
Proof. unfold act. by destruct (handles w !! s). Qed.

Lemma is_activated_act s b s' w :
  is_activated (act s b w) s'
  = if decide (s = s')
    then match handles w !! s with Some _ => b | None => false end
    else is_activated w s'.
Proof.
  unfold is_activated, act. destruct (handles w !! s) as [x|] eqn:E; cbn.
  - destruct (decide (s = s')) as [<-|Hne].
    + rewrite list_lookup_insert_eq; [reflexivity|]. by eapply lookup_lt_Some.
    + by rewrite list_lookup_insert_ne.
  - destruct (decide (s = s')) as [<-|Hne]; [by rewrite E|reflexivity].
Qed.

Lemma handles_upd i f w : handles (upd i f w) = handles w.
Proof. unfold upd. by destruct (elements w !! i). Qed.

Lemma lookup_handles_act s b j w :
  handles (act s b w) !! j
  = if decide (s = j)
    then (λ x, {| interface := interface x; activated := b |}) <$> (handles w !! s)
    else handles w !! j.
Proof.
  unfold act. destruct (handles w !! s) as [x|] eqn:E; cbn.
  - destruct (decide (s = j)) as [<-|Hne].
    + apply list_lookup_insert_eq. by eapply lookup_lt_Some.
    + by apply list_lookup_insert_ne.
  - destruct (decide (s = j)) as [<-|Hne]; [by rewrite E|reflexivity].
Qed.

Lemma handles_logged c w : handles (logged c w) = handles w.
Proof. reflexivity. Qed.
Lemma handles_report e w : handles (report e w) = handles w.
Proof. reflexivity. Qed.

Lemma lookup_logged c j w : elements (logged c w) !! j = elements w !! j.
Proof. reflexivity. Qed.
Lemma is_disabled_logged c j w : is_disabled (logged c w) j = is_disabled w j.
Proof. reflexivity. Qed.
Lemma children_of_logged c j w : children_of (logged c w) j = children_of w j.
Proof. reflexivity. Qed.
Lemma is_activated_logged c s w : is_activated (logged c w) s = is_activated w s.
Proof. reflexivity. Qed.
Lemma uncaught_logged c w : uncaught (logged c w) = uncaught w.
Proof. reflexivity. Qed.
Lemma lookup_report e j w : elements (report e w) !! j = elements w !! j.
Proof. reflexivity. Qed.
Lemma is_disabled_report e j w : is_disabled (report e w) j = is_disabled w j.
Proof. reflexivity. Qed.
Lemma children_of_report e j w : children_of (report e w) j = children_of w j.
Proof. reflexivity. Qed.
Lemma is_activated_report e s w : is_activated (report e w) s = is_activated w s.
Proof. reflexivity. Qed.

Create Rewrite HintDb world.
#[local] Hint Rewrite lookup_upd is_disabled_upd children_of_upd is_activated_upd uncaught_upd
  calls_upd lookup_act is_disabled_act children_of_act uncaught_act calls_act is_activated_act
  lookup_logged is_disabled_logged children_of_logged is_activated_logged uncaught_logged
  lookup_report is_disabled_report children_of_report is_activated_report
  handles_upd lookup_handles_act handles_logged handles_report : world.

Arguments upd : simpl never.
Arguments act : simpl never.
Arguments logged : simpl never.
Arguments report : simpl never.
Arguments is_disabled : simpl never.
Arguments is_activated : simpl never.
Arguments children_of : simpl never.

Arguments allocated : simpl never.

Lemma allocate_run C b w : allocate C b w = (Normal (length (handles w)), allocated C b w).
Proof. reflexivity. Qed.

Lemma lookup_allocated C b j w : elements (allocated C b w) !! j = elements w !! j.
Proof. reflexivity. Qed.
Lemma is_disabled_allocated C b j w : is_disabled (allocated C b w) j = is_disabled w j.
Proof. reflexivity. Qed.

#[local] Hint Rewrite lookup_allocated is_disabled_allocated : world.

Ltac js_world :=
  repeat first
    [ rewrite update_element_run
    | rewrite set_activated_run
    | rewrite log_run
    | rewrite allocate_run
    | progress cbv [mbind mret js_bind js_ret throw try_catch await then_ member of_completion
                    innerText innerHTML innerHTML_append set_children set_disabled construct]
    | progress cbn ].

(** A world that differs from [w] in the message element and the
    uncaught errors at most keeps the controls in place. *)
Ltac wired_solve :=
  match goal with
  | H : wired ?c ?w |- wired ?c _ =>
      destruct H as [Hss Hsm Hpm [eS HeS] [eP HeP] [eM HeM] Hsen Hrun Hnone];
      split; intros; cbn in *;
      autorewrite with world in *;
      repeat (case_decide; try congruence);
      rewrite ?HeS, ?HeP, ?HeM; cbn;
      try congruence; eauto;
      try (apply fmap_is_Some; subst; eauto);
      try (repeat case_match; congruence)
  end.

Lemma wired_upd_message c f w : wired c w → wired c (upd (message c) f w).
Proof.
  intros H. wired_solve.
Qed.

Lemma wired_report c e w : wired c w → wired c (report e w).
Proof. intros H. wired_solve. Qed.

Lemma wired_logged c x w : wired c w → wired c (logged x w).
Proof. intros H. wired_solve. Qed.

(** Start: what the click does to a world where the controls are in place. *)
Lemma wired_click_Start c outcome w :
  wired c w → wired c (click (buttonStart c) (buttonStart_onclick c outcome) w).
Proof.
  intros H. unfold click. destruct (is_disabled w (buttonStart c)) eqn:D; [exact H|].
  unfold buttonStart_onclick, run_to_completion, Sensor_start.
  destruct (sensor c) as [s|] eqn:Hs; [destruct outcome as [e|]|]; js_world.
  all: wired_solve.
Qed.

Lemma wired_click_Stop c outcome w :
  wired c w → wired c (click (buttonStop c) (buttonStop_onclick c outcome) w).
Proof.
  intros H. unfold click. destruct (is_disabled w (buttonStop c)) eqn:D; [exact H|].
  unfold buttonStop_onclick, run_to_completion, Sensor_stop.
  destruct (sensor c) as [s|] eqn:Hs; [destruct outcome as [e|]|]; js_world.
  all: wired_solve.
Qed.

Lemma wired_reading nts h k c a w :
  wired c w → wired c (run_to_completion (onreading nts h k c a) w).
Proof.
  intros H. unfold run_to_completion.
  destruct k; cbn [onreading];
    unfold accelerometer_onreading, linearAcceleration_onreading, gyroscope_onreading,
      gravity_onreading, magnetometer_onreading, ambientLight_onreading,
      absoluteOrientation_onreading, relativeOrientation_onreading, free_identifier;
    js_world;
    repeat (case_match; rewrite ?update_element_run in *; simplify_eq; js_world);
    first [ apply wired_upd_message; exact H | apply wired_report; exact H ].
Qed.

Lemma wired_error k c s e w :
  sensor c = Some s →
  wired c w → wired c (run_to_completion (set_activated s false;; onerror k c e) w).
Proof.
  intros Hs H. unfold run_to_completion.
  destruct k; cbn [onerror];
    unfold accelerometer_onerror, linearAcceleration_onerror, gyroscope_onerror,
      gravity_onerror, magnetometer_onerror, ambientLight_onerror,
      absoluteOrientation_onerror, relativeOrientation_onerror;
    js_world; wired_solve.
Qed.

Lemma wired_step nts h k c w ev :
  wired c w → wired c (sensor_step nts h k c w ev).
Proof.
  intros H. destruct ev as [outcome|outcome|a|e]; cbn [sensor_step].
  - by apply wired_click_Start.
  - by apply wired_click_Stop.
  - destruct (sensor c); [by apply wired_reading|exact H].
  - destruct (sensor c) eqn:Hs; [by eapply wired_error|exact H].
Qed.

Lemma wired_steps nts h k c evs w :
  wired c w → wired c (foldl (sensor_step nts h k c) w evs).
Proof.
  revert w. induction evs as [|ev evs IH]; intros w H; cbn [foldl]; [exact H|].
  apply IH, wired_step, H.
Qed.

Lemma set_up_wired h k w c w1 : set_up h k w c w1 → wired c w1.
Proof.
  intros [_ _ _ Hs Hp Hm _ _ Hc].
  assert (L : ∀ l j, (j < length l)%nat →
              ((elements w ++ l)%list) !! (length (elements w) + j)%nat = l !! j).
  { intros l j _. rewrite lookup_app_r by lia. f_equal. lia. }
  destruct (constructor h (interface_name k)) as [e|];
    destruct Hc as (Hsens & Hh & He);
    (split; rewrite ?Hs, ?Hp, ?Hm; unfold is_disabled, is_activated;
     rewrite ?He, ?Hh, ?Hs, ?Hp, ?Hm, ?L by (cbn; lia); cbn; eauto; try lia;
     try congruence).
  - intros s Hs'. rewrite Hsens in Hs'. injection Hs' as <-.
    rewrite lookup_app_r by lia. rewrite Nat.sub_diag. cbn. eauto.
  - intros s Hs'. rewrite Hsens in Hs'. injection Hs' as <-.
    rewrite lookup_app_r by lia. rewrite Nat.sub_diag. cbn. discriminate.
Qed.

(** ** Start and Stop *)

Lemma click_Start_uncaught c outcome w :
  uncaught (click (buttonStart c) (buttonStart_onclick c outcome) w) = uncaught w.
Proof.
  unfold click. destruct (is_disabled w (buttonStart c)); [reflexivity|].
  unfold buttonStart_onclick, run_to_completion, Sensor_start.
  destruct (sensor c) as [s|]; [destruct outcome as [e|]|]; js_world;
    by autorewrite with world.
Qed.

Lemma click_Stop_uncaught c outcome w :
  uncaught (click (buttonStop c) (buttonStop_onclick c outcome) w) = uncaught w.
Proof.
  unfold click. destruct (is_disabled w (buttonStop c)); [reflexivity|].
  unfold buttonStop_onclick, run_to_completion, Sensor_stop.
  destruct (sensor c) as [s|]; [destruct outcome as [e|]|]; js_world;
    by autorewrite with world.
Qed.

Lemma click_Start_throws c e w :
  wired c w → is_disabled w (buttonStart c) = false →
  children_of (click (buttonStart c) (buttonStart_onclick c (Some e)) w) (message c)
  = [TextNode ("It was not possible to start the sensor: " +:+ e)].
Proof.
  intros H D. unfold click. rewrite D.
  destruct (sensor c) as [s|] eqn:Hs.
  - unfold buttonStart_onclick, run_to_completion, Sensor_start. rewrite Hs. js_world.
    autorewrite with world. case_decide; [|congruence].
    destruct H as [_ _ _ _ _ [eM ->] _ _ _]. reflexivity.
  - destruct H as [_ _ _ _ _ _ _ _ Hnone]. destruct (Hnone Hs). congruence.
Qed.

Lemma click_Stop_throws c e w :
  wired c w → is_disabled w (buttonStop c) = false →
  children_of (click (buttonStop c) (buttonStop_onclick c (Some e)) w) (message c)
  = [TextNode ("It was not possible to stop the sensor: " +:+ e)].
Proof.
  intros H D. unfold click. rewrite D.
  destruct (sensor c) as [s|] eqn:Hs.
  - unfold buttonStop_onclick, run_to_completion, Sensor_stop. rewrite Hs. js_world.
    autorewrite with world. case_decide; [|congruence].
    destruct H as [_ _ _ _ _ [eM ->] _ _ _]. reflexivity.
  - destruct H as [_ _ _ _ _ _ _ _ Hnone]. destruct (Hnone Hs). congruence.
Qed.

Lemma click_Start_starts c s w :
  wired c w → sensor c = Some s → is_disabled w (buttonStart c) = false →
  let w' := click (buttonStart c) (buttonStart_onclick c None) w in
  is_activated w' s = true
  ∧ is_disabled w' (buttonStart c) = true
  ∧ is_disabled w' (buttonStop c) = false.
Proof.
  intros H Hs D. cbn zeta. unfold click. rewrite D.
  unfold buttonStart_onclick, run_to_completion, Sensor_start. rewrite Hs. js_world.
  destruct H as [Hss Hsm Hpm [eS HeS] [eP HeP] _ Hsen _ _].
  destruct (Hsen s Hs) as [x Hx].
  autorewrite with world. cbn. rewrite Hx, HeS, HeP.
  repeat (case_decide; try congruence). cbn. auto.
Qed.

(** ** Idle detection *)


Lemma idle_set_up h w c w1 :
  handleIdleDetectionAPI h w = (Normal (Some c), w1) →
  idle_wired c w1 ∧ is_disabled w1 (Idle.buttonDetection c) = false.
Proof.
  destruct w as [o es hs cs u]. unfold handleIdleDetectionAPI.
  destruct (has (window h) "IdleDetector"); [|js_unfold; cbn; discriminate].
  rewrite <- (app_nil_r es) at 1. js_step.
  intros [= <- <-]. split; [split|]; cbn; try lia.
  - rewrite lookup_app_r by lia.
    replace (length es + 1 - length es)%nat with 1%nat by lia. cbn. eauto.
  - unfold is_disabled. cbn. rewrite lookup_app_r by lia.
    replace (length es + 1 - length es)%nat with 1%nat by lia. reflexivity.
Qed.

Ltac idle_solve :=
  match goal with
  | H : idle_wired ?c ?w |- _ =>
      destruct H as [Hdm Hdc [eD HeD]];
      try split; intros; cbn in *;
      autorewrite with world in *;
      repeat (case_decide; try congruence);
      rewrite ?HeD; cbn; try congruence; eauto
  end.

Lemma idle_step_keeps h c w ev :
  idle_wired c w →
  idle_wired c (idle_step h c w ev)
  ∧ (is_disabled w (Idle.buttonDetection c) = true →
     is_disabled (idle_step h c w ev) (Idle.buttonDetection c) = true).
Proof.
  intros H.
  destruct ev as [|[p|e]| |d [[]|e]|us ss|]; cbn [idle_step];
    unfold click, run_to_completion, buttonPermission_onclick, requestPermission_then,
      buttonDetection_onclick, start_then, idleDetector_onchange, buttonClock_onclick;
    repeat match goal with
    | |- context [is_disabled w ?b] =>
        match goal with
        | _ : is_disabled w b = _ |- _ => fail 1
        | _ => let D := fresh "D" in destruct (is_disabled w b) eqn:D
        end
    end;
    try (destruct (constructor h "IdleDetector") as [e'|] eqn:Hc);
    js_world; rewrite ?Hc; js_world;
    (split; [idle_solve| intros Hd; try exact Hd; idle_solve]).
Qed.

Lemma idle_steps_keep h c evs w :
  idle_wired c w →
  idle_wired c (foldl (idle_step h c) w evs)
  ∧ (is_disabled w (Idle.buttonDetection c) = true →
     is_disabled (foldl (idle_step h c) w evs) (Idle.buttonDetection c) = true).
Proof.
  revert w. induction evs as [|ev evs IH]; intros w H; cbn [foldl]; [auto|].
  destruct (idle_step_keeps h c w ev H) as [H' D'].
  destruct (IH _ H') as [H'' D'']. auto.
Qed.

Lemma idle_start_fulfilled h c d w :
  idle_wired c w →
  is_disabled (idle_step h c w (start_settled d (Fulfilled tt))) (Idle.buttonDetection c) = true.
Proof.
  intros H. cbn [idle_step]. unfold run_to_completion, start_then. js_world. idle_solve.
Qed.

(** ** The service worker's calls *)

Lemma step_no_cache {Request Response Client : Type} (network : Request → settled Response)
    (s : ServiceWorker.scope Request Client) ev :
  Forall (λ c, ServiceWorker.cache_call Request c = false) (ServiceWorker.calls _ _ s) →
  Forall (λ c, ServiceWorker.cache_call Request c = false)
    (ServiceWorker.calls _ _ (ServiceWorker.step _ _ _ network s ev)).
Proof.
  intros H. destruct ev as [older|open|request]; cbn.
  - unfold ServiceWorker.install, ServiceWorker.oninstall. cbn.
    rewrite !Forall_app; repeat split; auto.
  - unfold ServiceWorker.activate. destruct (ServiceWorker.state _ _ s); auto. cbn.
    rewrite !Forall_app; repeat split; auto.
  - rewrite !Forall_app; repeat split; auto.
Qed.

(** ** The listeners on the document *)

Lemma visibilitychange_app nts h l1 l2 w visibilityState now :
  visibilitychange nts h (l1 ++ l2) w visibilityState now
  = let st := visibilitychange nts h l1 w visibilityState now in
    let st' := visibilitychange nts h l2 st.2 visibilityState now in
    ((st.1 ++ st'.1)%list, st'.2).
Proof.
  revert w. induction l1 as [|l l1 IH]; intros w; cbn [app visibilitychange].
  - cbv zeta. cbn [fst snd app]. by destruct (visibilitychange nts h l2 w visibilityState now).
  - destruct (onvisibilitychange nts h l visibilityState now) as [l' body].
    rewrite IH. cbv zeta.
    destruct (visibilitychange nts h l1 _ visibilityState now) as [a w'].
    cbn [fst snd].
    destruct (visibilitychange nts h l2 w' visibilityState now) as [b w''].
    reflexivity.
Qed.

Lemma visibilitychange_listeners nts h listeners w visibilityState now :
  (visibilitychange nts h listeners w visibilityState now).1
  = (λ leftTime, if String.eqb visibilityState "hidden" then Some now else leftTime)
      <$> listeners.
Proof.
  revert w. induction listeners as [|l ls IH]; intros w; [reflexivity|].
  cbn [visibilitychange fmap list_fmap]. unfold onvisibilitychange at 1.
  destruct (String.eqb visibilityState "hidden");
    match goal with
    | |- context [visibilitychange nts h ls ?w1 _ _] =>
        specialize (IH w1); destruct (visibilitychange nts h ls w1 visibilityState now)
    end; cbn [fst] in *; by rewrite IH.
Qed.

Lemma onvisibilitychange_undefined nts h visibilityState now :
  visibilityState ≠ "hidden" →
  ∃ body,
    onvisibilitychange nts h None visibilityState now = (None, body)
    ∧ ∀ w, run_to_completion body w
           = report (TypeError "undefined" "getTime") (logged (console_log "State:") w).
Proof.
  intros H. assert (E : String.eqb visibilityState "hidden" = false) by (by apply String.eqb_neq).
  unfold onvisibilitychange. rewrite E. eexists. split; reflexivity.
Qed.

Lemma visibilitychange_undefined nts h listeners w visibilityState now :
  visibilityState ≠ "hidden" →
  Forall (λ leftTime, leftTime = None) listeners →
  let st := visibilitychange nts h listeners w visibilityState now in
  output st.2 = output w
  ∧ elements st.2 = elements w
  ∧ uncaught st.2
    = (uncaught w ++ replicate (length listeners) (TypeError "undefined" "getTime"))%list.
Proof.
  intros Hv Hl. revert w. induction Hl as [|l ls -> _ IH]; intros w; cbv zeta.
  - cbn. rewrite app_nil_r. auto.
  - cbn [visibilitychange].
    destruct (onvisibilitychange_undefined nts h visibilityState now Hv) as (body & -> & Hrun).
    rewrite Hrun. specialize (IH (report (TypeError "undefined" "getTime")
                                    (logged (console_log "State:") w))).
    cbv zeta in IH.
    destruct (visibilitychange nts h ls _ visibilityState now) as [ls' w'].
    cbn [fst snd] in *. destruct IH as (-> & -> & ->).
    unfold report, logged. cbn. rewrite <- app_assoc. auto.
Qed.

(** ** The script on concrete hosts *)

(** The accelerometer handler where the constructor throws: the error
    is the text of the message, Start stays disabled, and there is no
    sensor. *)
Example constructor_error_is_shown :
  let '(r, w) := sensor_handler throwing_host Accelerometer page_loaded in
  r = Normal (Some {| buttonStart := 0; buttonStop := 1; message := 2; sensor := None |})
  ∧ children_of w 2 = [TextNode "Accelerometer error: SecurityError"]
  ∧ is_disabled w 0 = true
  ∧ handles w = []
  ∧ uncaught w = [].
Proof. vm_compute. repeat split. Qed.

(** The handler of the screen orientation calls the fullscreen handler
    itself: where the screen has an orientation and the document no
    fullscreen, the message of the fullscreen handler is followed by
    the controls of the orientation handler. *)
Example orientation_without_fullscreen :
  output (change no_digits orientation_host "screen-orientation" page_loaded)
  = [TextNode "Fullscreen not available or enabled on this device.";
     Child 0; Child 1; Child 2; Child 3].
Proof. vm_compute. reflexivity. Qed.

(** Hidden for two and a half seconds, then visible again, with the one
    listener of a first selection. *)
Example welcome_back :
  let '(listeners, w1) :=
    visibilitychange no_digits notification_host [None] page_loaded "hidden" 1000 in
  let '(_, w2) := visibilitychange no_digits notification_host listeners w1 "visible" 3500 in
  listeners = [Some 1000%float]
  ∧ output w2 = [Markup "
        Welcome back!!!<br>
        You were away for 3 seconds.
      "]
  ∧ uncaught w2 = [].
Proof. vm_compute. repeat split. Qed.

(** Page visibility selected, the page hidden and shown, then page
    visibility selected again and the page shown: the listener of the
    first selection is still on the document and writes the welcome,
    counted from the time it saw; the listener of the second selection
    throws. *)
Example welcome_from_an_earlier_selection :
  let h := notification_host in
  let w1 := change no_digits h "page-visibility" page_loaded in
  let '(listeners, w2) := visibilitychange no_digits h [None] w1 "hidden" 1000 in
  let w3 := change no_digits h "page-visibility" w2 in
  let '(listeners', w4) :=
    visibilitychange no_digits h (listeners ++ [None]) w3 "visible" 3000 in
  listeners' = [Some 1000%float; None]
  ∧ output w4 = [Markup "
        Welcome back!!!<br>
        You were away for 2 seconds.
      "]
  ∧ uncaught w4 = [TypeError "undefined" "getTime"].
Proof. vm_compute. repeat split. Qed.

(** The callback of the notification request where the navigator has
    no service worker. *)
Example notification_without_service_worker :
  uncaught (run_to_completion (requestPermission_callback bare_host "granted") page_loaded)
  = [TypeError "undefined" "ready"]
  ∧ calls (run_to_completion (requestPermission_callback notification_host "granted")
             page_loaded)
    = [showNotification "Come back, please!!!"].
Proof. vm_compute. split; reflexivity. Qed.

(** [toFixed] on values whose decimal expansion is not exact. *)
Example toFixed_rounds :
  JsNumber.toFixed no_digits 1.005 2 = "1.00"
  ∧ JsNumber.toFixed no_digits 8.345 2 = "8.35"
  ∧ JsNumber.toFixed no_digits 2.5 0 = "3"
  ∧ JsNumber.toFixed no_digits (-1.5) 0 = "-2"
  ∧ JsNumber.toFixed no_digits 0.000001 2 = "0.00".
Proof. vm_compute. repeat split. Qed.

(** * The claims *)

(** C1. In a handler gated on several permissions (absolute orientation:
    accelerometer, gyroscope, magnetometer; relative orientation:
    accelerometer, gyroscope) the queries are issued one after the other
    in the declared order, each only once the one before it resolved to
    ['granted']; the sensor is constructed only when all of them are
    granted; and the first permission that is not granted ends the
    handler with that permission's denial message.  It holds for every
    sensor handler, on a host that has the sensor interface and the
    permissions API. *)
Theorem permissions_checked_in_declared_order (h : host) (k : sensor_interface) (w : world) :
  has (window h) (interface_name k) = true →
  has (navigator h) "permissions" = true →
  let '(r, w') := sensor_handler h k w in
  queries (calls_since w w') = asked_in_turn h (required_permissions k)
  ∧ (new (interface_name k) ∈ calls_since w w'
     ↔ Forall (λ p, permission h p = Fulfilled "granted") (required_permissions k))
  ∧ (handles w' ≠ handles w →
     Forall (λ p, permission h p = Fulfilled "granted") (required_permissions k))
  ∧ (∀ p st,
       first_ungranted h (required_permissions k) = Some p →
       permission h p = Fulfilled st →
       r = Normal None ∧ output w' = [TextNode (denial_message p)]).
Proof.
  intros Hw Hn. destruct w as [o es hs cs u].
  destruct k; cbn [sensor_handler interface_name required_permissions] in *;
    unfold_handlers; unfold asked_in_turn, first_ungranted, granted;
    js_unfold; cbn; rewrite Hw, Hn; cbn;
    repeat next_permission h;
    try rewrite helper_elements_run;
    try (destruct (constructor h _) as [e|] eqn:Hc);
    js_step; rewrite <- ?app_assoc; cbn [app];
    unfold calls_since; cbn; rewrite ?drop_app_length.
  all: split; [reflexivity|].
  all: split; [split; [intros Hin|intros Hall] | split; [intros Hh|intros p0 st0 Hf Hp]].
  all: try (repeat constructor; assumption).
  all: try in_list.
  all: try (exfalso; revert Hin; not_in_list).
  all: try (exfalso; apply Hh; reflexivity).
  all: try (repeat match goal with
            | H : Forall _ (_ :: _) |- _ => inversion H; clear H; subst
            end; congruence).
  all: try congruence.
  all: try (injection Hf as <-; split; reflexivity).
Qed.

(** Absolute orientation where the gyroscope permission is denied: the
    accelerometer and the gyroscope are asked, the magnetometer is not,
    and the gyroscope's message is shown. *)
Lemma permissions_checked_in_declared_order_witness :
  let '(r, w') := sensor_handler (sensor_host "gyroscope") AbsoluteOrientationSensor
                    page_loaded in
  queries (calls_since page_loaded w') = ["accelerometer"; "gyroscope"]
  ∧ r = Normal None
  ∧ output w' = [TextNode "You are not autorized to use the gyroscope sensor."].
Proof.
  pose proof (permissions_checked_in_declared_order (sensor_host "gyroscope")
                AbsoluteOrientationSensor page_loaded) as H.
  destruct (sensor_handler (sensor_host "gyroscope") AbsoluteOrientationSensor page_loaded)
    as [r w'].
  destruct H as (Hq & _ & _ & Hd); [vm_compute; reflexivity..|].
  split; [exact Hq|].
  apply (Hd "gyroscope" "denied"); vm_compute; reflexivity.
Defined.

(** C2, as amended.  In each of the eight sensor handlers, what the
    sensor's constructor throws and what [start()] or [stop()] throws is
    caught in the handler and shown in its message element, and the
    global handler gets nothing: the handler that set up its controls
    left the uncaught errors as they were and shows a constructor's
    error as ['<Interface> error: ...']; after any events, a click on
    Start or Stop adds no uncaught error, and where the button is
    enabled an error of [start()] or [stop()] is the text of the
    message. *)
Theorem sensor_errors_are_caught (number_to_string : float → string) (h : host)
    (k : sensor_interface) (w : world) (c : controls) (w1 : world)
    (evs : list sensor_event) :
  sensor_handler h k w = (Normal (Some c), w1) →
  let step := sensor_step number_to_string h k c in
  let wn := foldl step w1 evs in
  uncaught w1 = uncaught w
  ∧ (∀ e, constructor h (interface_name k) = Some e →
       sensor c = None
       ∧ children_of w1 (message c) = [TextNode (interface_name k +:+ " error: " +:+ e)])
  ∧ (∀ outcome, uncaught (step wn (click_Start outcome)) = uncaught wn)
  ∧ (∀ outcome, uncaught (step wn (click_Stop outcome)) = uncaught wn)
  ∧ (∀ e, is_disabled wn (buttonStart c) = false →
       children_of (step wn (click_Start (Some e))) (message c)
       = [TextNode ("It was not possible to start the sensor: " +:+ e)])
  ∧ (∀ e, is_disabled wn (buttonStop c) = false →
       children_of (step wn (click_Stop (Some e))) (message c)
       = [TextNode ("It was not possible to stop the sensor: " +:+ e)]).
Proof.
  intros Hrun step wn.
  pose proof (sensor_handler_set_up _ _ _ _ _ Hrun) as Hsu.
  assert (Hwn : wired c wn) by (apply wired_steps; eapply set_up_wired; exact Hsu).
  split; [apply Hsu|].
  split.
  { intros e He. destruct Hsu as [_ _ _ _ _ Hm _ _ Hc]. rewrite He in Hc.
    destruct Hc as (Hs & _ & Hel). split; [exact Hs|].
    unfold children_of. rewrite Hel, Hm, lookup_app_r by lia.
    replace (length (elements w) + 2 - length (elements w))%nat with 2%nat by lia.
    reflexivity. }
  split; [intros; apply click_Start_uncaught|].
  split; [intros; apply click_Stop_uncaught|].
  split; intros e D; [by apply click_Start_throws|by apply click_Stop_throws].
Qed.

(** The accelerometer, set up on a fresh page: a [start()] that throws
    is shown in the message and nothing reaches the global handler. *)
Lemma sensor_errors_are_caught_witness :
  let w1 := snd (sensor_handler (sensor_host "") Accelerometer page_loaded) in
  let w2 := sensor_step no_digits (sensor_host "") Accelerometer first_controls w1
              (click_Start (Some "NotReadableError")) in
  uncaught w2 = []
  ∧ children_of w2 2
    = [TextNode "It was not possible to start the sensor: NotReadableError"].
Proof.
  cbv zeta.
  destruct (sensor_errors_are_caught no_digits (sensor_host "") Accelerometer page_loaded
              first_controls
              (snd (sensor_handler (sensor_host "") Accelerometer page_loaded)) [])
    as (_ & _ & Hu & _ & Hs & _); [vm_compute; reflexivity|].
  refine (conj (Hu (Some "NotReadableError")) (Hs "NotReadableError" _)).
  vm_compute. reflexivity.
Defined.

(** Outside the sensor handlers nothing is caught.  Idle detection:
    what [new IdleDetector()] throws in the listener of Start Listening
    goes to the global handler, and so does the reason of a rejected
    [start()]; wake lock: so does the reason of a rejected
    [navigator.wakeLock.request('screen')].  In none of the three cases
    is anything shown. *)
Lemma errors_outside_the_sensor_handlers_escape :
  let c := first_idle_controls in
  let w1 := change no_digits throwing_host "idle-detection" page_loaded in
  let w2 := idle_step throwing_host c w1 click_Start_Listening in
  let w3 := change no_digits (sensor_host "") "idle-detection" page_loaded in
  let w4 := foldl (idle_step (sensor_host "") c) w3
              [click_Start_Listening; start_settled 0 (Rejected "NotAllowedError")] in
  let w5 := change no_digits (sensor_host "") "screen-wake-lock" page_loaded in
  let w6 := snd (request_settled (Rejected "NotAllowedError") w5) in
  handleIdleDetectionAPI throwing_host (cleared page_loaded) = (Normal (Some c), w1)
  ∧ uncaught w1 = []
  ∧ uncaught w2 = ["SecurityError"]
  ∧ children_of w2 (Idle.message c) = []
  ∧ output w2 = output w1
  ∧ uncaught w4 = ["NotAllowedError"]
  ∧ children_of w4 (Idle.message c) = []
  ∧ uncaught w5 = []
  ∧ uncaught w6 = ["NotAllowedError"]
  ∧ output w6 = [].
Proof. vm_compute. repeat split. Qed.

(** C3, as amended.  Start is disabled as soon as a start has
    succeeded, so that it cannot be invoked again while the handle
    runs.  In a sensor handler, after any events: while the sensor runs
    Start is disabled and a click on it changes nothing; and a click on
    an enabled Start whose [start()] returns leaves the sensor running,
    Start disabled and Stop enabled.  In the idle-detection handler
    Start Listening is enabled on set-up; once the promise of a
    [start()] is fulfilled it is disabled, stays so through any later
    events, and a click on it changes nothing. *)
Theorem start_is_disabled_after_it_succeeded (number_to_string : float → string)
    (h : host) (k : sensor_interface) (w : world) (c : controls) (w1 : world)
    (s : nat) (evs : list sensor_event) :
  sensor_handler h k w = (Normal (Some c), w1) →
  sensor c = Some s →
  let step := sensor_step number_to_string h k c in
  let wn := foldl step w1 evs in
  (is_activated wn s = true →
     is_disabled wn (buttonStart c) = true
     ∧ ∀ outcome, step wn (click_Start outcome) = wn)
  ∧ (is_disabled wn (buttonStart c) = false →
     let w' := step wn (click_Start None) in
     is_activated w' s = true
     ∧ is_disabled w' (buttonStart c) = true
     ∧ is_disabled w' (buttonStop c) = false
     ∧ ∀ outcome, step w' (click_Start outcome) = w')
  ∧ (∀ (w0 : world) (evs0 evs1 : list idle_event) (idleDetector : nat),
       match handleIdleDetectionAPI h w0 with
       | (Normal (Some ic), wi) =>
           let wn := foldl (idle_step h ic) wi evs0 in
           let wd := idle_step h ic wn (start_settled idleDetector (Fulfilled tt)) in
           let we := foldl (idle_step h ic) wd evs1 in
           is_disabled wi (Idle.buttonDetection ic) = false
           ∧ is_disabled we (Idle.buttonDetection ic) = true
           ∧ idle_step h ic we click_Start_Listening = we
       | _ => True
       end).
Proof.
  intros Hrun Hs step wn.
  pose proof (sensor_handler_set_up _ _ _ _ _ Hrun) as Hsu.
  assert (Hwn : wired c wn) by (apply wired_steps; eapply set_up_wired; exact Hsu).
  split; [|split].
  - intros Ha. assert (D : is_disabled wn (buttonStart c) = true)
      by (eapply wired_running; eauto).
    split; [exact D|]. intros outcome. cbn. unfold click. by rewrite D.
  - intros D. destruct (click_Start_starts c s wn Hwn Hs D) as (Ha & D' & Dp).
    subst step. cbn zeta. cbn [sensor_step]. repeat split; auto.
    intros outcome. unfold click at 1. by rewrite D'.
  - intros w0 evs0 evs1 d.
    destruct (handleIdleDetectionAPI h w0) as [[[ic|]|e] wi] eqn:Hi; try exact I.
    destruct (idle_set_up _ _ _ _ Hi) as [Hw D0].
    destruct (idle_steps_keep h ic evs0 wi Hw) as [Hn _].
    pose proof (idle_start_fulfilled h ic d _ Hn) as Dd.
    destruct (idle_step_keeps h ic _ (start_settled d (Fulfilled tt)) Hn) as [Hd _].
    destruct (idle_steps_keep h ic evs1 _ Hd) as [He De].
    cbn zeta. split; [exact D0|]. split; [by apply De|].
    specialize (De Dd). revert De.
    generalize (foldl (idle_step h ic)
                  (idle_step h ic (foldl (idle_step h ic) wi evs0)
                     (start_settled d (Fulfilled ()))) evs1).
    intros we De. cbn [idle_step]. unfold click. by rewrite De.
Qed.

(** The accelerometer on a fresh page: Start is enabled; after a click
    whose [start()] returns the sensor runs, Start is disabled, Stop is
    enabled, and a second click on Start changes nothing. *)
Lemma start_is_disabled_after_it_succeeded_witness :
  let w1 := snd (sensor_handler (sensor_host "") Accelerometer page_loaded) in
  let step := sensor_step no_digits (sensor_host "") Accelerometer first_controls in
  let w2 := step w1 (click_Start None) in
  is_activated w2 0 = true
  ∧ is_disabled w2 0 = true
  ∧ is_disabled w2 1 = false
  ∧ step w2 (click_Start None) = w2.
Proof.
  cbv zeta.
  destruct (start_is_disabled_after_it_succeeded no_digits (sensor_host "") Accelerometer
              page_loaded first_controls
              (snd (sensor_handler (sensor_host "") Accelerometer page_loaded)) 0 [])
    as (_ & H & _); [vm_compute; reflexivity..|].
  destruct H as (Ha & Ds & Dp & Hc); [vm_compute; reflexivity|].
  exact (conj Ha (conj Ds (conj Dp (Hc None)))).
Defined.

(** Idle detection on a fresh page: two clicks on Start Listening before
    the first [start()] has settled make two detectors and call
    [start()] on both, with Start Listening enabled all along and no
    [stop()] in between; both detectors then run. *)
Lemma start_listening_twice :
  let h := sensor_host "" in
  let c := first_idle_controls in
  let w1 := change no_digits h "idle-detection" page_loaded in
  let w2 := idle_step h c w1 click_Start_Listening in
  let w3 := idle_step h c w2 click_Start_Listening in
  let w4 := foldl (idle_step h c) w3
              [start_settled 0 (Fulfilled tt); start_settled 1 (Fulfilled tt)] in
  handleIdleDetectionAPI h (cleared page_loaded) = (Normal (Some c), w1)
  ∧ is_disabled w1 1 = false
  ∧ is_disabled w2 1 = false
  ∧ starts_and_stops (calls w3) = [start 0; start 1]
  ∧ is_activated w4 0 = true
  ∧ is_activated w4 1 = true.
Proof. vm_compute. repeat split. Qed.



(** C5. For a battery that is charging at level 0.8 the battery handler
    renders markup whose text contains ['Bettery charging: Yes'] and
    ['Bettery level: 80%']: the level times 100, with no decimals,
    followed by ['%'], under the labels as they are spelled. *)
Theorem battery_snapshot_rendered (number_to_string : float → string)
    (chargingTime dischargingTime : float) (w : world) :
  let battery := {| charging := true; level := 0.8;
                    chargingTime := chargingTime; dischargingTime := dischargingTime |} in
  ∃ markup,
    output (snd (getBattery_then number_to_string battery w)) = [Markup markup]
    ∧ output (snd (battery_onchange number_to_string "Battery level:" battery w))
      = [Markup markup]
    ∧ includes (fragment_text markup) "Bettery charging: Yes" = true
    ∧ includes (fragment_text markup) "Bettery level: 80%" = true
    ∧ JsNumber.toFixed number_to_string (0.8 * 100) 0 +:+ "%" = "80%".
Proof.
  intros battery. eexists. split; [reflexivity|]. split; [reflexivity|].
  split; [|split]; vm_compute; reflexivity.
Qed.

(** C6. In every handler, when the presence check fails the output is
    exactly the handler's fixed message and nothing is created: no
    element, no handle.  Selecting "vibration" on a host without
    [navigator.vibrate] shows ['Vibration is not supported on this
    device.'] and makes no button. *)
Theorem absent_capability_renders_fixed_message (number_to_string : float → string)
    (h : host) (f : feature) (msg : string) (w : world) :
  unsupported_message h f = Some msg →
  (∃ w', invoke number_to_string h f w = (Normal tt, w')
     ∧ output w' = [TextNode msg]
     ∧ elements w' = elements w
     ∧ handles w' = handles w)
  ∧ (let w' := change number_to_string h (tag_of f) w in
     output w' = [TextNode msg]
     ∧ elements w' = elements w
     ∧ handles w' = handles w
     ∧ uncaught w' = uncaught w).
Proof.
  intros H. split.
  - destruct (invoke_unsupported number_to_string h f msg w H) as (w' & Hr & Ho & He & Hh & _).
    exists w'. auto.
  - destruct (invoke_unsupported number_to_string h f msg (cleared w) H)
      as (w' & Hr & Ho & He & Hh & Hu).
    cbn zeta. rewrite change_invokes. unfold run_to_completion. rewrite Hr. auto.
Qed.

(** Selecting "vibration" on a host that has no vibration API. *)
Lemma absent_capability_renders_fixed_message_witness :
  let w' := change no_digits bare_host "vibration" page_loaded in
  output w' = [TextNode "Vibration is not supported on this device."]
  ∧ elements w' = []
  ∧ handles w' = []
  ∧ uncaught w' = [].
Proof.
  cbv zeta.
  destruct (absent_capability_renders_fixed_message no_digits bare_host Vibration
              "Vibration is not supported on this device." page_loaded)
    as (_ & H); [vm_compute; reflexivity|].
  exact H.
Defined.


(** C8. The service worker answers every fetch event with what the
    network gives for the very request of the event, a rejection
    included; no event makes it open, read or write a cache; its install
    event sets the skip-waiting flag, so that installation goes on to
    activation whether or not an older worker is in use; and its
    activate event claims every open client. *)
Theorem service_worker_passes_through (Request Response Client : Type)
    (network : Request → settled Response) :
  (∀ request s,
     fst (ServiceWorker.onfetch Request Response Client network request s) = network request)
  ∧ (∀ evs,
       Forall (λ c, ServiceWorker.cache_call Request c = false)
         (ServiceWorker.calls _ _
            (foldl (ServiceWorker.step Request Response Client network)
               ServiceWorker.registered evs)))
  ∧ (∀ older_worker_in_use s,
       ServiceWorker.skip_waiting_flag _ _ (ServiceWorker.oninstall Request Client s) = true
       ∧ ServiceWorker.state _ _ (ServiceWorker.install Request Client older_worker_in_use s)
         = ServiceWorker.activating)
  ∧ (∀ older_worker_in_use open s,
       let s' := ServiceWorker.activate Request Client open
                   (ServiceWorker.install Request Client older_worker_in_use s) in
       ServiceWorker.state _ _ s' = ServiceWorker.activated
       ∧ ServiceWorker.controlled _ _ s' = open).
Proof.
  split; [reflexivity|]. split.
  { intros evs.
    assert (G : ∀ s : ServiceWorker.scope Request Client,
               Forall (λ c, ServiceWorker.cache_call Request c = false)
                 (ServiceWorker.calls _ _ s) →
               Forall (λ c, ServiceWorker.cache_call Request c = false)
                 (ServiceWorker.calls _ _
                    (foldl (ServiceWorker.step Request Response Client network) s evs))).
    { induction evs as [|ev evs IH]; intros s Hs; cbn [foldl]; [exact Hs|].
      apply IH, step_no_cache, Hs. }
    apply G. constructor. }
  split; [intros older s; split; reflexivity|].
  intros older open s. split; reflexivity.
Qed.

(** C9. The reading listener of the ambient light handler reads
    [sensor.illuminance], and [sensor] is bound neither by the handler
    (whose sensor is [ambientLight]) nor by the script; where the global
    object has no [sensor] either, every reading event ends in a
    ReferenceError that reaches the global handler, and the message
    element never gets the light level: the elements and the output stay
    as they were through any number of readings. *)
Theorem ambient_light_reading_fails (number_to_string : float → string) (h : host)
    (c : controls) (s : nat) (w : world) :
  has (window h) "sensor" = false →
  sensor c = Some s →
  ("sensor" ∉ ambientLight_scope)
  ∧ (∀ a, ambientLight_onreading h c a w
          = (Throw "ReferenceError: sensor is not defined", w))
  ∧ (∀ a, sensor_step number_to_string h AmbientLightSensor c w (reading_event a)
          = report "ReferenceError: sensor is not defined" w)
  ∧ (∀ readings,
       let w' := foldl (sensor_step number_to_string h AmbientLightSensor c) w
                   (reading_event <$> readings) in
       elements w' = elements w ∧ output w' = output w
       ∧ length (uncaught w') = (length (uncaught w) + length readings)%nat).
Proof.
  intros Hfree Hs.
  assert (R : ∀ a w0, ambientLight_onreading h c a w0
                      = (Throw "ReferenceError: sensor is not defined", w0)).
  { intros a w0. unfold ambientLight_onreading, free_identifier.
    cbv [mbind js_bind]. rewrite Hfree. reflexivity. }
  assert (S : ∀ a w0, sensor_step number_to_string h AmbientLightSensor c w0 (reading_event a)
                      = report "ReferenceError: sensor is not defined" w0).
  { intros a w0. unfold sensor_step, onreading, run_to_completion.
    rewrite Hs, R. reflexivity. }
  split.
  { apply (proj1 (bool_decide_eq_false _)). vm_compute. reflexivity. }
  split; [intros a; apply R|].
  split; [intros a; apply S|].
  intros readings. revert w.
  induction readings as [|a readings IH]; intros w.
  - cbn. repeat split; lia.
  - rewrite fmap_cons. cbn [foldl]. rewrite S.
    destruct (IH (report "ReferenceError: sensor is not defined" w)) as (He & Ho & Hu).
    cbn zeta in *. rewrite He, Ho, Hu. unfold report; cbn.
    rewrite length_app. cbn. repeat split; lia.
Qed.

(** The ambient light sensor set up on a fresh page and started: a
    reading of 120 lux leaves the message empty and a ReferenceError
    with the global handler. *)
Lemma ambient_light_reading_fails_witness :
  let h := sensor_host "" in
  let step := sensor_step no_digits h AmbientLightSensor first_controls in
  let w1 := snd (sensor_handler h AmbientLightSensor page_loaded) in
  let w2 := step w1 (click_Start None) in
  let w3 := step w2 (reading_event {| Sensor.x := None; Sensor.y := None; Sensor.z := None;
                                       Sensor.quaternion := None;
                                       Sensor.illuminance := Some 120%float |}) in
  w3 = report "ReferenceError: sensor is not defined" w2.
Proof.
  cbv zeta.
  destruct (ambient_light_reading_fails no_digits (sensor_host "") first_controls 0
              (sensor_step no_digits (sensor_host "") AmbientLightSensor first_controls
                 (snd (sensor_handler (sensor_host "") AmbientLightSensor page_loaded))
                 (click_Start None)))
    as (_ & _ & H & _); [vm_compute; reflexivity..|].
  apply H.
Defined.

(** C10. The listener of the page visibility handler assigns its
    [leftTime] only when the page becomes hidden.  When the first
    [visibilitychange] event after an invocation of the handler is not
    a change to hidden, the [leftTime] of that invocation is still
    undefined: its listener, which runs after the listeners [earlier]
    invocations left on the document, throws the TypeError of
    [leftTime.getTime()] to the global handler and writes nothing,
    whatever the page shows then.  Where no earlier listener has seen
    the page hidden (none exists when the feature is selected for the
    first time), every listener fails so, and the output keeps the
    handler's first message instead of the welcome with the time
    away. *)
Theorem first_event_visible_fails (number_to_string : float → string) (h : host)
    (earlier : list (option float)) (w : world) (visibilityState : string) (now : float) :
  visibilityState ≠ "hidden" →
  let '(r, w1) := handlePageVisibility w in
  ∃ leftTime,
    r = Normal leftTime
    ∧ let before := visibilitychange number_to_string h earlier w1 visibilityState now in
      let after :=
        visibilitychange number_to_string h (earlier ++ [leftTime]) w1 visibilityState now in
      after.1 = (earlier ++ [None])%list
      ∧ after.2 = report (TypeError "undefined" "getTime")
                    (logged (console_log "State:") before.2)
      ∧ output after.2 = output before.2
      ∧ uncaught after.2 = (uncaught before.2 ++ [TypeError "undefined" "getTime"])%list
      ∧ (Forall (λ l, l = None) earlier →
         output after.2 = output w1
         ∧ (∀ markup, Markup markup ∈ output after.2 →
              includes markup "Welcome back" = false)
         ∧ uncaught after.2
           = (uncaught w1 ++ replicate (S (length earlier))
                               (TypeError "undefined" "getTime"))%list)
      ∧ (∀ ls w0, (visibilitychange number_to_string h ls w0 visibilityState now).1 = ls)
      ∧ (∀ ls w0, (visibilitychange number_to_string h ls w0 "hidden" now).1
                  = (λ _, Some now) <$> ls).
Proof.
  intros H.
  assert (E : String.eqb visibilityState "hidden" = false) by (by apply String.eqb_neq).
  destruct (handlePageVisibility w) as [r w1] eqn:Hrun.
  unfold handlePageVisibility in Hrun. cbv [mbind mret js_bind js_ret] in Hrun. cbn in Hrun.
  injection Hrun as <- Hw1.
  exists None. split; [reflexivity|]. cbv zeta.
  rewrite visibilitychange_app. cbv zeta.
  pose proof (visibilitychange_listeners number_to_string h earlier w1 visibilityState now)
    as Hls.
  rewrite E in Hls. rewrite list_fmap_id in Hls.
  destruct (visibilitychange number_to_string h earlier w1 visibilityState now)
    as [earlier' we] eqn:He.
  cbn [fst snd] in *. subst earlier'.
  cbn [visibilitychange].
  destruct (onvisibilitychange_undefined number_to_string h visibilityState now H)
    as (body & -> & Hbody).
  rewrite Hbody. cbn [fst snd].
  split; [reflexivity|]. split; [reflexivity|]. split; [reflexivity|].
  split; [reflexivity|]. split.
  { intros Hnone.
    pose proof (visibilitychange_undefined number_to_string h earlier w1 visibilityState now
                  H Hnone) as Hu.
    cbv zeta in Hu. rewrite He in Hu. cbn [snd] in Hu. destruct Hu as (Ho & _ & Hu).
    unfold report, logged. cbn [output uncaught]. rewrite Ho, Hu.
    split; [reflexivity|]. split.
    - intros markup Hin. rewrite <- Hw1 in Hin. cbn in Hin.
      apply list_elem_of_singleton in Hin. injection Hin as ->.
      vm_compute. reflexivity.
    - rewrite <- app_assoc. f_equal.
      change [TypeError "undefined" "getTime"]
        with (replicate 1 (TypeError "undefined" "getTime")).
      rewrite <- replicate_add. f_equal. lia. }
  split; intros ls w0; rewrite visibilitychange_listeners.
  - rewrite E. apply list_fmap_id.
  - reflexivity.
Qed.

(** The page becomes visible first, after the first selection of the
    feature. *)
Lemma first_event_visible_fails_witness :
  let '(_, w1) := handlePageVisibility page_loaded in
  let st := visibilitychange no_digits bare_host [None] w1 "visible" 1000 in
  st.1 = [None]
  ∧ output st.2 = output w1
  ∧ uncaught st.2 = [TypeError "undefined" "getTime"].
Proof.
  pose proof (first_event_visible_fails no_digits bare_host [] page_loaded "visible" 1000) as H.
  destruct (handlePageVisibility page_loaded) as [r w1] eqn:E.
  destruct H as (leftTime & Hr & H); [discriminate|].
  injection E as <- <-. injection Hr as <-.
  cbv zeta in H. destruct H as (Hl & _ & _ & _ & Hn & _).
  destruct (Hn (Forall_nil_2 _)) as (Ho & _ & Hu).
  exact (conj Hl (conj Ho Hu)).
Defined.

(** * Further properties *)

(** ** More of the world under the primitives *)

Lemma output_upd i f w : output (upd i f w) = output w.
Proof. unfold upd. by destruct (elements w !! i). Qed.
Lemma output_act s b w : output (act s b w) = output w.
Proof. unfold act. by destruct (handles w !! s). Qed.
Lemma output_logged c w : output (logged c w) = output w.
Proof. reflexivity. Qed.
Lemma output_report e w : output (report e w) = output w.
Proof. reflexivity. Qed.
Lemma calls_logged c w : calls (logged c w) = (calls w ++ [c])%list.
Proof. reflexivity. Qed.
Lemma calls_report e w : calls (report e w) = calls w.
Proof. reflexivity. Qed.
Lemma uncaught_report e w : uncaught (report e w) = (uncaught w ++ [e])%list.
Proof. reflexivity. Qed.
Lemma elements_act s b w : elements (act s b w) = elements w.
Proof. unfold act. by destruct (handles w !! s). Qed.
Lemma elements_logged c w : elements (logged c w) = elements w.
Proof. reflexivity. Qed.
Lemma elements_report e w : elements (report e w) = elements w.
Proof. reflexivity. Qed.

#[local] Hint Rewrite output_upd output_act output_logged output_report calls_logged
  calls_report uncaught_report elements_act elements_logged elements_report : world.

(** ** The sensor handlers after set-up *)

Lemma onerror_text k c e :
  onerror k c e
  = (innerText (message c) (failed_prefix k +:+ e);;
     set_disabled (buttonStart c) false;;
     set_disabled (buttonStop c) true).
Proof. destruct k; reflexivity. Qed.

Lemma set_up_reached nts h k w c w1 evs :
  sensor_handler h k w = (Normal (Some c), w1) →
  wired c (foldl (sensor_step nts h k c) w1 evs).
Proof.
  intros H. apply wired_steps. eapply set_up_wired, sensor_handler_set_up, H.
Qed.

Lemma click_Stop_stops c s w :
  wired c w → sensor c = Some s → is_disabled w (buttonStop c) = false →
  let w' := click (buttonStop c) (buttonStop_onclick c None) w in
  is_activated w' s = false
  ∧ is_disabled w' (buttonStart c) = false
  ∧ is_disabled w' (buttonStop c) = true
  ∧ children_of w' (message c)
    = (children_of w (message c) ++ [Markup "<div>Sensor stopped!</div>"])%list
  ∧ calls w' = (calls w ++ [stop s])%list
  ∧ uncaught w' = uncaught w.
Proof.
  intros H Hs D. cbn zeta. unfold click. rewrite D.
  unfold buttonStop_onclick, run_to_completion, Sensor_stop. rewrite Hs. js_world.
  destruct H as [Hss Hsm Hpm [eS HeS] [eP HeP] [eM HeM] Hsen _ _].
  destruct (Hsen s Hs) as [x Hx].
  autorewrite with world. cbn. rewrite ?Hx, ?HeS, ?HeP, ?HeM.
  repeat (case_decide; try congruence). cbn.
  unfold children_of at 1. rewrite HeM. repeat split.
Qed.

Lemma error_event_idles k c s e w :
  wired c w → sensor c = Some s →
  let w' := run_to_completion (set_activated s false;; onerror k c e) w in
  is_activated w' s = false
  ∧ is_disabled w' (buttonStart c) = false
  ∧ is_disabled w' (buttonStop c) = true
  ∧ children_of w' (message c) = [TextNode (failed_prefix k +:+ e)]
  ∧ calls w' = calls w
  ∧ uncaught w' = uncaught w.
Proof.
  intros H Hs. cbn zeta. rewrite onerror_text. unfold run_to_completion. js_world.
  destruct H as [Hss Hsm Hpm [eS HeS] [eP HeP] [eM HeM] Hsen _ _].
  destruct (Hsen s Hs) as [x Hx].
  autorewrite with world. cbn. rewrite ?Hx, ?HeS, ?HeP, ?HeM.
  repeat (case_decide; try congruence).
  destruct k; cbn; repeat split.
Qed.

Lemma mirrors_step nts h k c s w ev :
  wired c w → sensor c = Some s → mirrors c s w →
  mirrors c s (sensor_step nts h k c w ev).
Proof.
  intros H Hs [Ms Mp].
  destruct ev as [outcome|outcome|a|e]; cbn [sensor_step]; rewrite ?Hs.
  - unfold click. destruct (is_disabled w (buttonStart c)) eqn:D; [split; congruence|].
    destruct outcome as [e|].
    + unfold buttonStart_onclick, run_to_completion, Sensor_start. rewrite Hs. js_world.
      destruct H as [Hss Hsm Hpm [eS HeS] [eP HeP] [eM HeM] Hsen _ _].
      split; autorewrite with world; repeat (case_decide; try congruence).
    + destruct (click_Start_starts c s w H Hs D) as (Ha & Ds & Dp).
      unfold click in Ha, Ds, Dp. rewrite D in Ha, Ds, Dp.
      split; rewrite ?Ha, ?Ds, ?Dp; reflexivity.
  - unfold click. destruct (is_disabled w (buttonStop c)) eqn:D; [split; congruence|].
    destruct outcome as [e|].
    + unfold buttonStop_onclick, run_to_completion, Sensor_stop. rewrite Hs. js_world.
      destruct H as [Hss Hsm Hpm [eS HeS] [eP HeP] [eM HeM] Hsen _ _].
      split; autorewrite with world; repeat (case_decide; try congruence).
    + destruct (click_Stop_stops c s w H Hs D) as (Ha & Ds & Dp & _).
      unfold click in Ha, Ds, Dp. rewrite D in Ha, Ds, Dp.
      split; rewrite ?Ha, ?Ds, ?Dp; reflexivity.
  - pose proof (wired_reading nts h k c a w H) as _.
    unfold run_to_completion.
    destruct k; cbn [onreading];
      unfold accelerometer_onreading, linearAcceleration_onreading, gyroscope_onreading,
        gravity_onreading, magnetometer_onreading, ambientLight_onreading,
        absoluteOrientation_onreading, relativeOrientation_onreading, free_identifier;
      js_world;
      repeat (case_match; rewrite ?update_element_run in *; simplify_eq; js_world);
      destruct H as [Hss Hsm Hpm _ _ _ _ _ _];
      (split; autorewrite with world; repeat (case_decide; try congruence);
       assumption).
  - destruct (error_event_idles k c s e w H Hs) as (Ha & Ds & Dp & _).
    split; rewrite ?Ha, ?Ds, ?Dp; reflexivity.
Qed.

Lemma mirrors_steps nts h k c s evs w :
  wired c w → sensor c = Some s → mirrors c s w →
  mirrors c s (foldl (sensor_step nts h k c) w evs).
Proof.
  revert w. induction evs as [|ev evs IH]; intros w H Hs M; cbn [foldl]; [exact M|].
  apply IH; [by apply wired_step|exact Hs|by apply mirrors_step].
Qed.

Lemma set_up_mirrors h k w c w1 s :
  set_up h k w c w1 → sensor c = Some s → mirrors c s w1.
Proof.
  intros [_ _ _ Hs Hp Hm _ _ Hc] Hsen.
  destruct (constructor h (interface_name k)) as [e|];
    destruct Hc as (Hsens & Hh & He); [congruence|].
  rewrite Hsens in Hsen. injection Hsen as <-.
  split; unfold is_disabled, is_activated; rewrite He, Hh, ?Hs, ?Hp;
    rewrite !lookup_app_r by lia;
    rewrite ?Nat.sub_diag;
    replace (length (elements w) + 0 - length (elements w))%nat with 0%nat by lia;
    replace (length (elements w) + 1 - length (elements w))%nat with 1%nat by lia;
    reflexivity.
Qed.

Lemma no_sensor_step nts h k c w ev :
  sensor c = None →
  is_disabled w (buttonStart c) = true → is_disabled w (buttonStop c) = true →
  sensor_step nts h k c w ev = w.
Proof.
  intros Hs Ds Dp. destruct ev; cbn [sensor_step]; unfold click; rewrite ?Hs, ?Ds, ?Dp;
    reflexivity.
Qed.

Lemma reading_complete_writes nts h k c a w :
  reading_complete k a = true →
  ∃ markup,
    run_to_completion (onreading nts h k c a) w
    = upd (message c)
        (λ e, {| tag := tag e; children := [Markup markup]; disabled := disabled e;
                 value := value e |}) w.
Proof.
  intros Hc. unfold run_to_completion.
  destruct a as [x y z q lux].
  destruct k; cbn in Hc; try discriminate Hc;
    cbn [onreading];
    unfold accelerometer_onreading, linearAcceleration_onreading, gyroscope_onreading,
      gravity_onreading, magnetometer_onreading,
      absoluteOrientation_onreading, relativeOrientation_onreading;
    cbn [Sensor.x Sensor.y Sensor.z Sensor.quaternion];
    destruct x, y, z, q; cbn in Hc; try discriminate Hc;
    js_world; eexists; reflexivity.
Qed.

Lemma reading_incomplete_throws nts h k c a w :
  k ≠ AmbientLightSensor →
  reading_complete k a = false →
  ∃ property,
    run_to_completion (onreading nts h k c a) w = report (TypeError "null" property) w
    ∧ (property = "toFixed" ∨ property = "forEach").
Proof.
  intros Hk Hc. unfold run_to_completion.
  destruct a as [x y z q lux].
  destruct k; try congruence; cbn in Hc;
    cbn [onreading];
    unfold accelerometer_onreading, linearAcceleration_onreading, gyroscope_onreading,
      gravity_onreading, magnetometer_onreading,
      absoluteOrientation_onreading, relativeOrientation_onreading;
    cbn [Sensor.x Sensor.y Sensor.z Sensor.quaternion];
    destruct x, y, z, q; cbn in Hc; try discriminate Hc;
    js_world; eexists; (split; [reflexivity|]); auto.
Qed.

Lemma sensor_handler_runs h k w :
  has (window h) (interface_name k) = true →
  has (navigator h) "permissions" = true →
  Forall (λ p, permission h p = Fulfilled "granted") (required_permissions k) →
  ∃ c w1, sensor_handler h k w = (Normal (Some c), w1).
Proof.
  intros Hw Hn Hg. destruct w as [o es hs cs u].
  destruct k; cbn [sensor_handler interface_name required_permissions] in *;
    unfold_handlers; js_unfold; cbn; rewrite Hw, Hn; cbn;
    repeat match goal with
    | H : Forall _ (_ :: _) |- _ =>
        let Hp := fresh "Hp" in
        apply Forall_cons in H; destruct H as [Hp H]; rewrite Hp; cbn
    end;
    rewrite helper_elements_run;
    (destruct (constructor h _) as [e|]);
    js_step; eauto.
Qed.

Lemma sensor_handler_rejected (h : host) (k : sensor_interface) (w : world) (p e : string) :
  has (window h) (interface_name k) = true →
  has (navigator h) "permissions" = true →
  first_ungranted h (required_permissions k) = Some p →
  permission h p = Rejected e →
  ∃ w', sensor_handler h k w = (Throw e, w')
    ∧ output w' = output w
    ∧ elements w' = elements w
    ∧ handles w' = handles w
    ∧ uncaught w' = uncaught w
    ∧ new (interface_name k) ∉ calls_since w w'.
Proof.
  intros Hw Hn Hf Hp. destruct w as [o es hs cs u].
  destruct k; cbn [sensor_handler interface_name required_permissions] in *;
    unfold_handlers; unfold first_ungranted, granted in Hf;
    js_unfold; cbn; rewrite Hw, Hn; cbn;
    repeat (next_permission h; rewrite ?Hperm, ?Hperm0, ?Hperm1 in Hf; cbn in Hf;
            try match type of Hf with
                | context [String.eqb ?s "granted"] =>
                    replace (String.eqb s "granted") with false in Hf
                      by (symmetry; by apply String.eqb_neq)
                end);
    try discriminate Hf;
    try (injection Hf as <-; congruence);
    injection Hf as <-;
    match goal with
    | H : permission h _ = Rejected ?b |- _ =>
        tryif constr_eq b e then fail else (assert (b = e) as -> by congruence)
    end;
    (eexists; split; [reflexivity|]);
    cbn; unfold calls_since; cbn; rewrite <- ?app_assoc, ?drop_app_length; cbn [app];
    repeat split; try not_in_list.
Qed.

(** ** Properties of the sensor handlers *)

(** X1. Stop returns a sensor handler to idle: after any events, a click
    on an enabled Stop whose [stop()] returns calls [stop()] once, leaves
    the sensor stopped, Start enabled and Stop disabled, and puts
    ['Sensor stopped!'] after what the message held. *)
Theorem stop_returns_the_handler_to_idle (number_to_string : float → string)
    (h : host) (k : sensor_interface) (w : world) (c : controls) (w1 : world)
    (s : nat) (evs : list sensor_event) :
  sensor_handler h k w = (Normal (Some c), w1) →
  sensor c = Some s →
  let step := sensor_step number_to_string h k c in
  let wn := foldl step w1 evs in
  is_disabled wn (buttonStop c) = false →
  let w' := step wn (click_Stop None) in
  is_activated w' s = false
  ∧ is_disabled w' (buttonStart c) = false
  ∧ is_disabled w' (buttonStop c) = true
  ∧ children_of w' (message c)
    = (children_of wn (message c) ++ [Markup "<div>Sensor stopped!</div>"])%list
  ∧ calls w' = (calls wn ++ [stop s])%list
  ∧ uncaught w' = uncaught wn.
Proof.
  intros Hrun Hs step wn D.
  apply (click_Stop_stops c s wn); [by eapply set_up_reached|exact Hs|exact D].
Qed.

(** The accelerometer started and then stopped. *)
Lemma stop_returns_the_handler_to_idle_witness :
  let h := sensor_host "" in
  let step := sensor_step no_digits h Accelerometer first_controls in
  let w1 := snd (sensor_handler h Accelerometer page_loaded) in
  let w2 := step w1 (click_Start None) in
  let w3 := step w2 (click_Stop None) in
  is_activated w3 0 = false
  ∧ is_disabled w3 0 = false
  ∧ is_disabled w3 1 = true
  ∧ children_of w3 2 = [Markup "<div>Sensor stopped!</div>"]
  ∧ calls w3 = (calls w2 ++ [stop 0])%list
  ∧ uncaught w3 = [].
Proof.
  cbv zeta.
  destruct (stop_returns_the_handler_to_idle no_digits (sensor_host "") Accelerometer
              page_loaded first_controls
              (snd (sensor_handler (sensor_host "") Accelerometer page_loaded)) 0
              [click_Start None])
    as (Ha & Ds & Dp & Hm & Hc & Hu); [vm_compute; reflexivity..|].
  cbn [foldl] in *.
  refine (conj Ha (conj Ds (conj Dp (conj _ (conj Hc _))))).
  - etrans; [exact Hm|]. vm_compute. reflexivity.
  - etrans; [exact Hu|]. vm_compute. reflexivity.
Defined.

(** X2. An error reported by the platform returns a sensor handler to
    idle: after any events, the [error] event leaves the sensor stopped,
    Start enabled, Stop disabled and ['<Interface> failed: ' + error] as
    the whole text of the message; no platform call is made and nothing
    reaches the global handler. *)
Theorem error_event_returns_the_handler_to_idle (number_to_string : float → string)
    (h : host) (k : sensor_interface) (w : world) (c : controls) (w1 : world)
    (s : nat) (evs : list sensor_event) (error : string) :
  sensor_handler h k w = (Normal (Some c), w1) →
  sensor c = Some s →
  let step := sensor_step number_to_string h k c in
  let wn := foldl step w1 evs in
  let w' := step wn (error_event error) in
  is_activated w' s = false
  ∧ is_disabled w' (buttonStart c) = false
  ∧ is_disabled w' (buttonStop c) = true
  ∧ children_of w' (message c) = [TextNode (failed_prefix k +:+ error)]
  ∧ calls w' = calls wn
  ∧ uncaught w' = uncaught wn.
Proof.
  intros Hrun Hs step wn. subst step. cbn zeta. cbn [sensor_step]. rewrite Hs.
  apply (error_event_idles k c s error wn); [by eapply set_up_reached|exact Hs].
Qed.

(** The gyroscope started, then an error. *)
Lemma error_event_returns_the_handler_to_idle_witness :
  let h := sensor_host "" in
  let step := sensor_step no_digits h Gyroscope first_controls in
  let w1 := snd (sensor_handler h Gyroscope page_loaded) in
  let w2 := step w1 (click_Start None) in
  let w3 := step w2 (error_event "NotReadableError") in
  is_activated w3 0 = false
  ∧ is_disabled w3 0 = false
  ∧ is_disabled w3 1 = true
  ∧ children_of w3 2 = [TextNode "Gyroscope failed: NotReadableError"]
  ∧ calls w3 = calls w2
  ∧ uncaught w3 = [].
Proof.
  cbv zeta.
  destruct (error_event_returns_the_handler_to_idle no_digits (sensor_host "") Gyroscope
              page_loaded first_controls
              (snd (sensor_handler (sensor_host "") Gyroscope page_loaded)) 0
              [click_Start None] "NotReadableError")
    as (Ha & Ds & Dp & Hm & Hc & Hu); [vm_compute; reflexivity..|].
  cbn [foldl] in *.
  refine (conj Ha (conj Ds (conj Dp (conj Hm (conj Hc _))))).
  etrans; [exact Hu|]. vm_compute. reflexivity.
Defined.

(** X3. The buttons of a sensor handler show the state of its sensor:
    after any clicks, readings and errors, Start is disabled exactly
    while the sensor runs and Stop exactly while it does not, so that
    one and only one of the two is enabled. *)
Theorem buttons_mirror_the_sensor (number_to_string : float → string)
    (h : host) (k : sensor_interface) (w : world) (c : controls) (w1 : world)
    (s : nat) (evs : list sensor_event) :
  sensor_handler h k w = (Normal (Some c), w1) →
  sensor c = Some s →
  let wn := foldl (sensor_step number_to_string h k c) w1 evs in
  is_disabled wn (buttonStart c) = is_activated wn s
  ∧ is_disabled wn (buttonStop c) = negb (is_activated wn s)
  ∧ is_disabled wn (buttonStop c) = negb (is_disabled wn (buttonStart c)).
Proof.
  intros Hrun Hs wn.
  pose proof (sensor_handler_set_up _ _ _ _ _ Hrun) as Hsu.
  destruct (mirrors_steps number_to_string h k c s evs w1) as [Ms Mp];
    [by eapply set_up_wired|exact Hs|by eapply set_up_mirrors|].
  subst wn. rewrite Ms, Mp. auto.
Qed.

(** The magnetometer through a start that throws, a start, a reading, a
    stop that throws and an error. *)
Lemma buttons_mirror_the_sensor_witness :
  let h := sensor_host "" in
  let a := {| Sensor.x := Some 1%float; Sensor.y := None; Sensor.z := Some 3%float;
              Sensor.quaternion := None; Sensor.illuminance := None |} in
  let evs := [click_Start (Some "NotAllowedError"); click_Start None; reading_event a;
              click_Stop (Some "InvalidStateError")] in
  let wn := foldl (sensor_step no_digits h Magnetometer first_controls)
              (snd (sensor_handler h Magnetometer page_loaded)) evs in
  is_disabled wn 0 = is_activated wn 0
  ∧ is_disabled wn 1 = negb (is_activated wn 0)
  ∧ is_disabled wn 1 = negb (is_disabled wn 0).
Proof.
  cbv zeta.
  exact (buttons_mirror_the_sensor no_digits (sensor_host "") Magnetometer page_loaded
           first_controls (snd (sensor_handler (sensor_host "") Magnetometer page_loaded)) 0
           _ ltac:(vm_compute; reflexivity) ltac:(vm_compute; reflexivity)).
Defined.

(** X4. A sensor handler whose constructor threw is dead: it has no
    sensor, Start and Stop are disabled, and no click, reading or error
    changes anything any more. *)
Theorem failed_construction_is_terminal (number_to_string : float → string)
    (h : host) (k : sensor_interface) (w : world) (c : controls) (w1 : world)
    (e : string) (evs : list sensor_event) :
  constructor h (interface_name k) = Some e →
  sensor_handler h k w = (Normal (Some c), w1) →
  sensor c = None
  ∧ is_disabled w1 (buttonStart c) = true
  ∧ is_disabled w1 (buttonStop c) = true
  ∧ foldl (sensor_step number_to_string h k c) w1 evs = w1.
Proof.
  intros Hc Hrun.
  pose proof (sensor_handler_set_up _ _ _ _ _ Hrun) as Hsu.
  pose proof (set_up_wired _ _ _ _ _ Hsu) as Hw.
  assert (Hs : sensor c = None).
  { destruct Hsu as [_ _ _ _ _ _ _ _ H]. rewrite Hc in H. apply H. }
  destruct (wired_no_sensor _ _ Hw Hs) as [Ds Dp].
  repeat split; auto.
  induction evs as [|ev evs IH]; cbn [foldl]; [reflexivity|].
  rewrite no_sensor_step by assumption. exact IH.
Qed.

(** The accelerometer where the constructor throws. *)
Lemma failed_construction_is_terminal_witness :
  let c := {| buttonStart := 0; buttonStop := 1; message := 2; sensor := None |} in
  let w1 := snd (sensor_handler throwing_host Accelerometer page_loaded) in
  is_disabled w1 0 = true
  ∧ is_disabled w1 1 = true
  ∧ foldl (sensor_step no_digits throwing_host Accelerometer c) w1
      [click_Start None; click_Stop None; error_event "x"] = w1.
Proof.
  cbv zeta.
  destruct (failed_construction_is_terminal no_digits throwing_host Accelerometer page_loaded
              {| buttonStart := 0; buttonStop := 1; message := 2; sensor := None |}
              (snd (sensor_handler throwing_host Accelerometer page_loaded))
              "SecurityError" [click_Start None; click_Stop None; error_event "x"])
    as (_ & Ds & Dp & Hf); [vm_compute; reflexivity..|].
  exact (conj Ds (conj Dp Hf)).
Defined.

(** X5. A reading replaces the message and touches nothing else: in the
    handlers of the seven sensors with axes or a quaternion, after any
    events, a reading whose attributes are there leaves one markup node
    as the whole message, and the buttons, the sensor, the output, the
    calls and the uncaught errors as they were; a reading with a [null]
    attribute changes nothing but for the TypeError that reaches the
    global handler. *)
Theorem reading_replaces_the_message (number_to_string : float → string)
    (h : host) (k : sensor_interface) (w : world) (c : controls) (w1 : world)
    (s : nat) (evs : list sensor_event) (a : Sensor.attributes) :
  sensor_handler h k w = (Normal (Some c), w1) →
  sensor c = Some s →
  k ≠ AmbientLightSensor →
  let step := sensor_step number_to_string h k c in
  let wn := foldl step w1 evs in
  let w' := step wn (reading_event a) in
  if reading_complete k a then
    (∃ markup, children_of w' (message c) = [Markup markup])
    ∧ is_disabled w' (buttonStart c) = is_disabled wn (buttonStart c)
    ∧ is_disabled w' (buttonStop c) = is_disabled wn (buttonStop c)
    ∧ handles w' = handles wn
    ∧ output w' = output wn
    ∧ calls w' = calls wn
    ∧ uncaught w' = uncaught wn
  else
    ∃ property,
      w' = report (TypeError "null" property) wn
      ∧ (property = "toFixed" ∨ property = "forEach").
Proof.
  intros Hrun Hs Hk step wn. subst step. cbn zeta. cbn [sensor_step]. rewrite Hs.
  pose proof (set_up_reached number_to_string h k w c w1 evs Hrun) as Hw. fold wn in Hw.
  destruct (reading_complete k a) eqn:Hc.
  - destruct (reading_complete_writes number_to_string h k c a wn Hc) as [markup ->].
    destruct Hw as [Hss Hsm Hpm _ _ [eM HeM] _ _ _].
    autorewrite with world. rewrite HeM. cbn.
    repeat (case_decide; try congruence).
    repeat split. by exists markup.
  - by apply reading_incomplete_throws.
Qed.

(** The accelerometer with a reading that has its three axes. *)
Lemma reading_replaces_the_message_witness :
  let h := sensor_host "" in
  let step := sensor_step no_digits h Accelerometer first_controls in
  let w1 := snd (sensor_handler h Accelerometer page_loaded) in
  let w2 := step w1 (click_Start None) in
  let w3 := step w2 (reading_event
              {| Sensor.x := Some 0.125%float; Sensor.y := Some 9.81%float;
                 Sensor.z := Some (-1.005)%float;
                 Sensor.quaternion := None; Sensor.illuminance := None |}) in
  (∃ markup, children_of w3 2 = [Markup markup])
  ∧ is_disabled w3 0 = is_disabled w2 0
  ∧ is_disabled w3 1 = is_disabled w2 1
  ∧ handles w3 = handles w2
  ∧ output w3 = output w2
  ∧ calls w3 = calls w2
  ∧ uncaught w3 = uncaught w2.
Proof.
  cbv zeta.
  pose proof (reading_replaces_the_message no_digits (sensor_host "") Accelerometer page_loaded
           first_controls (snd (sensor_handler (sensor_host "") Accelerometer page_loaded)) 0
           [click_Start None]
           {| Sensor.x := Some 0.125%float; Sensor.y := Some 9.81%float;
              Sensor.z := Some (-1.005)%float;
              Sensor.quaternion := None; Sensor.illuminance := None |}) as H.
  cbn [foldl reading_complete Sensor.x Sensor.y Sensor.z is_Some bool_decide] in H.
  apply H; [vm_compute; reflexivity | vm_compute; reflexivity | discriminate].
Defined.

(** X6. A sensor handler whose checks pass sets its panel up: when the
    interface and the permissions API are there and every permission of
    the handler is granted, the handler returns its controls, having
    appended Start, Stop and the message to the output in that order and
    reported nothing.  Stop is disabled; Start is enabled exactly when
    the sensor could be constructed, and then the sensor is not running
    and the message is empty; when the constructor threw, the message
    is ['<Interface> error: ' + error]. *)
Theorem granted_sensor_is_set_up (h : host) (k : sensor_interface) (w : world) :
  has (window h) (interface_name k) = true →
  has (navigator h) "permissions" = true →
  Forall (λ p, permission h p = Fulfilled "granted") (required_permissions k) →
  ∃ c w1,
    sensor_handler h k w = (Normal (Some c), w1)
    ∧ output w1 = (output w ++ [Child (buttonStart c); Child (buttonStop c);
                                Child (message c)])%list
    ∧ children_of w1 (buttonStart c) = [TextNode "Start"]
    ∧ children_of w1 (buttonStop c) = [TextNode "Stop"]
    ∧ is_disabled w1 (buttonStop c) = true
    ∧ uncaught w1 = uncaught w
    ∧ match constructor h (interface_name k) with
      | None =>
          ∃ s, sensor c = Some s
               ∧ is_activated w1 s = false
               ∧ is_disabled w1 (buttonStart c) = false
               ∧ children_of w1 (message c) = []
      | Some e =>
          sensor c = None
          ∧ is_disabled w1 (buttonStart c) = true
          ∧ children_of w1 (message c) = [TextNode (interface_name k +:+ " error: " +:+ e)]
      end.
Proof.
  intros Hw Hn Hg.
  destruct (sensor_handler_runs h k w Hw Hn Hg) as (c & w1 & Hrun).
  exists c, w1. split; [exact Hrun|].
  destruct (sensor_handler_set_up _ _ _ _ _ Hrun) as [_ _ _ Hs Hp Hm Ho Hu Hc].
  split; [exact Ho|].
  unfold children_of, is_disabled, is_activated.
  destruct (constructor h (interface_name k)) as [e|];
    [destruct Hc as (Hsen & Hh & He)|destruct Hc as (Hsen & Hh & He)];
    rewrite He, ?Hh, Hs, Hp, Hm;
    rewrite !lookup_app_r by lia;
    replace (length (elements w) + 0 - length (elements w))%nat with 0%nat by lia;
    replace (length (elements w) + 1 - length (elements w))%nat with 1%nat by lia;
    replace (length (elements w) + 2 - length (elements w))%nat with 2%nat by lia;
    cbn.
  - repeat split; assumption.
  - repeat split; try assumption.
    eexists; split; [exact Hsen|]. rewrite lookup_app_r, Nat.sub_diag by lia. cbn. auto.
Qed.

(** The gyroscope on a host that grants everything. *)
Lemma granted_sensor_is_set_up_witness :
  ∃ c w1,
    sensor_handler (sensor_host "") Gyroscope page_loaded = (Normal (Some c), w1)
    ∧ output w1 = [Child (buttonStart c); Child (buttonStop c); Child (message c)]
    ∧ children_of w1 (buttonStart c) = [TextNode "Start"]
    ∧ children_of w1 (buttonStop c) = [TextNode "Stop"]
    ∧ is_disabled w1 (buttonStop c) = true
    ∧ uncaught w1 = []
    ∧ ∃ s, sensor c = Some s
           ∧ is_activated w1 s = false
           ∧ is_disabled w1 (buttonStart c) = false
           ∧ children_of w1 (message c) = [].
Proof.
  refine (granted_sensor_is_set_up (sensor_host "") Gyroscope page_loaded
            eq_refl eq_refl _).
  repeat constructor.
Defined.

(** X7. A rejected permission query ends a sensor handler without a
    word: when the interface and the permissions API are there and the
    query for the first permission that is not granted is rejected (the
    browser does not know the name), selecting the sensor leaves the
    output empty, makes no element and constructs no sensor, and the
    reason of the rejection reaches the global handler. *)
Theorem rejected_query_is_unhandled (number_to_string : float → string) (h : host)
    (k : sensor_interface) (w : world) (p e : string) :
  has (window h) (interface_name k) = true →
  has (navigator h) "permissions" = true →
  first_ungranted h (required_permissions k) = Some p →
  permission h p = Rejected e →
  let w' := change number_to_string h (tag_of (SensorFeature k)) w in
  output w' = []
  ∧ elements w' = elements w
  ∧ handles w' = handles w
  ∧ uncaught w' = (uncaught w ++ [e])%list
  ∧ new (interface_name k) ∉ calls_since w w'.
Proof.
  intros Hw Hn Hf Hp. cbv zeta. rewrite change_invokes.
  cbn [invoke]. unfold async, run_to_completion at 1. cbn.
  destruct (sensor_handler_rejected h k (cleared w) p e Hw Hn Hf Hp)
    as (w' & Hrun & Ho & He & Hh & Hu & Hnew).
  unfold run_to_completion. rewrite Hrun. unfold report. cbn.
  rewrite Hu. auto.
Qed.

(** The accelerometer where every query is rejected. *)
Lemma rejected_query_is_unhandled_witness :
  let w' := change no_digits rejecting_host "accelerometer" page_loaded in
  output w' = []
  ∧ elements w' = []
  ∧ handles w' = []
  ∧ uncaught w' = ["TypeError"]
  ∧ new "Accelerometer" ∉ calls_since page_loaded w'.
Proof.
  exact (rejected_query_is_unhandled no_digits rejecting_host Accelerometer page_loaded
           "accelerometer" "TypeError" eq_refl eq_refl eq_refl eq_refl).
Defined.

Arguments values : simpl never.

Lemma update_element_at_end f x o es l hs cs u :
  update_element (length es + length l) f
    {| output := o; elements := es ++ (l ++ [x]); handles := hs; calls := cs; uncaught := u |}
  = (Normal tt,
     {| output := o; elements := es ++ (l ++ [f x]); handles := hs; calls := cs; uncaught := u |}).
Proof.
  erewrite update_element_framed by (rewrite lookup_app_r, Nat.sub_diag by lia; reflexivity).
  rewrite insert_app_r_alt, Nat.sub_diag by lia. reflexivity.
Qed.

Lemma update_element_within k f e x o es l hs cs u :
  l !! k = Some e →
  update_element (length es + k) f
    {| output := o; elements := es ++ (l ++ [x]); handles := hs; calls := cs; uncaught := u |}
  = (Normal tt,
     {| output := o; elements := es ++ (<[k := f e]> l ++ [x]); handles := hs; calls := cs;
        uncaught := u |}).
Proof.
  intros H. pose proof (lookup_lt_Some _ _ _ H).
  erewrite update_element_framed by (rewrite lookup_app_l by lia; exact H).
  rewrite insert_app_l by lia. reflexivity.
Qed.

Lemma for_of_framed {A} (body : A → js unit) (g : A → element) (add : nat → element → element)
    k es hs cs u :
  (∀ val o l e, l !! k = Some e →
     body val {| output := o; elements := es ++ l; handles := hs; calls := cs; uncaught := u |}
     = (Normal tt,
        {| output := o; elements := es ++ (<[k := add (length es + length l) e]> l ++ [g val]);
           handles := hs; calls := cs; uncaught := u |})) →
  ∀ vals o l e, l !! k = Some e →
    for_of vals body
      {| output := o; elements := es ++ l; handles := hs; calls := cs; uncaught := u |}
    = (Normal tt,
       {| output := o;
          elements := es ++ (<[k := foldl (λ e i, add i e) e
                                      (seq (length es + length l) (length vals))]> l
                             ++ map g vals);
          handles := hs; calls := cs; uncaught := u |}).
Proof.
  intros Hbody vals. induction vals as [|val rest IH]; intros o l e Hl.
  - cbn. rewrite list_insert_id by exact Hl. rewrite app_nil_r. reflexivity.
  - pose proof (lookup_lt_Some _ _ _ Hl) as Hk.
    cbn [for_of]. cbv [mbind js_bind]. rewrite (Hbody val o l e Hl).
    erewrite IH
      by (rewrite lookup_app_l by (rewrite length_insert; lia);
          apply list_lookup_insert_eq; lia).
    rewrite length_app, length_insert. cbn [length seq foldl map].
    rewrite insert_app_l by (rewrite length_insert; lia).
    rewrite list_insert_insert_eq, <- app_assoc.
    replace (length es + (length l + 1))%nat with (S (length es + length l)) by lia.
    reflexivity.
Qed.

Lemma handlePermissionsAPI_run h o es hs cs u :
  has (navigator h) "permissions" = true →
  handlePermissionsAPI h
    {| output := o; elements := es; handles := hs; calls := cs; uncaught := u |}
  = (Normal tt,
     {| output := o ++ [Child (length es); Child (length es + 28)];
        elements := es ++ (selectElement (length es + 1) :: placeholder
                           :: map option_element values
                           ++ [messageDiv [TextNode "Select a permission above."]]);
        handles := hs;
        calls := cs ++ [console_log "Navigator:"; console_log "Permissions:";
                        addEventListener (OnElement (length es)) "change"];
        uncaught := u |}).
Proof.
  intros Hn. rewrite <- (app_nil_r es) at 1.
  unfold handlePermissionsAPI. js_unfold. rewrite Hn.
  js_step.
  match goal with
  | |- context [for_of values ?b ?w] =>
      rewrite (for_of_framed b option_element
                 (λ i e, {| tag := tag e; children := children e ++ [Child i];
                            disabled := disabled e; value := value e |})
                 0 es hs _ u)
        with (e := {| tag := SELECT; children := [Child (length es + 1)]; disabled := false;
                      value := "" |})
  end.
  - js_step.
    rewrite ?update_element_at_end. js_step.
    rewrite <- !app_assoc. 
    unfold selectElement, placeholder, messageDiv.
    repeat f_equal; try (vm_compute; reflexivity); try (cbn; lia).
    + rewrite Nat.add_0_r. reflexivity.
    + replace (length es + 2)%nat with (S (length es + 1)) by lia. reflexivity.
  - intros val o' l e Hl.
    rewrite createElement_framed.
    rewrite !update_element_at_end.
    erewrite update_element_within by exact Hl.
    reflexivity.
  - reflexivity.
Qed.

(** ** What the dispatcher leaves alone *)

Ltac extends_solve :=
  cbn; unfold calls_since; cbn;
  rewrite ?app_nil_r, <- ?app_assoc, ?drop_app_length, ?drop_all; cbn [app];
  split; cbn;
  [ eexists; first [ reflexivity | symmetry; apply app_nil_r ]
  | eexists; first [ reflexivity | symmetry; apply app_nil_r ]
  | eexists; first [ reflexivity | symmetry; apply app_nil_r ]
  | eexists; first [ reflexivity | symmetry; apply app_nil_r ]
  | rewrite ?drop_app_length, ?drop_all; reflexivity
  | eexists; split;
    [ first [ left; reflexivity | left; symmetry; apply app_nil_r | right; reflexivity ]
    | repeat constructor; cbn; lia ] ].

Lemma sensor_handler_extends h k w :
  ∃ r w', sensor_handler h k w = (r, w') ∧ extends w w' ∧ uncaught w' = uncaught w.
Proof.
  destruct w as [o es hs cs u].
  destruct k; cbn [sensor_handler]; unfold_handlers; js_unfold; cbn;
    repeat match goal with
    | |- context [has ?o ?n] => destruct (has o n); cbn
    end;
    try (do 2 eexists; split; [reflexivity|]; split; [extends_solve|reflexivity]; fail);
    repeat match goal with
    | |- context [permission h ?p] =>
        let st := fresh "st" in
        destruct (permission h p) as [st|?]; cbn;
        [destruct (String.eqb st "granted"); cbn|]
    end;
    try (do 2 eexists; split; [reflexivity|]; split; [extends_solve|reflexivity]; fail);
    rewrite helper_elements_run; cbn [interface_name];
    (destruct (constructor h _) as [e|]);
    js_step;
    (do 2 eexists; split; [reflexivity|]); (split; [extends_solve|reflexivity]).
Qed.

Lemma extends_report e w w' :
  extends w w' → uncaught w' = uncaught w → extends w (report e w').
Proof.
  intros [He Hh Hc Hu Hq Ho] Hsame.
  split; unfold report, calls_since in *; cbn; try assumption. rewrite Hsame. by eexists.
Qed.

Lemma invoke_extends nts h f o es hs cs u :
  let w := {| output := o; elements := es ++ []; handles := hs; calls := cs; uncaught := u |} in
  ∃ w', invoke nts h f w = (Normal tt, w') ∧ extends w w'.
Proof.
  intros w.
  destruct f as [| | | | | | | | | | |k].
  12: {
    cbn [invoke]. unfold async, run_to_completion.
    destruct (sensor_handler_extends h k w) as (r & w' & -> & He & Hu).
    destruct r as [x|e]; (eexists; split; [reflexivity|]);
      [exact He|by apply extends_report]. }
  11: {
    subst w. cbn [invoke]. destruct (has (navigator h) "permissions") eqn:Hn.
    - rewrite handlePermissionsAPI_run by exact Hn.
      (eexists; split; [reflexivity|]); extends_solve.
    - unfold handlePermissionsAPI. js_unfold. rewrite Hn. cbn.
      (eexists; split; [reflexivity|]); extends_solve. }
  all: subst w; cbn [invoke];
    unfold handleBatteryStatusAPI, handleNetworkInformation, handleScreenOrientationAPI,
      handleFullscreenAPI, handleVibrationAPI, handleBadgingAPI,
      handlePageVisibility, handleIdleDetectionAPI, handleScreenWakeLockAPI,
      handleGeolocationAPI, writeNetworkInfo;
    js_unfold; cbn;
    repeat match goal with
    | |- context [has ?o ?n] => destruct (has o n); cbn
    | |- context [fullscreenEnabled ?b] => destruct (fullscreenEnabled b); cbn
    end;
    js_step;
    (eexists; split; [reflexivity|]); extends_solve.
Qed.

(** X8. Selecting a feature takes nothing back.  Whatever is selected,
    in whatever state the page is, the dispatcher and the handler it
    calls leave every element and every platform object made before as
    they are, and call neither [start()] nor [stop()]: a sensor that
    runs when the selection changes keeps running, while the output
    holds none of the elements made before, its buttons among them. *)
Theorem selecting_keeps_what_was_made (number_to_string : float → string) (h : host)
    (selectedOption : string) (w : world) :
  let w' := change number_to_string h selectedOption w in
  elements w `prefix_of` elements w'
  ∧ handles w `prefix_of` handles w'
  ∧ calls w `prefix_of` calls w'
  ∧ uncaught w `prefix_of` uncaught w'
  ∧ starts_and_stops (calls_since w w') = []
  ∧ (∀ s, is_activated w s = true → is_activated w' s = true)
  ∧ Forall (fresh w) (output w').
Proof.
  cbv zeta.
  assert (Hx : extends (cleared w) (change number_to_string h selectedOption w)).
  { destruct w as [o es hs cs u].
    unfold change, featureSelector_onchange, run_to_completion, cleared.
    pose proof (switch_at_most_one selectedOption) as Hl.
    destruct (switch selectedOption clauses) as [|f [|g l]]; [| |cbn in Hl; lia].
    - cbn [for_of]. js_unfold. cbn. extends_solve.
    - cbn [for_of]. js_unfold. cbn.
      pose proof (invoke_extends number_to_string h f [] es hs cs u) as H.
      cbv zeta in H. rewrite app_nil_r in H. destruct H as (w' & -> & H). exact H. }
  destruct Hx as [He Hh Hc Hu Hq (ns & Ho & Hf)].
  destruct w as [o es hs cs u]. unfold cleared, calls_since in *. cbn in *.
  repeat split; try assumption.
  - intros s. unfold is_activated. destruct Hh as [l ->]. cbn.
    destruct (hs !! s) as [x|] eqn:E; [|discriminate].
    rewrite (lookup_app_l_Some _ _ _ _ E). auto.
  - destruct Ho as [->| ->]; exact Hf.
Qed.

(** ** The idle-detection handler after set-up *)

Lemma children_of_allocated C b j w : children_of (allocated C b w) j = children_of w j.
Proof. reflexivity. Qed.
Lemma calls_allocated C b w : calls (allocated C b w) = calls w.
Proof. reflexivity. Qed.
Lemma uncaught_allocated C b w : uncaught (allocated C b w) = uncaught w.
Proof. reflexivity. Qed.
Lemma output_allocated C b w : output (allocated C b w) = output w.
Proof. reflexivity. Qed.
Lemma elements_allocated C b w : elements (allocated C b w) = elements w.
Proof. reflexivity. Qed.

#[local] Hint Rewrite children_of_allocated calls_allocated uncaught_allocated output_allocated
  elements_allocated : world.

Lemma idle_set_up_panel h w c w1 :
  handleIdleDetectionAPI h w = (Normal (Some c), w1) →
  idle_panel c w1
  ∧ is_disabled w1 (Idle.buttonPermission c) = false
  ∧ is_disabled w1 (Idle.buttonClock c) = false
  ∧ Idle.buttonPermission c ≠ Idle.buttonDetection c
  ∧ Idle.buttonPermission c ≠ Idle.buttonClock c
  ∧ children_of w1 (Idle.message c) = [].
Proof.
  destruct w as [o es hs cs u]. unfold handleIdleDetectionAPI.
  destruct (has (window h) "IdleDetector"); [|js_unfold; cbn; discriminate].
  rewrite <- (app_nil_r es) at 1. js_step.
  intros [= <- <-]. unfold is_disabled, children_of. cbn.
  rewrite !lookup_app_r by lia.
  replace (length es + 0 - length es)%nat with 0%nat by lia.
  replace (length es + 3 - length es)%nat with 3%nat by lia.
  replace (length es + 2 - length es)%nat with 2%nat by lia.
  cbn. repeat split; cbn; try lia; rewrite lookup_app_r by lia.
  - replace (length es + 0 - length es)%nat with 0%nat by lia. cbn. eauto.
  - replace (length es + 1 - length es)%nat with 1%nat by lia. cbn. eauto.
  - replace (length es + 2 - length es)%nat with 2%nat by lia. cbn. eauto.
  - replace (length es + 3 - length es)%nat with 3%nat by lia. cbn. eauto.
Qed.

Ltac kept_solve :=
  match goal with
  | H : idle_kept ?c ?w |- _ =>
      destruct H as [[Hdm Hdc [eD HeD]] [[eP HeP] _ [eM HeM] [eC HeC] Hmp Hmd Hmc] Hpd Dp Dc];
      assert (disabled eP = false) by (unfold is_disabled in Dp; rewrite HeP in Dp; exact Dp);
      assert (disabled eC = false) by (unfold is_disabled in Dc; rewrite HeC in Dc; exact Dc);
      clear Dp Dc;
      repeat split; intros; cbn;
      autorewrite with world;
      repeat (case_decide; try congruence);
      rewrite ?HeD, ?HeP, ?HeM, ?HeC; cbn; try congruence; eauto
  end.

Lemma idle_kept_step h c w ev : idle_kept c w → idle_kept c (idle_step h c w ev).
Proof.
  intros H. pose proof (idle_kept_permission _ _ H) as Dp0.
  pose proof (idle_kept_clock _ _ H) as Dc0.
  pose proof (idle_kept_distinct _ _ H) as Hpd0.
  destruct ev as [|[p|e]| |d [[]|e]|us ss|]; cbn [idle_step];
    unfold click, run_to_completion, buttonPermission_onclick, requestPermission_then,
      buttonDetection_onclick, start_then, idleDetector_onchange, buttonClock_onclick;
    rewrite ?Dp0, ?Dc0;
    try (destruct (is_disabled w (Idle.buttonDetection c)) eqn:Dd);
    try (destruct (constructor h "IdleDetector") as [e'|] eqn:Hc);
    js_world; rewrite ?Hc; js_world; try exact H;
    kept_solve.
Qed.

Lemma idle_kept_steps h c evs w :
  idle_kept c w → idle_kept c (foldl (idle_step h c) w evs).
Proof.
  revert w. induction evs as [|ev evs IH]; intros w H; cbn [foldl]; [exact H|].
  apply IH, idle_kept_step, H.
Qed.

Lemma idle_set_up_kept h w c w1 :
  handleIdleDetectionAPI h w = (Normal (Some c), w1) → idle_kept c w1.
Proof.
  intros H. destruct (idle_set_up _ _ _ _ H) as [Hw _].
  destruct (idle_set_up_panel _ _ _ _ H) as (Hp & Dp & Dc & Hpd & _).
  by split.
Qed.

(** X9. The message of the idle-detection handler is a log that the
    permission answer wipes: after set-up and any events, a [change]
    event of a detector appends one line, with the states of the user
    and the screen, to what the message holds, and the answer to
    Request Permission replaces all of it by ['Permission: ' + answer];
    a rejected request changes nothing and is reported to the global
    handler. *)
Theorem idle_changes_accumulate (h : host) (w : world) (c : Idle.controls) (w1 : world)
    (evs : list idle_event) :
  handleIdleDetectionAPI h w = (Normal (Some c), w1) →
  let step := idle_step h c in
  let wn := foldl step w1 evs in
  children_of w1 (Idle.message c) = []
  ∧ (∀ userState screenState,
       children_of (step wn (change_event userState screenState)) (Idle.message c)
       = (children_of wn (Idle.message c) ++ [Markup ("
          <div>Idle change: user <b>" +:+ userState +:+ "</b>, screen <b>" +:+ screenState +:+ "</b>.</div>
        ")])%list)
  ∧ (∀ permission,
       children_of (step wn (requestPermission_settled (Fulfilled permission))) (Idle.message c)
       = [TextNode ("Permission: " +:+ permission)])
  ∧ (∀ reason, step wn (requestPermission_settled (Rejected reason)) = report reason wn).
Proof.
  intros Hrun step wn.
  destruct (idle_set_up_panel _ _ _ _ Hrun) as (_ & _ & _ & _ & _ & Hm).
  pose proof (idle_kept_steps h c evs w1 (idle_set_up_kept _ _ _ _ Hrun)) as Hk.
  fold step in Hk. fold wn in Hk. clearbody wn.
  destruct Hk as [_ [_ _ [eM HeM] _ _ _ _] _ _ _].
  split; [exact Hm|]. subst step. cbn [idle_step].
  unfold run_to_completion, idleDetector_onchange, requestPermission_then.
  repeat split; intros; js_world; autorewrite with world;
    rewrite ?decide_True by reflexivity; rewrite ?HeM; try reflexivity.
  unfold children_of. rewrite HeM. reflexivity.
Qed.

(** A change and then the permission answer on a fresh page. *)
Lemma idle_changes_accumulate_witness :
  let h := sensor_host "" in
  let c := first_idle_controls in
  let step := idle_step h c in
  let w1 := snd (handleIdleDetectionAPI h page_loaded) in
  let w2 := step w1 (change_event "idle" "locked") in
  length (children_of w2 2) = 1%nat
  ∧ children_of (step w2 (requestPermission_settled (Fulfilled "granted"))) 2
    = [TextNode "Permission: granted"].
Proof.
  cbv zeta.
  destruct (idle_changes_accumulate (sensor_host "") page_loaded first_idle_controls
              (snd (handleIdleDetectionAPI (sensor_host "") page_loaded))
              [change_event "idle" "locked"])
    as (_ & _ & Hp & _); [vm_compute; reflexivity|].
  split; [vm_compute; reflexivity|exact (Hp "granted")].
Defined.

(** X10. Nothing ever disables Request Permission or Clock, and their
    listeners keep no state: after set-up and any events, a click on
    Clock writes ['Counting'] on it and starts one more interval of a
    second, and a click on Request Permission asks the platform once
    more; neither touches anything else. *)
Theorem clock_and_permission_clicks_repeat (h : host) (w : world) (c : Idle.controls)
    (w1 : world) (evs : list idle_event) :
  handleIdleDetectionAPI h w = (Normal (Some c), w1) →
  let step := idle_step h c in
  let wn := foldl step w1 evs in
  step wn click_Clock
  = logged (setInterval 1000)
      (upd (Idle.buttonClock c)
         (λ e, {| tag := tag e; children := [TextNode "Counting"]; disabled := disabled e;
                  value := value e |}) wn)
  ∧ children_of (step wn click_Clock) (Idle.buttonClock c) = [TextNode "Counting"]
  ∧ step wn click_Request_Permission = logged IdleDetector_requestPermission wn.
Proof.
  intros Hrun step wn.
  pose proof (idle_kept_steps h c evs w1 (idle_set_up_kept _ _ _ _ Hrun)) as Hk.
  fold step in Hk. fold wn in Hk. clearbody wn.
  destruct Hk as [_ [_ _ _ [eC HeC] _ _ _] _ Dp Dc].
  subst step. cbn [idle_step]. unfold click. rewrite Dp, Dc.
  unfold run_to_completion, buttonClock_onclick, buttonPermission_onclick.
  js_world. autorewrite with world. rewrite decide_True by reflexivity. rewrite HeC.
  auto.
Qed.

(** Two clicks on Clock in a row on a fresh page. *)
Lemma clock_and_permission_clicks_repeat_witness :
  let h := sensor_host "" in
  let c := first_idle_controls in
  let step := idle_step h c in
  let w1 := snd (handleIdleDetectionAPI h page_loaded) in
  let w2 := step w1 click_Clock in
  calls (step w2 click_Clock) = (calls w1 ++ [setInterval 1000; setInterval 1000])%list.
Proof.
  cbv zeta.
  destruct (clock_and_permission_clicks_repeat (sensor_host "") page_loaded first_idle_controls
              (snd (handleIdleDetectionAPI (sensor_host "") page_loaded))
              [click_Clock])
    as (H & _ & _); [vm_compute; reflexivity|].
  cbn [foldl] in H. rewrite H. vm_compute. reflexivity.
Defined.

(** ** The wake lock *)

Lemma release_fulfilled c w :
  let w' := release_settled c (Fulfilled tt) w in
  output w' = [Markup "
                Wake Lock deactivated.<br>
                The screen was released!
              "]
  ∧ is_activated w' (WakeLock.sentinel c) = false
  ∧ calls w' = calls w
  ∧ elements w' = elements w.
Proof.
  cbv zeta.
  unfold release_settled, run_to_completion, release_then, output_innerHTML, set_output, modify.
  js_world. unfold is_activated. cbn [handles].
  fold (is_activated (act (WakeLock.sentinel c) false w) (WakeLock.sentinel c)).
  autorewrite with world. rewrite decide_True by reflexivity.
  repeat split. by destruct (handles w !! _).
Qed.

Lemma wakeLock_released_step c w ev d :
  output w = [Markup d] → is_activated w (WakeLock.sentinel c) = false →
  let w' := wakeLock_step c w ev in
  (output w' = [Markup d] ∨ ∃ d', output w' = [Markup d'] ∧ ev = release_promise (Fulfilled tt))
  ∧ is_activated w' (WakeLock.sentinel c) = false
  ∧ calls w' = calls w
  ∧ elements w' = elements w.
Proof.
  intros Ho Ha. destruct ev as [|[[]|e]]; cbn [wakeLock_step]; cbv zeta.
  - unfold user_click, attached. rewrite Ho.
    case_bool_decide as Hin; [apply list_elem_of_singleton in Hin; discriminate|].
    auto.
  - unfold release_settled, run_to_completion, release_then, output_innerHTML, set_output,
      modify.
    js_world. unfold is_activated. cbn [handles].
    fold (is_activated (act (WakeLock.sentinel c) false w) (WakeLock.sentinel c)).
    autorewrite with world. rewrite decide_True by reflexivity.
    repeat split; [right; eauto|by destruct (handles w !! _)].
  - unfold release_settled, run_to_completion. js_world. autorewrite with world. auto.
Qed.

Lemma wakeLock_released_steps c evs w d :
  output w = [Markup d] → is_activated w (WakeLock.sentinel c) = false →
  let w' := foldl (wakeLock_step c) w evs in
  (∃ d', output w' = [Markup d'])
  ∧ is_activated w' (WakeLock.sentinel c) = false
  ∧ calls w' = calls w
  ∧ elements w' = elements w.
Proof.
  revert w d. induction evs as [|ev evs IH]; intros w d Ho Ha; cbn [foldl]; cbv zeta.
  - eauto.
  - destruct (wakeLock_released_step c w ev d Ho Ha) as (Ho' & Ha' & Hc' & He').
    destruct Ho' as [Ho'|(d' & Ho' & _)];
      destruct (IH _ _ Ho' Ha') as (Ho'' & Ha'' & Hc'' & He'');
      rewrite <- Hc', <- He'; auto.
Qed.

Lemma request_settled_run o es hs cs u :
  request_settled (Fulfilled tt)
    {| output := o; elements := es; handles := hs; calls := cs; uncaught := u |}
  = (Some {| WakeLock.sentinel := length hs; WakeLock.button := length es |},
     {| output := [Markup "
          <div>Wake Lock is active!</div>
        "; Child (length es)];
        elements := es ++ [{| tag := BUTTON; children := [TextNode "Release screen"];
                              disabled := false; value := "" |}];
        handles := hs ++ [{| interface := "WakeLockSentinel"; activated := true |}];
        calls := cs ++ [console_log "WakeLockSentinel:";
                        addEventListener (OnElement (length es)) "click"];
        uncaught := u |}).
Proof.
  unfold request_settled, request_then.
  rewrite <- (app_nil_r es) at 1. js_step.
  rewrite Nat.add_0_r, <- app_assoc. reflexivity.
Qed.

(** X11. The wake lock, from the answer to the request to the release.
    Whatever the page shows when the request is fulfilled (another
    feature's panel, if the selection has changed since), the reaction
    replaces it by ['Wake Lock is active!'] and a new Release button.
    Each click on Release calls [release()] on the sentinel.  Once a
    release is fulfilled the sentinel is inactive and the output is the
    deactivation text alone, so that Release can be clicked no more:
    whatever follows, the output stays a text, the sentinel stays
    inactive, and no call is made. *)
Theorem wake_lock_is_released_once (w : world) (evs : list wakeLock_event) :
  ∃ c w1,
    request_settled (Fulfilled tt) w = (Some c, w1)
    ∧ output w1 = [Markup "
          <div>Wake Lock is active!</div>
        "; Child (WakeLock.button c)]
    ∧ WakeLock.button c = length (elements w)
    ∧ children_of w1 (WakeLock.button c) = [TextNode "Release screen"]
    ∧ is_activated w1 (WakeLock.sentinel c) = true
    ∧ let w2 := wakeLock_step c w1 click_Release in
      calls w2 = (calls w1 ++ [release (WakeLock.sentinel c)])%list
      ∧ let w3 := wakeLock_step c w2 (release_promise (Fulfilled tt)) in
        output w3 = [Markup "
                Wake Lock deactivated.<br>
                The screen was released!
              "]
        ∧ is_activated w3 (WakeLock.sentinel c) = false
        ∧ let w4 := foldl (wakeLock_step c) w3 evs in
          (∃ text, output w4 = [Markup text])
          ∧ is_activated w4 (WakeLock.sentinel c) = false
          ∧ calls w4 = calls w3
          ∧ elements w4 = elements w3.
Proof.
  destruct w as [o es hs cs u]. rewrite request_settled_run.
  do 2 eexists. split; [reflexivity|]. cbn [WakeLock.button WakeLock.sentinel].
  split; [reflexivity|].
  split; [reflexivity|].
  split.
  { unfold children_of. cbn. rewrite lookup_app_r, Nat.sub_diag by lia. reflexivity. }
  split.
  { unfold is_activated. cbn. rewrite lookup_app_r, Nat.sub_diag by lia. reflexivity. }
  cbv zeta. cbn [wakeLock_step WakeLock.button WakeLock.sentinel].
  match goal with
  | |- context [user_click _ _ ?w] => set (w1' := w)
  end.
  assert (Hclick : user_click (length es)
                     (button_onclick {| WakeLock.sentinel := length hs;
                                        WakeLock.button := length es |}) w1'
                   = logged (release (length hs)) w1').
  { unfold user_click, attached, click, is_disabled. subst w1'. cbn [output elements].
    rewrite bool_decide_eq_true_2
      by (apply elem_of_cons; right; apply list_elem_of_singleton; reflexivity).
    rewrite lookup_app_r, Nat.sub_diag by lia. reflexivity. }
  rewrite !Hclick. subst w1'.
  split; [reflexivity|].
  match goal with
  | |- context [release_settled ?c _ ?w] =>
      destruct (release_fulfilled c w) as (Ho & Ha & _ & _);
      set (w3' := release_settled c (Fulfilled tt) w) in *
  end.
  split; [exact Ho|]. split; [exact Ha|].
  exact (wakeLock_released_steps _ evs w3' _ Ho Ha).
Qed.

(** ** Page visibility *)

Lemma onvisibilitychange_welcome nts h left visibilityState now :
  visibilityState ≠ "hidden" →
  ∃ body,
    onvisibilitychange nts h (Some left) visibilityState now = (Some left, body)
    ∧ ∀ w,
        let w' := run_to_completion body w in
        output w' = [Markup ("
        Welcome back!!!<br>
        You were away for "
        +:+ JsNumber.toFixed nts ((now - left) / 1000)%float 0 +:+ " seconds.
      ")]
        ∧ elements w' = elements w
        ∧ uncaught w' = uncaught w
        ∧ calls w' = (calls w ++ [console_log "State:"])%list.
Proof.
  intros H. assert (E : String.eqb visibilityState "hidden" = false) by (by apply String.eqb_neq).
  unfold onvisibilitychange. rewrite E. eexists. split; [reflexivity|].
  intros w. cbv zeta. repeat split.
Qed.

Lemma onvisibilitychange_hidden nts h leftTime now :
  ∃ body,
    onvisibilitychange nts h leftTime "hidden" now = (Some now, body)
    ∧ ∀ w,
        let w' := run_to_completion body w in
        output w' = output w
        ∧ elements w' = elements w
        ∧ uncaught w'
          = (uncaught w ++ if has (window h) "Notification" then []
                           else ["ReferenceError: Notification is not defined"])%list.
Proof.
  unfold onvisibilitychange. cbn [String.eqb Ascii.eqb Bool.eqb]. eexists.
  split; [reflexivity|]. intros w.
  cbv zeta. unfold run_to_completion. cbv [mbind mret js_bind js_ret]. cbn.
  destruct (has (window h) "Notification"); cbn; rewrite ?app_nil_r; repeat split.
Qed.

Lemma visibilitychange_welcome nts h listeners left w visibilityState now :
  visibilityState ≠ "hidden" →
  Forall (λ leftTime, leftTime = Some left) listeners →
  let st := visibilitychange nts h listeners w visibilityState now in
  (listeners ≠ [] → output st.2 = [Markup ("
        Welcome back!!!<br>
        You were away for "
        +:+ JsNumber.toFixed nts ((now - left) / 1000)%float 0 +:+ " seconds.
      ")])
  ∧ (listeners = [] → output st.2 = output w)
  ∧ uncaught st.2 = uncaught w
  ∧ calls st.2 = (calls w ++ replicate (length listeners) (console_log "State:"))%list.
Proof.
  intros Hv Hl. revert w. induction Hl as [|l ls -> Hls IH]; intros w; cbv zeta.
  - cbn. rewrite app_nil_r. split; [intros H; by destruct H|]. auto.
  - cbn [visibilitychange].
    destruct (onvisibilitychange_welcome nts h left visibilityState now Hv)
      as (body & -> & Hrun).
    destruct (Hrun w) as (Ho & _ & Hu & Hc).
    specialize (IH (run_to_completion body w)). cbv zeta in IH.
    destruct (visibilitychange nts h ls _ visibilityState now) as [ls' w'].
    cbn [fst snd] in *. destruct IH as (Hne & He & -> & ->).
    rewrite Hu, Hc, <- app_assoc. cbn [length replicate app].
    split; [|split; [discriminate|auto]].
    intros _. destruct ls as [|l0 ls0]; [rewrite He by reflexivity; exact Ho|].
    apply Hne. discriminate.
Qed.

Lemma visibilitychange_hidden nts h listeners w now :
  let st := visibilitychange nts h listeners w "hidden" now in
  output st.2 = output w
  ∧ elements st.2 = elements w
  ∧ uncaught st.2
    = (uncaught w ++ if has (window h) "Notification" then []
                     else replicate (length listeners)
                            "ReferenceError: Notification is not defined")%list.
Proof.
  revert w. induction listeners as [|l ls IH]; intros w; cbv zeta.
  - cbn. destruct (has (window h) "Notification"); rewrite app_nil_r; auto.
  - cbn [visibilitychange].
    destruct (onvisibilitychange_hidden nts h l now) as (body & -> & Hrun).
    destruct (Hrun w) as (Ho & He & Hu).
    specialize (IH (run_to_completion body w)). cbv zeta in IH.
    destruct (visibilitychange nts h ls _ "hidden" now) as [ls' w'].
    cbn [fst snd] in *. destruct IH as (-> & -> & ->).
    rewrite Ho, He, Hu. destruct (has (window h) "Notification");
      rewrite ?app_nil_r, <- ?app_assoc; auto.
Qed.

Lemma visibility_events_listeners nts h listeners w evs :
  (visibility_events nts h listeners w evs).1 = (λ before, last_hidden before evs) <$> listeners.
Proof.
  unfold visibility_events, last_hidden. revert listeners w.
  induction evs as [|[visibilityState now] evs IH]; intros listeners w; cbn [foldl fst snd].
  - by rewrite list_fmap_id.
  - pose proof (visibilitychange_listeners nts h listeners w visibilityState now) as E.
    destruct (visibilitychange nts h listeners w visibilityState now) as [ls' w'].
    cbn [fst] in E. rewrite IH, E, <- list_fmap_compose. reflexivity.
Qed.

Lemma last_hidden_seen before evs left :
  last_hidden None evs = Some left → last_hidden before evs = Some left.
Proof.
  unfold last_hidden. revert before.
  assert (G : ∀ a b : option float,
             foldl (λ t ev, if String.eqb ev.1 "hidden" then Some ev.2 else t) a evs
             = Some left →
             a = None →
             foldl (λ t (ev : string * float),
                      if String.eqb ev.1 "hidden" then Some ev.2 else t) b evs
             = Some left).
  { induction evs as [|[s t] evs IH]; intros a b H Ha; cbn [foldl fst snd] in *.
    - congruence.
    - subst a. destruct (String.eqb s "hidden"); [exact H|]. by eapply IH. }
  intros before H. by eapply G.
Qed.

(** X12. The time away counts from the last time the page was hidden.
    After any run of [visibilitychange] events, the [leftTime] of every
    listener on the document is the time of the last event that hid the
    page since the listener was added.  When there was such an event in
    the run, an event with any other state makes every listener write
    the same welcome, with the seconds between that time and now
    rounded by [toFixed(0)]: the variables stay, one line per listener
    is logged and nothing is thrown.  An event that hides the page
    assigns every [leftTime] even where the window has no
    [Notification], when each listener ends in a ReferenceError. *)
Theorem time_away_counts_from_the_last_hidden (number_to_string : float → string)
    (h : host) (listeners : list (option float)) (w : world) (evs : list (string * float))
    (visibilityState : string) (now left : float) :
  visibilityState ≠ "hidden" →
  listeners ≠ [] →
  last_hidden None evs = Some left →
  let st := visibility_events number_to_string h listeners w evs in
  let st' := visibilitychange number_to_string h st.1 st.2 visibilityState now in
  let hidden := visibilitychange number_to_string h st.1 st.2 "hidden" now in
  st.1 = (λ before, last_hidden before evs) <$> listeners
  ∧ st.1 = (λ _, Some left) <$> listeners
  ∧ st'.1 = st.1
  ∧ output st'.2 = [Markup ("
        Welcome back!!!<br>
        You were away for "
        +:+ JsNumber.toFixed number_to_string ((now - left) / 1000)%float 0 +:+ " seconds.
      ")]
  ∧ uncaught st'.2 = uncaught st.2
  ∧ calls st'.2 = (calls st.2 ++ replicate (length listeners) (console_log "State:"))%list
  ∧ hidden.1 = (λ _, Some now) <$> listeners
  ∧ uncaught hidden.2
    = (uncaught st.2 ++ if has (window h) "Notification" then []
                        else replicate (length listeners)
                               "ReferenceError: Notification is not defined")%list.
Proof.
  intros Hv Hne Hl st st' hidden.
  assert (E : String.eqb visibilityState "hidden" = false) by (by apply String.eqb_neq).
  pose proof (visibility_events_listeners number_to_string h listeners w evs) as H.
  fold st in H.
  assert (H' : st.1 = (λ _, Some left) <$> listeners).
  { rewrite H. apply list_fmap_ext. intros i before _. by apply last_hidden_seen. }
  assert (Hall : Forall (λ leftTime, leftTime = Some left) st.1).
  { rewrite H'. apply Forall_fmap, Forall_forall. reflexivity. }
  assert (Hlen : length st.1 = length listeners) by (by rewrite H', length_fmap).
  assert (Hst : st.1 ≠ []).
  { intros Hnil. apply Hne. apply length_zero_iff_nil. rewrite <- Hlen, Hnil. reflexivity. }
  clearbody st. subst st' hidden.
  split; [exact H|]. split; [exact H'|].
  split.
  { rewrite visibilitychange_listeners, E. apply list_fmap_id. }
  destruct (visibilitychange_welcome number_to_string h st.1 left st.2 visibilityState now
              Hv Hall) as (Ho & _ & Hu & Hc).
  split; [exact (Ho Hst)|]. split; [exact Hu|]. split; [by rewrite Hc, Hlen|].
  split.
  { rewrite visibilitychange_listeners. cbn [String.eqb Ascii.eqb Bool.eqb].
    rewrite H', <- list_fmap_compose. reflexivity. }
  destruct (visibilitychange_hidden number_to_string h st.1 st.2 now) as (_ & _ & Hh).
  by rewrite Hh, Hlen.
Qed.

(** Two selections of the feature, then hidden at 1 s, visible at 6 s,
    hidden at 20 s, visible at 21.5 s, on a host with no
    [Notification]: the second return counts from 20 s for both
    listeners. *)
Lemma time_away_counts_from_the_last_hidden_witness :
  let evs := [("hidden", 1000%float); ("visible", 6000%float); ("hidden", 20000%float)] in
  let st := visibility_events no_digits bare_host [None; None] page_loaded evs in
  let st' := visibilitychange no_digits bare_host st.1 st.2 "visible" 21500%float in
  st.1 = [Some 20000%float; Some 20000%float]
  ∧ st'.1 = st.1
  ∧ output st'.2 = [Markup ("
        Welcome back!!!<br>
        You were away for "
        +:+ JsNumber.toFixed no_digits ((21500 - 20000) / 1000)%float 0 +:+ " seconds.
      ")]
  ∧ uncaught st'.2 = uncaught st.2.
Proof.
  cbv zeta.
  destruct (time_away_counts_from_the_last_hidden no_digits bare_host [None; None] page_loaded
              [("hidden", 1000%float); ("visible", 6000%float); ("hidden", 20000%float)]
              "visible" 21500%float 20000%float)
    as (_ & H1 & H2 & H3 & H4 & _); [discriminate|discriminate|reflexivity|].
  exact (conj H1 (conj H2 (conj H3 H4))).
Defined.

(** ** The service worker's requests *)

Lemma step_fetched {Request Response Client : Type} (network : Request → settled Response)
    (s : ServiceWorker.scope Request Client) ev :
  let s' := ServiceWorker.step Request Response Client network s ev in
  fetched (ServiceWorker.calls _ _ s')
  = (fetched (ServiceWorker.calls _ _ s) ++ requests [ev])%list
  ∧ responses (ServiceWorker.calls _ _ s')
    = (responses (ServiceWorker.calls _ _ s) + length (requests [ev]))%nat.
Proof.
  unfold fetched, responses.
  destruct ev as [older|open|request]; cbn.
  - unfold ServiceWorker.install, ServiceWorker.oninstall. cbn.
    destruct older; cbn; rewrite !omap_app, !List.filter_app, !length_app; cbn;
      rewrite ?app_nil_r; split; first [reflexivity|lia].
  - unfold ServiceWorker.activate.
    destruct (ServiceWorker.state _ _ s); cbn;
      rewrite ?omap_app, ?List.filter_app, ?length_app; cbn;
      rewrite ?app_nil_r; split; first [reflexivity|lia].
  - rewrite !omap_app, !List.filter_app, !length_app. cbn.
    rewrite <- app_assoc. split; [reflexivity|lia].
Qed.

(** X13. The service worker is a wire: through any run of install,
    activate and fetch events, in any phase of its life, the requests
    it passes to [fetch] are exactly the requests of the fetch events,
    each once and in the order of the events, and it calls
    [respondWith] once for each. *)
Theorem service_worker_forwards_each_request_once (Request Response Client : Type)
    (network : Request → settled Response)
    (evs : list (ServiceWorker.event Request Client)) :
  let s := foldl (ServiceWorker.step Request Response Client network)
             ServiceWorker.registered evs in
  fetched (ServiceWorker.calls _ _ s) = requests evs
  ∧ responses (ServiceWorker.calls _ _ s) = length (requests evs).
Proof.
  cbv zeta.
  assert (G : ∀ s0 : ServiceWorker.scope Request Client,
             let s := foldl (ServiceWorker.step Request Response Client network) s0 evs in
             fetched (ServiceWorker.calls _ _ s)
             = (fetched (ServiceWorker.calls _ _ s0) ++ requests evs)%list
             ∧ responses (ServiceWorker.calls _ _ s)
               = (responses (ServiceWorker.calls _ _ s0) + length (requests evs))%nat).
  { induction evs as [|ev evs IH]; intros s0; cbn [foldl]; cbv zeta.
    - unfold requests. cbn. rewrite app_nil_r. split; [reflexivity|lia].
    - destruct (IH (ServiceWorker.step Request Response Client network s0 ev)) as [-> ->].
      destruct (step_fetched network s0 ev) as [-> ->].
      change (ev :: evs) with ([ev] ++ evs)%list. unfold requests.
      rewrite !omap_app, length_app, <- app_assoc. split; [reflexivity|lia]. }
  exact (G ServiceWorker.registered).
Qed.

(** ** Geolocation *)

Lemma handleGeolocationAPI_run h o es hs cs u :
  has (navigator h) "geolocation" = true →
  handleGeolocationAPI h
    {| output := o; elements := es; handles := hs; calls := cs; uncaught := u |}
  = (Normal tt,
     {| output := o ++ [Child (length es + 0); Child (length es + 1); Child (length es + 2)];
        elements := es ++ [{| tag := BUTTON; children := [TextNode "Current Position"];
                              disabled := false; value := "" |};
                           {| tag := BUTTON; children := [TextNode "Watch Position"];
                              disabled := false; value := "" |};
                           messageDiv []];
        handles := hs;
        calls := cs ++ [console_log "Navigator:"; console_log "Geolocation:";
                        addEventListener (OnElement (length es + 0)) "click";
                        addEventListener (OnElement (length es + 1)) "click"];
        uncaught := u |}).
Proof.
  intros Hn. rewrite <- (app_nil_r es) at 1.
  unfold handleGeolocationAPI. js_unfold. rewrite Hn. js_step.
  rewrite <- !app_assoc. reflexivity.
Qed.

Lemma geolocation_set_up h w :
  has (navigator h) "geolocation" = true →
  geolocation_kept (Geolocation.made w) ((handleGeolocationAPI h w).2, [])
  ∧ is_disabled (handleGeolocationAPI h w).2 (Geolocation.buttonWatchPosition (Geolocation.made w))
    = false.
Proof.
  intros Hn. destruct w as [o es hs cs u]. rewrite handleGeolocationAPI_run by exact Hn.
  unfold Geolocation.made, is_disabled. cbn.
  rewrite !lookup_app_r by lia.
  replace (length es + 0 - length es)%nat with 0%nat by lia.
  replace (length es + 1 - length es)%nat with 1%nat by lia.
  replace (length es + 2 - length es)%nat with 2%nat by lia.
  split; [|reflexivity].
  split; cbn; unfold is_disabled; cbn; rewrite ?lookup_app_r by lia;
    rewrite ?Nat.add_0_r, ?Nat.sub_diag;
    replace (length es + 1 - length es)%nat with 1%nat by lia;
    replace (length es + 2 - length es)%nat with 2%nat by lia;
    cbn; eauto; lia.
Qed.

Ltac absurd_id :=
  exfalso;
  match goal with
  | N : ?a ≠ ?a |- _ => exact (N eq_refl)
  | H : ?a = ?b, N : ?b ≠ ?a |- _ => exact (N (eq_sym H))
  | H : ?a = ?b, N : ?a ≠ ?b |- _ => exact (N H)
  end.

Ltac geolocation_solve :=
  match goal with
  | H : geolocation_kept ?c ?st |- _ =>
      destruct H as [[eC HeC] [eW HeW] [eM HeM] Hcw Hcm Hwm Ht Hr];
      cbn [fst snd] in *;
      split; cbn [fst snd];
      autorewrite with world;
      repeat (case_decide; try absurd_id);
      rewrite ?HeC, ?HeW, ?HeM; cbn [fmap option_fmap option_map disabled];
      try assumption; try reflexivity; eauto
  end.

Lemma watch_requests_app rs rs' :
  watch_requests (rs ++ rs') = (watch_requests rs ++ watch_requests rs')%list.
Proof. apply List.filter_app. Qed.

Lemma geolocation_kept_message c w rs f l :
  geolocation_kept c (w, rs) →
  (∀ e, disabled (f e) = disabled e) →
  geolocation_kept c (upd (Geolocation.message c) f (logged l w), rs).
Proof.
  intros H Hf. geolocation_solve.
Qed.

Lemma geolocation_kept_step nts c st ev :
  geolocation_kept c st → geolocation_kept c (Geolocation.step nts c st ev).
Proof.
  intros H. destruct st as [w rs].
  pose proof (geolocation_together _ _ H) as Ht0. cbn [fst] in Ht0.
  pose proof (geolocation_watching _ _ H) as Hr0. cbn [fst snd] in Hr0.
  destruct ev; cbn [Geolocation.step];
    unfold Geolocation.requesting, run_to_completion,
      Geolocation.buttonCurrentPosition_onclick, Geolocation.buttonWatchPosition_onclick,
      Geolocation.getCurrentPosition_success, Geolocation.getCurrentPosition_error,
      Geolocation.watchPosition_success, Geolocation.watchPosition_error;
    cbn [fst snd].
  - destruct (is_disabled w (Geolocation.buttonCurrentPosition c)) eqn:Dc; [exact H|].
    js_world. geolocation_solve.
    rewrite watch_requests_app, Hr, <- Ht0. reflexivity.
  - destruct (is_disabled w (Geolocation.buttonWatchPosition c)) eqn:Dw; [exact H|].
    js_world. geolocation_solve.
    rewrite watch_requests_app, Hr, Dw. reflexivity.
  - js_world. by apply geolocation_kept_message.
  - js_world. by apply geolocation_kept_message.
  - js_world. by apply geolocation_kept_message.
  - js_world. by apply geolocation_kept_message.
Qed.

Lemma geolocation_kept_steps nts c evs st :
  geolocation_kept c st → geolocation_kept c (foldl (Geolocation.step nts c) st evs).
Proof.
  revert st. induction evs as [|ev evs IH]; intros st H; cbn [foldl]; [exact H|].
  apply IH, geolocation_kept_step, H.
Qed.

Lemma geolocation_watching_step nts c st ev :
  geolocation_kept c st →
  is_disabled st.1 (Geolocation.buttonWatchPosition c) = true →
  (Geolocation.step nts c st ev).2 = st.2
  ∧ is_disabled (Geolocation.step nts c st ev).1 (Geolocation.buttonWatchPosition c) = true.
Proof.
  intros H Dw. destruct st as [w rs]. cbn [fst snd] in *.
  pose proof (geolocation_together _ _ H) as Ht. cbn [fst] in Ht.
  destruct H as [_ _ _ _ _ Hwm _ _].
  destruct ev; cbn [Geolocation.step];
    unfold Geolocation.requesting, run_to_completion,
      Geolocation.getCurrentPosition_success, Geolocation.getCurrentPosition_error,
      Geolocation.watchPosition_success, Geolocation.watchPosition_error;
    cbn [fst snd]; rewrite ?Ht, ?Dw; cbn [fst snd]; auto;
    js_world; autorewrite with world; rewrite decide_False by (intros E; by apply Hwm);
    auto.
Qed.

Lemma geolocation_watching_steps nts c evs st :
  geolocation_kept c st →
  is_disabled st.1 (Geolocation.buttonWatchPosition c) = true →
  (foldl (Geolocation.step nts c) st evs).2 = st.2
  ∧ is_disabled (foldl (Geolocation.step nts c) st evs).1 (Geolocation.buttonWatchPosition c)
    = true.
Proof.
  revert st. induction evs as [|ev evs IH]; intros st H Dw; cbn [foldl]; [auto|].
  destruct (geolocation_watching_step nts c st ev H Dw) as [Hr Dw'].
  destruct (IH _ (geolocation_kept_step nts c st ev H) Dw') as [Hr' Dw''].
  split; [congruence|exact Dw''].
Qed.

(** X14. The position is watched at most once.  In the geolocation
    handler, after any clicks and any answers of the platform, the two
    buttons are enabled or disabled together, and they are disabled
    exactly when [watchPosition] has been asked for, which then has
    been done once; from then on no click makes a request any more,
    whatever happens, and nothing enables the buttons again. *)
Theorem position_is_watched_at_most_once (number_to_string : float → string) (h : host)
    (w : world) (evs evs' : list Geolocation.event) :
  has (navigator h) "geolocation" = true →
  let c := Geolocation.made w in
  let step := Geolocation.step number_to_string c in
  let st := foldl step ((handleGeolocationAPI h w).2, []) evs in
  let watching := is_disabled st.1 (Geolocation.buttonWatchPosition c) in
  is_disabled st.1 (Geolocation.buttonCurrentPosition c) = watching
  ∧ watch_requests st.2 = (if watching then [Geolocation.watchPosition] else [])
  ∧ (watching = true →
     (foldl step st evs').2 = st.2
     ∧ is_disabled (foldl step st evs').1 (Geolocation.buttonWatchPosition c) = true).
Proof.
  intros Hn c step st watching.
  destruct (geolocation_set_up h w Hn) as [H0 _].
  pose proof (geolocation_kept_steps number_to_string c evs _ H0) as H.
  fold step in H. fold st in H.
  split; [apply (geolocation_together _ _ H)|].
  split; [apply (geolocation_watching _ _ H)|].
  intros Dw. by apply geolocation_watching_steps.
Qed.

(** A position, then Watch Position, then clicks on both buttons. *)
Lemma position_is_watched_at_most_once_witness :
  let c := Geolocation.made page_loaded in
  let step := Geolocation.step no_digits c in
  let st := foldl step ((handleGeolocationAPI navigator_host page_loaded).2, [])
              [Geolocation.click_Current_Position; Geolocation.click_Watch_Position] in
  let st' := foldl step st
               [Geolocation.click_Watch_Position; Geolocation.click_Current_Position] in
  st.2 = [Geolocation.getCurrentPosition; Geolocation.watchPosition]
  ∧ st'.2 = st.2
  ∧ is_disabled st'.1 (Geolocation.buttonWatchPosition c) = true.
Proof.
  cbv zeta.
  destruct (position_is_watched_at_most_once no_digits navigator_host page_loaded
              [Geolocation.click_Current_Position; Geolocation.click_Watch_Position]
              [Geolocation.click_Watch_Position; Geolocation.click_Current_Position])
    as (_ & _ & H); [vm_compute; reflexivity|].
  destruct H as [Hr Hd]; [vm_compute; reflexivity|].
  refine (conj _ (conj Hr Hd)). vm_compute. reflexivity.
Defined.

(** X15. The message of the geolocation handler shows the last answer
    only.  After any events, each answer of the platform replaces what
    the message holds: a position by its three numbers under the title
    of its request, an error by the fixed text of its request; so a
    late answer to Current Position replaces a watched position. *)
Theorem geolocation_message_shows_the_last_answer (number_to_string : float → string)
    (h : host) (w : world) (evs : list Geolocation.event) (position : Geolocation.coords) :
  has (navigator h) "geolocation" = true →
  let c := Geolocation.made w in
  let step := Geolocation.step number_to_string c in
  let st := foldl step ((handleGeolocationAPI h w).2, []) evs in
  let shown ev := children_of (step st ev).1 (Geolocation.message c) in
  shown (Geolocation.current_position position) = [Markup ("
            <strong>Current Position:</strong>
            <br>Latitude: " +:+ number_to_string (Geolocation.latitude position) +:+ "
            <br>Longitude: " +:+ number_to_string (Geolocation.longitude position) +:+ "
            <br>More or less " +:+ number_to_string (Geolocation.accuracy position) +:+ " meters.
          ")]
  ∧ shown (Geolocation.watched_position position) = [Markup ("
            <strong>Watching Position:</strong>
            <br>Latitude: " +:+ number_to_string (Geolocation.latitude position) +:+ "
            <br>Longitude: " +:+ number_to_string (Geolocation.longitude position) +:+ "
            <br>More or less " +:+ number_to_string (Geolocation.accuracy position) +:+ " meters.
          ")]
  ∧ shown Geolocation.current_position_error
    = [TextNode "Geolocation failed to get the current position."]
  ∧ shown Geolocation.watched_position_error
    = [TextNode "Geolocation failed to watch position."].
Proof.
  intros Hn c step st shown.
  destruct (geolocation_set_up h w Hn) as [H0 _].
  pose proof (geolocation_kept_steps number_to_string c evs _ H0) as H.
  fold step in H. fold st in H. clearbody st. clearbody c. destruct st as [wn rs].
  destruct H as [_ _ [eM HeM] _ _ _ _ _]. cbn [fst] in HeM.
  subst shown step. cbn [Geolocation.step fst snd].
  unfold run_to_completion,
    Geolocation.getCurrentPosition_success, Geolocation.getCurrentPosition_error,
    Geolocation.watchPosition_success, Geolocation.watchPosition_error.
  repeat split; js_world; autorewrite with world; rewrite decide_True by reflexivity;
    unfold logged; cbn [elements]; rewrite HeM; reflexivity.
Qed.

(** Watching, a watched position, then a late answer to Current Position. *)
Lemma geolocation_message_shows_the_last_answer_witness :
  let c := Geolocation.made page_loaded in
  let step := Geolocation.step no_digits c in
  let here := {| Geolocation.latitude := 48.85%float; Geolocation.longitude := 2.35%float;
                 Geolocation.accuracy := 20%float |} in
  let st := foldl step ((handleGeolocationAPI navigator_host page_loaded).2, [])
              [Geolocation.click_Current_Position; Geolocation.click_Watch_Position;
               Geolocation.watched_position here] in
  children_of (step st Geolocation.current_position_error).1 (Geolocation.message c)
  = [TextNode "Geolocation failed to get the current position."].
Proof.
  cbv zeta.
  destruct (geolocation_message_shows_the_last_answer no_digits navigator_host page_loaded
              [Geolocation.click_Current_Position; Geolocation.click_Watch_Position;
               Geolocation.watched_position
                 {| Geolocation.latitude := 48.85%float; Geolocation.longitude := 2.35%float;
                    Geolocation.accuracy := 20%float |}]
              {| Geolocation.latitude := 48.85%float; Geolocation.longitude := 2.35%float;
                 Geolocation.accuracy := 20%float |})
    as (_ & _ & H & _); [vm_compute; reflexivity|].
  exact H.
Defined.

(** ** The permissions probe *)

Lemma omap_children_framed {A} (F : option element → option A) (es l : list element) a m :
  omap (λ n, match n with Child i => F ((es ++ l)%list !! i) | _ => None end)
    (map Child (seq (length es + a) m))
  = omap (λ k, F (l !! k)) (seq a m).
Proof.
  revert a. induction m as [|m IH]; intros a; [reflexivity|].
  cbn [seq map omap list_omap]. rewrite lookup_app_r by lia.
  replace (length es + a - length es)%nat with a by lia.
  replace (S (length es + a)) with (length es + S a)%nat by lia.
  change (list_omap ?f ?l) with (omap f l). rewrite IH. reflexivity.
Qed.

(** X16. The selector of the permissions probe offers every name.  Where
    the permissions API is there, the handler appends a select and a
    message to the output; the options of the select are, in order, a
    placeholder with the empty value and the text ['- Select -'], then
    one option for each of the 26 names, with the name as its value and
    its text; the message asks to select one. *)
Theorem permissions_selector_offers_every_name (h : host) (w : world) :
  has (navigator h) "permissions" = true →
  let w1 := (handlePermissionsAPI h w).2 in
  let select := length (elements w) in
  let options := children_of w1 select in
  output w1 = (output w ++ [Child select; Child (Permission.message_made w)])%list
  ∧ omap (λ n, match n with Child i => value <$> elements w1 !! i | _ => None end) options
    = "" :: values
  ∧ omap (λ n, match n with Child i => children <$> elements w1 !! i | _ => None end) options
    = [TextNode "- Select -"] :: map (λ val, [TextNode val]) values
  ∧ length options = 27%nat
  ∧ children_of w1 (Permission.message_made w) = [TextNode "Select a permission above."].
Proof.
  intros Hn. destruct w as [o es hs cs u]. cbv zeta.
  rewrite handlePermissionsAPI_run by exact Hn.
  unfold children_of, Permission.message_made. cbn [snd elements output].
  rewrite !lookup_app_r by lia. rewrite Nat.sub_diag.
  replace (length es + 28 - length es)%nat with 28%nat by lia.
  cbn [lookup list_lookup selectElement children].
  rewrite !omap_children_framed.
  repeat split; vm_compute; reflexivity.
Qed.

(** On a page with nothing on it. *)
Lemma permissions_selector_offers_every_name_witness :
  let w1 := (handlePermissionsAPI navigator_host page_loaded).2 in
  output w1 = [Child 0; Child 28]
  ∧ omap (λ n, match n with Child i => value <$> elements w1 !! i | _ => None end)
      (children_of w1 0)
    = "" :: values.
Proof.
  cbv zeta.
  destruct (permissions_selector_offers_every_name navigator_host page_loaded)
    as (Ho & Hv & _); [vm_compute; reflexivity|].
  exact (conj Ho Hv).
Defined.

Lemma permission_message_kept message w ev :
  is_Some (elements w !! message) →
  is_Some (elements (Permission.step message w ev) !! message).
Proof.
  intros [eM HeM].
  destruct ev as [selectedOption|selectedOption [s|e]|selectedOption this];
    cbn [Permission.step];
    unfold run_to_completion, Permission.select_onchange, Permission.query_then,
      Permission.permissionStatus_onchange;
    js_world; autorewrite with world; rewrite ?decide_True by reflexivity;
    rewrite ?HeM; cbn [fmap option_fmap option_map]; eauto.
Qed.

Lemma permission_message_kept_steps message evs w :
  is_Some (elements w !! message) →
  is_Some (elements (foldl (Permission.step message) w evs) !! message).
Proof.
  revert w. induction evs as [|ev evs IH]; intros w H; cbn [foldl]; [exact H|].
  apply IH, permission_message_kept, H.
Qed.

(** X17. The message of the permissions probe: an answer replaces it, a
    change is appended to it.  After any events, the answer to a query
    replaces what the message holds by the state of the permission,
    under the name the status carries or else the selected value, and
    the platform's status object gets a [change] listener; a change of
    any status queried before, of another permission too, is appended
    below whatever answer stands there; a rejected query changes
    nothing and is reported to the global handler. *)
Theorem permission_answers_replace_and_changes_append (h : host) (w : world)
    (evs : list Permission.event) (asked changed : string) (s this : Permission.status) :
  has (navigator h) "permissions" = true →
  let message := Permission.message_made w in
  let step := Permission.step message in
  let wn := foldl step (handlePermissionsAPI h w).2 evs in
  let w' := step wn (Permission.query_settled asked (Fulfilled s)) in
  children_of w' message = [Markup ("
            State for <b>" +:+ Permission.name_or (Permission.name s) asked +:+ "</b>: "
            +:+ Permission.state s +:+ "
          ")]
  ∧ handles w'
    = (handles wn ++ [{| interface := "PermissionStatus"; activated := false |}])%list
  ∧ calls_since wn w'
    = [console_log "Status:"; addEventListener (OnHandle (length (handles wn))) "change"]
  ∧ children_of (step w' (Permission.status_change changed this)) message
    = (children_of w' message ++ [Markup ("
              <div>Changed state for <b>"
              +:+ Permission.name_or (Permission.name this) changed +:+ "</b>: "
              +:+ Permission.state this +:+ "</div>
            ")])%list
  ∧ (∀ reason, step wn (Permission.query_settled asked (Rejected reason)) = report reason wn).
Proof.
  intros Hn message step wn w'.
  assert (H0 : is_Some (elements (handlePermissionsAPI h w).2 !! message)).
  { destruct w as [o es hs cs u]. rewrite handlePermissionsAPI_run by exact Hn.
    subst message. unfold Permission.message_made. cbn [snd elements].
    rewrite lookup_app_r by lia.
    replace (length es + 28 - length es)%nat with 28%nat by lia. vm_compute. eauto. }
  pose proof (permission_message_kept_steps message evs _ H0) as [eM HeM].
  fold step in HeM. fold wn in HeM. clearbody wn. clearbody message.
  pose proof (permission_message_kept message wn
                (Permission.query_settled asked (Fulfilled s)) (ex_intro _ eM HeM))
    as [eM' HeM'].
  fold step in HeM'. fold w' in HeM'.
  assert (Hw' : w' = logged (addEventListener (OnHandle (length (handles wn))) "change")
                   (upd message
                      (λ e, {| tag := tag e; children := [Markup ("
            State for <b>" +:+ Permission.name_or (Permission.name s) asked +:+ "</b>: "
            +:+ Permission.state s +:+ "
          ")]; disabled := disabled e; value := value e |})
                      (logged (console_log "Status:")
                         (allocated "PermissionStatus" false wn)))).
  { subst w' step. cbn [Permission.step]. unfold run_to_completion, Permission.query_then.
    js_world. reflexivity. }
  split.
  { rewrite Hw'. autorewrite with world. rewrite decide_True by reflexivity.
    unfold logged, allocated. cbn [elements]. rewrite HeM. reflexivity. }
  split.
  { rewrite Hw'. autorewrite with world. reflexivity. }
  split.
  { rewrite Hw'. unfold calls_since. autorewrite with world.
    rewrite <- app_assoc, drop_app_length. reflexivity. }
  split.
  { clearbody w'. subst step. cbn [Permission.step].
    unfold run_to_completion, Permission.permissionStatus_onchange. js_world.
    autorewrite with world. rewrite decide_True by reflexivity.
    unfold children_of. rewrite HeM'. reflexivity. }
  intros reason. reflexivity.
Qed.

(** The camera is asked about, then the microphone; the status of the
    camera changes afterwards. *)
Lemma permission_answers_replace_and_changes_append_witness :
  let message := Permission.message_made page_loaded in
  let step := Permission.step message in
  let prompt := {| Permission.name := Some "camera"; Permission.state := "prompt" |} in
  let denied := {| Permission.name := None; Permission.state := "denied" |} in
  let wn := foldl step (handlePermissionsAPI navigator_host page_loaded).2
              [Permission.select_change "camera";
               Permission.query_settled "camera" (Fulfilled prompt);
               Permission.select_change "microphone"] in
  let w' := step wn (Permission.query_settled "microphone" (Fulfilled denied)) in
  length (children_of w' message) = 1%nat
  ∧ length (children_of (step w' (Permission.status_change "camera" prompt)) message) = 2%nat
  ∧ calls_since wn w' = [console_log "Status:"; addEventListener (OnHandle 1) "change"].
Proof.
  cbv zeta.
  destruct (permission_answers_replace_and_changes_append navigator_host page_loaded
              [Permission.select_change "camera";
               Permission.query_settled "camera"
                 (Fulfilled {| Permission.name := Some "camera";
                               Permission.state := "prompt" |});
               Permission.select_change "microphone"]
              "microphone" "camera"
              {| Permission.name := None; Permission.state := "denied" |}
              {| Permission.name := Some "camera"; Permission.state := "prompt" |})
    as (H1 & _ & H3 & H4 & _); [vm_compute; reflexivity|].
  refine (conj _ (conj _ H3)).
  - rewrite H1. reflexivity.
  - rewrite H4, H1. reflexivity.
Defined.

(** ** Screen orientation *)

(** X18. The screen orientation panel comes after the fullscreen panel.
    Where [screen.orientation] is there, selecting the screen
    orientation leaves in the output what selecting fullscreen leaves
    there (the fullscreen button and its message, or the text that
    fullscreen is not available), followed by the three lock buttons
    and an empty message, in that order. *)
Theorem orientation_panel_follows_fullscreen (number_to_string : float → string) (h : host)
    (w : world) :
  has (screen h) "orientation" = true →
  let wf := change number_to_string h "fullscreen" w in
  let wo := change number_to_string h "screen-orientation" w in
  let n := length (elements wf) in
  output wo = (output wf ++ [Child n; Child (n + 1); Child (n + 2); Child (n + 3)])%list
  ∧ elements wo
    = (elements wf
       ++ [{| tag := BUTTON; children := [TextNode "Lock Portrait"]; disabled := false;
              value := "" |};
           {| tag := BUTTON; children := [TextNode "Lock Landscape"]; disabled := false;
              value := "" |};
           {| tag := BUTTON; children := [TextNode "Unlock"]; disabled := false;
              value := "" |};
           messageDiv []])%list
  ∧ uncaught wo = uncaught w.
Proof.
  intros Hs. cbv zeta.
  pose proof (change_invokes number_to_string h Fullscreen w) as Hf.
  pose proof (change_invokes number_to_string h ScreenOrientation w) as Ho.
  cbn [tag_of] in Hf, Ho. rewrite Hf, Ho. clear Hf Ho.
  destruct w as [o es hs cs u]. unfold cleared, run_to_completion. cbn [invoke].
  rewrite <- (app_nil_r es).
  unfold handleScreenOrientationAPI, handleFullscreenAPI. js_unfold. rewrite Hs.
  destruct (has (document h) "fullscreenElement" && has (document h) "exitFullscreen"
            && fullscreenEnabled h);
    js_step; rewrite ?length_app; cbn [length];
    rewrite <- ?app_assoc; cbn [app];
    repeat split; repeat (f_equal; try lia).
Qed.

(** On a host with [screen.orientation] and no fullscreen. *)
Lemma orientation_panel_follows_fullscreen_witness :
  let wo := change no_digits orientation_host "screen-orientation" page_loaded in
  output wo = [TextNode "Fullscreen not available or enabled on this device.";
               Child 0; Child 1; Child 2; Child 3]
  ∧ uncaught wo = [].
Proof.
  cbv zeta.
  destruct (orientation_panel_follows_fullscreen no_digits orientation_host page_loaded)
    as (Ho & _ & Hu); [vm_compute; reflexivity|].
  exact (conj Ho Hu).
Defined.

(** ** What a reading shows *)

Lemma append_cons a s q : String a s +:+ q = String a (s +:+ q).
Proof. reflexivity. Qed.

Lemma prefix_cons a s t :
  String.prefix (String a s) (String a t) = String.prefix s t.
Proof. cbn. destruct (ascii_dec a a); [reflexivity|congruence]. Qed.

Lemma prefix_nil q : String.prefix "" q = true.
Proof. by destruct q. Qed.

Lemma prefix_app s q : String.prefix s (s +:+ q) = true.
Proof.
  induction s as [|a s IH]; [apply prefix_nil|].
  rewrite append_cons, prefix_cons. exact IH.
Qed.

Lemma prefix_app_l s t q : String.prefix s t = true → String.prefix s (t +:+ q) = true.
Proof.
  revert t. induction s as [|a s IH]; intros t H; [apply prefix_nil|].
  destruct t as [|b t]; [discriminate H|].
  rewrite append_cons. cbn in *.
  destruct (ascii_dec a b); [by apply IH|discriminate H].
Qed.

Lemma includes_unfold t s :
  includes t s
  = (String.prefix s t
     || match t with EmptyString => false | String _ rest => includes rest s end).
Proof. destruct t; reflexivity. Qed.

Lemma includes_head s q : includes (s +:+ q) s = true.
Proof. rewrite includes_unfold, prefix_app. reflexivity. Qed.

Lemma includes_app_r p t s : includes t s = true → includes (p +:+ t) s = true.
Proof.
  intros H. induction p as [|c p IH]; [exact H|].
  rewrite append_cons, includes_unfold, IH. apply orb_true_r.
Qed.

Lemma includes_app_l t q s : includes t s = true → includes (t +:+ q) s = true.
Proof.
  induction t as [|c t IH]; intros H.
  - rewrite includes_unfold in H. rewrite orb_false_r in H.
    destruct s; [|discriminate H]. rewrite includes_unfold, prefix_nil. reflexivity.
  - rewrite includes_unfold in H. apply orb_true_iff in H as [H|H].
    + rewrite includes_unfold, (prefix_app_l _ _ q H). reflexivity.
    + rewrite append_cons, includes_unfold, (IH H). apply orb_true_r.
Qed.

Ltac includes_solve :=
  repeat first [ apply includes_head | apply includes_app_r ].

Lemma reading_shows_axes nts h k c x y z q lux w :
  axes k = true →
  ∃ markup,
    run_to_completion
      (onreading nts h k c
         {| Sensor.x := Some x; Sensor.y := Some y; Sensor.z := Some z;
            Sensor.quaternion := q; Sensor.illuminance := lux |}) w
    = upd (message c)
        (λ e, {| tag := tag e; children := [Markup markup]; disabled := disabled e;
                 value := value e |}) w
    ∧ includes markup (JsNumber.toFixed nts x 2) = true
    ∧ includes markup (JsNumber.toFixed nts y 2) = true
    ∧ includes markup (JsNumber.toFixed nts z 2) = true.
Proof.
  intros Hk. unfold run_to_completion.
  destruct k; try discriminate Hk;
    cbn [onreading];
    unfold accelerometer_onreading, linearAcceleration_onreading, gyroscope_onreading,
      gravity_onreading, magnetometer_onreading;
    cbn [Sensor.x Sensor.y Sensor.z Sensor.quaternion];
    cbv [mbind mret js_bind js_ret member innerHTML set_children];
    rewrite update_element_run;
    (eexists; split; [reflexivity|]);
    repeat split; includes_solve.
Qed.

Lemma includes_refl s : includes s s = true.
Proof.
  rewrite includes_unfold.
  assert (H : String.prefix s s = true).
  { induction s as [|a s IH]; [reflexivity|]. by rewrite prefix_cons. }
  rewrite H. reflexivity.
Qed.

Lemma includes_foldl {A} (g : A → string) (q : list A) (acc s : string) :
  includes acc s = true →
  includes (foldl (λ orientation value, orientation +:+ g value) acc q) s = true.
Proof.
  revert acc. induction q as [|u q IH]; intros acc H; [exact H|].
  cbn [foldl]. apply IH, includes_app_l, H.
Qed.

Lemma includes_items {A} (g : A → string) (q : list A) (v : A) (acc : string) :
  v ∈ q →
  includes (foldl (λ orientation value, orientation +:+ g value) acc q) (g v) = true.
Proof.
  revert acc. induction q as [|u q IH]; intros acc Hin; [inversion Hin|].
  cbn [foldl]. apply elem_of_cons in Hin as [->|Hin]; [|by apply IH].
  apply includes_foldl, includes_app_r, includes_refl.
Qed.

Lemma reading_shows_quaternion nts h k c x y z q lux w :
  orientation k = true →
  ∃ markup,
    run_to_completion
      (onreading nts h k c
         {| Sensor.x := x; Sensor.y := y; Sensor.z := z;
            Sensor.quaternion := Some q; Sensor.illuminance := lux |}) w
    = upd (message c)
        (λ e, {| tag := tag e; children := [Markup markup]; disabled := disabled e;
                 value := value e |}) w
    ∧ ∀ value, value ∈ q →
        includes markup ("<li>" +:+ JsNumber.toFixed nts value 15 +:+ "</li>") = true.
Proof.
  intros Hk. unfold run_to_completion.
  destruct k; try discriminate Hk;
    cbn [onreading];
    unfold absoluteOrientation_onreading, relativeOrientation_onreading;
    cbn [Sensor.x Sensor.y Sensor.z Sensor.quaternion];
    cbv [mbind mret js_bind js_ret member innerHTML set_children];
    rewrite update_element_run;
    (eexists; split; [reflexivity|]);
    intros value Hin;
    apply includes_app_r, includes_app_l;
    apply (includes_items (λ value, "<li>" +:+ JsNumber.toFixed nts value 15 +:+ "</li>")
             q value "" Hin).
Qed.

(** X19. A reading shows what the sensor measured.  After set-up and any
    events, a reading of one of the five sensors with axes leaves a
    message that holds each of the three axes with two decimals, and a
    reading of one of the two orientation sensors leaves a message that
    holds every component of the quaternion, with fifteen decimals, as
    an item of a list. *)
Theorem reading_shows_what_the_sensor_measured (number_to_string : float → string)
    (h : host) (k : sensor_interface) (w : world) (c : controls) (w1 : world)
    (s : nat) (evs : list sensor_event) (a : Sensor.attributes) :
  sensor_handler h k w = (Normal (Some c), w1) →
  sensor c = Some s →
  let step := sensor_step number_to_string h k c in
  let wn := foldl step w1 evs in
  let shown := children_of (step wn (reading_event a)) (message c) in
  (axes k = true →
   ∀ x y z, Sensor.x a = Some x → Sensor.y a = Some y → Sensor.z a = Some z →
     ∃ markup,
       shown = [Markup markup]
       ∧ includes markup (JsNumber.toFixed number_to_string x 2) = true
       ∧ includes markup (JsNumber.toFixed number_to_string y 2) = true
       ∧ includes markup (JsNumber.toFixed number_to_string z 2) = true)
  ∧ (orientation k = true →
     ∀ quaternion, Sensor.quaternion a = Some quaternion →
       ∃ markup,
         shown = [Markup markup]
         ∧ ∀ value, value ∈ quaternion →
             includes markup
               ("<li>" +:+ JsNumber.toFixed number_to_string value 15 +:+ "</li>") = true).
Proof.
  intros Hrun Hs step wn shown.
  pose proof (set_up_reached number_to_string h k w c w1 evs Hrun) as Hw.
  fold step in Hw. fold wn in Hw. clearbody wn.
  destruct Hw as [_ _ _ _ _ [eM HeM] _ _ _].
  subst shown step. cbn [sensor_step]. rewrite Hs.
  destruct a as [ax ay az aq lux]. cbn [Sensor.x Sensor.y Sensor.z Sensor.quaternion].
  split.
  - intros Hk x y z -> -> ->.
    destruct (reading_shows_axes number_to_string h k c x y z aq lux wn Hk)
      as (markup & -> & Hx & Hy & Hz).
    exists markup. autorewrite with world. rewrite decide_True by reflexivity.
    rewrite HeM. auto.
  - intros Hk q ->.
    destruct (reading_shows_quaternion number_to_string h k c ax ay az q lux wn Hk)
      as (markup & -> & Hq).
    exists markup. autorewrite with world. rewrite decide_True by reflexivity.
    rewrite HeM. auto.
Qed.

(** The gravity sensor started, with a reading of the three axes. *)
Lemma reading_shows_what_the_sensor_measured_witness :
  let h := sensor_host "" in
  let step := sensor_step no_digits h GravitySensor first_controls in
  let wn := foldl step (snd (sensor_handler h GravitySensor page_loaded)) [click_Start None] in
  let a := {| Sensor.x := Some 0.5%float; Sensor.y := Some 9.75%float;
              Sensor.z := Some (-0.25)%float;
              Sensor.quaternion := None; Sensor.illuminance := None |} in
  ∃ markup,
    children_of (step wn (reading_event a)) 2 = [Markup markup]
    ∧ includes markup (JsNumber.toFixed no_digits 0.5%float 2) = true
    ∧ includes markup (JsNumber.toFixed no_digits 9.75%float 2) = true
    ∧ includes markup (JsNumber.toFixed no_digits (-0.25)%float 2) = true.
Proof.
  cbv zeta.
  destruct (reading_shows_what_the_sensor_measured no_digits (sensor_host "") GravitySensor
              page_loaded first_controls
              (snd (sensor_handler (sensor_host "") GravitySensor page_loaded)) 0
              [click_Start None]
              {| Sensor.x := Some 0.5%float; Sensor.y := Some 9.75%float;
                 Sensor.z := Some (-0.25)%float;
                 Sensor.quaternion := None; Sensor.illuminance := None |})
    as [H _]; [vm_compute; reflexivity..|].
  exact (H eq_refl _ _ _ eq_refl eq_refl eq_refl).
Defined.

(** ** Badging *)

Lemma handleBadgingAPI_run h o es hs cs u :
  has (navigator h) "setAppBadge" || has (navigator h) "setClientBadge" = true →
  handleBadgingAPI h
    {| output := o; elements := es; handles := hs; calls := cs; uncaught := u |}
  = (Normal tt,
     {| output := o ++ [Child (length es + 0); Child (length es + 1); Child (length es + 2)];
        elements := es ++ [{| tag := BUTTON; children := [TextNode "Set App Badge"];
                              disabled := false; value := "" |};
                           {| tag := BUTTON; children := [TextNode "Clear App Badge"];
                              disabled := false; value := "" |};
                           messageDiv []];
        handles := hs;
        calls := cs ++ [console_log "Navigator:";
                        addEventListener (OnElement (length es + 0)) "click";
                        addEventListener (OnElement (length es + 1)) "click"];
        uncaught := u |}).
Proof.
  intros Hn. rewrite <- (app_nil_r es) at 1.
  unfold handleBadgingAPI. js_unfold. rewrite Hn. js_step.
  rewrite <- !app_assoc. reflexivity.
Qed.

Lemma badging_set_up nts h w :
  has (navigator h) "setAppBadge" || has (navigator h) "setClientBadge" = true →
  let w1 := change nts h "badging" w in
  Badging.kept (Badging.made w) w1
  ∧ output w1 = [Child (Badging.buttonSetAppBadge (Badging.made w));
                 Child (Badging.buttonClearAppBadge (Badging.made w));
                 Child (Badging.message (Badging.made w))]
  ∧ children_of w1 (Badging.message (Badging.made w)) = [].
Proof.
  intros Hn. cbv zeta.
  pose proof (change_invokes nts h Badging w) as Hc. cbn [tag_of] in Hc. rewrite Hc. clear Hc.
  destruct w as [o es hs cs u]. unfold cleared, run_to_completion. cbn [invoke].
  cbn [elements handles calls uncaught].
  rewrite handleBadgingAPI_run by exact Hn.
  unfold Badging.made, is_disabled, children_of. cbn.
  split; [split|]; unfold is_disabled; cbn; rewrite ?lookup_app_r by lia;
    rewrite ?Nat.add_0_r, ?Nat.sub_diag;
    replace (length es + 1 - length es)%nat with 1%nat by lia;
    replace (length es + 2 - length es)%nat with 2%nat by lia;
    cbn; eauto; try lia.
Qed.

Lemma badging_kept_step h c st ev :
  Badging.kept c st.1 → Badging.kept c (Badging.step h c st ev).1.
Proof.
  intros H. destruct st as [w rs]. cbn [fst] in H.
  pose proof (Badging.kept_set _ _ H) as Ds. pose proof (Badging.kept_clear _ _ H) as Dc.
  destruct ev as [| |[[]|e]|[[]|e]]; cbn [Badging.step];
    unfold asking, run_to_completion, Badging.buttonSetAppBadge_onclick,
      Badging.buttonClearAppBadge_onclick, Badging.navigator_method,
      Badging.setAppBadge_then, Badging.clearAppBadge_then;
    cbn [fst snd]; rewrite ?Ds, ?Dc;
    repeat match goal with
    | |- context [has ?o ?n] => destruct (has o n)
    end;
    js_world; try exact H;
    destruct H as [[eM HeM] Hsm Hcm _ _];
    (split; autorewrite with world; try assumption;
     rewrite ?decide_False by (intros E; first [by apply Hsm|by apply Hcm]);
     rewrite ?decide_True by reflexivity;
     rewrite ?HeM; eauto).
Qed.

Lemma badging_kept_steps h c evs st :
  Badging.kept c st.1 → Badging.kept c (foldl (Badging.step h c) st evs).1.
Proof.
  revert st. induction evs as [|ev evs IH]; intros st H; cbn [foldl]; [exact H|].
  apply IH, badging_kept_step, H.
Qed.

Lemma badging_requests_step h c st ev :
  has (navigator h) "setAppBadge" = false →
  Forall (λ r, r = Badging.clearAppBadge) st.2 →
  Forall (λ r, r = Badging.clearAppBadge) (Badging.step h c st ev).2.
Proof.
  intros Hn H. destruct st as [w rs]. cbn [snd] in H.
  destruct ev; cbn [Badging.step]; try exact H;
    unfold asking, Badging.buttonSetAppBadge_onclick, Badging.buttonClearAppBadge_onclick,
      Badging.navigator_method;
    cbn [fst snd]; rewrite ?Hn;
    repeat match goal with
    | |- context [is_disabled ?w ?b] => destruct (is_disabled w b)
    | |- context [has ?o ?n] => destruct (has o n)
    end;
    js_world; try exact H.
  apply Forall_app. split; [exact H|]. by constructor.
Qed.

Lemma badging_requests_steps h c evs st :
  has (navigator h) "setAppBadge" = false →
  Forall (λ r, r = Badging.clearAppBadge) st.2 →
  Forall (λ r, r = Badging.clearAppBadge) (foldl (Badging.step h c) st evs).2.
Proof.
  intros Hn. revert st. induction evs as [|ev evs IH]; intros st H; cbn [foldl]; [exact H|].
  by apply IH, badging_requests_step.
Qed.

(** X20. The badge panel is checked by one name and used by another.
    The handler shows its panel where the navigator has [setAppBadge]
    or [setClientBadge], and its listeners call [setAppBadge] and
    [clearAppBadge].  Where only [setClientBadge] is there the panel is
    shown with both buttons enabled, and at any time a click on Set App
    Badge sets no badge: it throws a TypeError that reaches the global
    handler, and the page stays as it is. *)
Theorem badge_is_checked_by_another_name (number_to_string : float → string) (h : host)
    (w : world) (evs : list Badging.event) :
  has (navigator h) "setAppBadge" = false →
  has (navigator h) "setClientBadge" = true →
  let w1 := change number_to_string h "badging" w in
  let c := Badging.made w in
  let st := foldl (Badging.step h c) (w1, []) evs in
  let st' := Badging.step h c st Badging.click_Set_App_Badge in
  output w1 = [Child (Badging.buttonSetAppBadge c); Child (Badging.buttonClearAppBadge c);
               Child (Badging.message c)]
  ∧ Forall (λ r, r = Badging.clearAppBadge) st.2
  ∧ is_disabled st.1 (Badging.buttonSetAppBadge c) = false
  ∧ st'.2 = st.2
  ∧ st'.1 = report (not_a_function "navigator.setAppBadge") st.1.
Proof.
  intros Hs Hc w1 c st st'.
  destruct (badging_set_up number_to_string h w) as (Hk & Ho & _);
    [by rewrite Hs, Hc|].
  fold w1 c in Hk, Ho.
  pose proof (badging_kept_steps h c evs (w1, []) Hk) as Hst. fold st in Hst.
  pose proof (badging_requests_steps h c evs (w1, []) Hs (Forall_nil_2 _)) as Hr.
  fold st in Hr.
  pose proof (Badging.kept_set _ _ Hst) as Ds.
  split; [exact Ho|]. split; [exact Hr|]. split; [exact Ds|].
  subst st'. clearbody st. destruct st as [wn rs]. cbn [fst snd] in *.
  cbn [Badging.step]. unfold asking. cbn [fst snd]. rewrite Ds.
  unfold Badging.buttonSetAppBadge_onclick, Badging.navigator_method. rewrite Hs.
  split; reflexivity.
Qed.

(** A click on Set App Badge where only [setClientBadge] is there. *)
Lemma badge_is_checked_by_another_name_witness :
  let w1 := change no_digits client_badge_host "badging" page_loaded in
  let c := Badging.made page_loaded in
  let st' := Badging.step client_badge_host c (w1, []) Badging.click_Set_App_Badge in
  output w1 = [Child 0; Child 1; Child 2]
  ∧ st'.2 = []
  ∧ uncaught st'.1 = ["TypeError: navigator.setAppBadge is not a function"].
Proof.
  cbv zeta.
  destruct (badge_is_checked_by_another_name no_digits client_badge_host page_loaded [])
    as (Ho & _ & _ & Hr & Hw); [vm_compute; reflexivity..|].
  cbn [foldl] in Hr, Hw.
  refine (conj Ho (conj Hr _)). rewrite Hw. vm_compute. reflexivity.
Defined.

(** ** Locking the screen orientation *)






